(** * Multi-tier caching tables of the station database

    A shallow embedding of the entity tables under [libs/database]
    ([t_user.py], [t_document.py], [t_device.py], [t_ans.py], [t_active.py])
    and of the start-up routine in [station/shared.py].

    Python coroutines are embedded as state-passing functions that may raise:
    the state holds the process memory of a table (its cache pools and
    dictionaries), the state of the volatile sink (Redis), the state of the
    durable sink (local storage) and a ghost trace of the sink calls made. *)

From stdpp Require Import gmap strings list fin_maps.
From Stdlib Require Import ZArith.

Local Open Scope Z_scope.

(** ** Exceptions and state *)

Inductive PyError : Type :=
| TypeError
| ValueError
| AttributeError
| AssertionError.

Inductive Exc (A : Type) : Type :=
| Return (a : A)
| Raise (e : PyError).

Arguments Return {A} a.
Arguments Raise {A} e.

Definition M (W A : Type) : Type := W → Exc A * W.

Definition ret {W A : Type} (a : A) : M W A := λ w, (Return a, w).

Definition bind {W A B : Type} (m : M W A) (k : A → M W B) : M W B :=
  λ w, match m w with
       | (Return a, w') => k a w'
       | (Raise e, w') => (Raise e, w')
       end.

Definition raise {W A : Type} (e : PyError) : M W A := λ w, (Raise e, w).

Definition gets {W A : Type} (f : W → A) : M W A := λ w, (Return (f w), w).

Definition modify {W : Type} (f : W → W) : M W unit := λ w, (Return tt, f w).

(** An expression that may raise, evaluated inside a coroutine. *)
Definition lift {W A : Type} (x : Exc A) : M W A := λ w, (x, w).

Declare Scope py_scope.
Delimit Scope py_scope with py.
Notation "x <- m ;; k" := (bind m (λ x, k))
  (at level 100, m at next level, right associativity) : py_scope.
Notation "m ;; k" := (bind m (λ _, k))
  (at level 100, right associativity) : py_scope.
Local Open Scope py_scope.

(** ** Sinks and the ghost trace of sink calls *)

Inductive Sink : Type := Redis | Dos.

(** One entry per awaited sink call: which sink, and the method's name. *)
Definition Call : Type := Sink * string.

(** The state a table's coroutines run on: [mem] is the process memory owned
    by the table, [redis] and [dos] the states of the two external sinks. *)
Record World (L R D : Type) : Type := mkWorld {
  mem : L;
  redis : R;
  dos : D;
  trace : list Call
}.

Arguments mkWorld {L R D} mem redis dos trace.
Arguments mem {L R D} w.
Arguments redis {L R D} w.
Arguments dos {L R D} w.
Arguments trace {L R D} w.

Section SinkCalls.
Context {L R D : Type}.

Definition with_mem (f : L → L) (w : World L R D) : World L R D :=
  mkWorld (f (mem w)) (redis w) (dos w) (trace w).

(** [await self._redis.<name>(...)] *)
Definition call_redis {A : Type} (name : string) (op : R → A * R)
  : M (World L R D) A :=
  λ w, let result := op (redis w) in
       (Return (fst result),
        mkWorld (mem w) (snd result) (dos w) (trace w ++ [(Redis, name)])).

(** [await self._dos.<name>(...)] *)
Definition call_dos {A : Type} (name : string) (op : D → A * D)
  : M (World L R D) A :=
  λ w, let result := op (dos w) in
       (Return (fst result),
        mkWorld (mem w) (redis w) (snd result) (trace w ++ [(Dos, name)])).
End SinkCalls.

(** ** Cache Pool *)

Module CachePool.
Section Pool.
Context {V : Type}.

Record CacheEntry : Type := mkEntry {
    value : option V;
    expireAt : Z;
    refreshAt : Z
  }.

(** Modelled from the spec: the in-process pool [aiou.mem.CachePool] is
    not part of the sources.  [fetch] answers [(None, false)] on a miss
    or after [expireAt], [(value, false)] inside the freshness window and
    [(value, true)] after [refreshAt]. *)
Definition fetch (key : string) (now : Z) (pool : gmap string CacheEntry)
  : option V * bool :=
  match pool !! key with
  | None => (None, false)
  | Some e =>
      if bool_decide (expireAt e < now) then (None, false)
      else if bool_decide (refreshAt e < now) then (value e, true)
      else (value e, false)
  end.

(** Modelled from the spec: [update] sets [expireAt = now + lifespan] and
    [refreshAt = now + (lifespan - refreshMargin)]. *)
Definition update (key : string) (v : option V)
    (life_span refresh_margin now : Z) (pool : gmap string CacheEntry)
  : gmap string CacheEntry :=
  <[key := mkEntry v (now + life_span) (now + (life_span - refresh_margin))]> pool.

(** Modelled from the spec: [erase] drops the entry of the key. *)
Definition erase (key : string) (pool : gmap string CacheEntry)
  : gmap string CacheEntry :=
  delete key pool.

(** A list or set handed out by [fetch] is the cached object itself: a
    mutation through that reference changes the entry's value and leaves
    its two deadlines alone. *)
Definition mutate (key : string) (f : V → V) (pool : gmap string CacheEntry)
  : gmap string CacheEntry :=
  alter (λ e, mkEntry (f <$> value e) (expireAt e) (refreshAt e)) key pool.
End Pool.

Arguments CacheEntry V : clear implicits.
End CachePool.

Import CachePool.

Abbreviation Pool V := (gmap string (CacheEntry V)).

(** ** Task: cascading load and save *)

Section DbTask.
Context {W V : Type}.
Variable pool_of : W → Pool V.
Variable set_pool : Pool V → W → W.
Variable cache_key : string.
Variables cache_expires cache_refresh : Z.
Variable _read_data : M W (option V).
Variable _write_data : V → M W bool.

(** Modelled from the spec: what [load] found is stored with the task's
    life span and refresh margin; an absent result is not cached. *)
Definition store (now : Z) (found : option V) : M W unit :=
  match found with
  | Some v =>
      modify (λ w, set_pool (update cache_key (Some v) cache_expires cache_refresh now
                               (pool_of w)) w)
  | None => ret tt
  end.

(** Modelled from the spec: [dimples.database.DbTask.load] is not part of
    the sources.  A fresh entry is returned at once; a stale but usable
    entry is returned while the cascading read refreshes the pool; on a
    miss the cascading read runs and what it finds is stored with the
    task's life span (an absent result is not cached). *)
Definition load (now : Z) : M W (option V) :=
  pool <- gets pool_of ;;
  match fetch cache_key now pool with
  | (Some v, false) => ret (Some v)
  | (Some v, true) =>
      found <- _read_data ;;
      store now found ;;
      ret (Some v)
  | (None, _) =>
      found <- _read_data ;;
      store now found ;;
      ret found
  end.

(** Modelled from the spec: [dimples.database.DbTask.save] is not part of
    the sources.  The pool entry is always replaced by the new value and
    the result is the one of the task's write cascade. *)
Definition save (now : Z) (v : V) : M W bool :=
  modify (λ w, set_pool (update cache_key (Some v) cache_expires cache_refresh now
                           (pool_of w)) w) ;;
  _write_data v.
End DbTask.

(** Class constants of [DbTask] used by the tasks that do not override them;
    their values are not in the sources, so the tables take them as
    parameters. *)
Record TaskConfig : Type := mkTaskConfig {
  MEM_CACHE_EXPIRES : Z;
  MEM_CACHE_REFRESH : Z
}.

(** An identifier, by its string form: the form under which it is hashed
    and compared when used as a key of a pool or of a dictionary. *)
Definition ID : Type := string.

(** ** Presence and socket addresses ([t_active.py]) *)

Definition SocketAddress : Type := string * Z.

Module LoginCache.
(** The presence service of the volatile sink, as far as the table calls
    it; the results of the two writes are ignored by the callers. *)
Record Interface (R : Type) : Type := {
    get_active_users : R → option (gset ID) * R;
    clear_socket_addresses : R → unit * R;
    save_socket_addresses : ID → option (gset SocketAddress) → R → unit * R
  }.
Arguments get_active_users {R} i.
Arguments clear_socket_addresses {R} i.
Arguments save_socket_addresses {R} i identifier addresses.
End LoginCache.

Module ActiveMemory.
(** Process memory of the table: the pool named [session] and the
    dictionary [_socket_address]. *)
Record Memory : Type := mkMemory {
    cache : Pool (gset ID);
    _socket_address : gmap ID (gset SocketAddress)
  }.

Definition set_cache (p : Pool (gset ID)) (m : Memory) : Memory :=
  mkMemory p (_socket_address m).

Definition set_socket_address (d : gmap ID (gset SocketAddress)) (m : Memory)
  : Memory :=
  mkMemory (cache m) d.

End ActiveMemory.

Module ActTask.
Import ActiveMemory.

Definition MEM_CACHE_EXPIRES : Z := 60.
Definition MEM_CACHE_REFRESH : Z := 8.
Definition cache_key : string := "active_users".

Section Task.
Context {R : Type} (sink : LoginCache.Interface R).

Definition _read_data : M (World Memory R unit) (option (gset ID)) :=
  users <- call_redis "get_active_users" (LoginCache.get_active_users sink) ;;
  match users with
  | None => ret None
  | Some s => if bool_decide (size s = 0%nat) then ret None else ret (Some s)
  end.

Definition load (now : Z) : M (World Memory R unit) (option (gset ID)) :=
  load (λ w, cache (mem w)) (λ p, with_mem (set_cache p))
       cache_key MEM_CACHE_EXPIRES MEM_CACHE_REFRESH _read_data now.
End Task.
End ActTask.

Module ActiveTable.
Import ActiveMemory.

(** [ActiveTable.__init__]: the pool comes from the shared pool manager,
    the socket dictionary starts empty. *)
Definition __init__ (pool : Pool (gset ID)) : Memory := mkMemory pool ∅.

Section Table.
Context {R : Type} (sink : LoginCache.Interface R).

Definition clear_socket_addresses : M (World Memory R unit) unit :=
  modify (with_mem (λ m, set_cache (erase "active_users" (cache m)) m)) ;;
  call_redis "clear_socket_addresses" (LoginCache.clear_socket_addresses sink).

Definition get_active_users (now : Z) : M (World Memory R unit) (gset ID) :=
  users <- ActTask.load sink now ;;
  ret (match users with None => ∅ | Some s => s end).

(** The set returned is the one kept in [_socket_address]; [sockets.add]
    changes it in place, which the dictionary update below records. *)
Definition add_socket_address (identifier : ID) (address : SocketAddress)
  : M (World Memory R unit) (gset SocketAddress) :=
  found <- gets (λ w, _socket_address (mem w) !! identifier) ;;
  let sockets := match found with None => ∅ | Some s => s end in
  let sockets := sockets ∪ {[address]} in
  modify (with_mem (λ m, set_socket_address
                           (<[identifier := sockets]> (_socket_address m)) m)) ;;
  call_redis "save_socket_addresses"
    (LoginCache.save_socket_addresses sink identifier (Some sockets)) ;;
  ret sockets.

Definition remove_socket_address (identifier : ID) (address : SocketAddress)
  : M (World Memory R unit) (option (gset SocketAddress)) :=
  found <- gets (λ w, _socket_address (mem w) !! identifier) ;;
  sockets <- match found with
             | Some s =>
                 let s := s ∖ {[address]} in
                 if bool_decide (size s = 0%nat) then
                   modify (with_mem (λ m, set_socket_address
                             (delete identifier (_socket_address m)) m)) ;;
                   ret None
                 else
                   modify (with_mem (λ m, set_socket_address
                             (<[identifier := s]> (_socket_address m)) m)) ;;
                   ret (Some s)
             | None => ret None
             end ;;
  call_redis "save_socket_addresses"
    (LoginCache.save_socket_addresses sink identifier sockets) ;;
  ret sockets.

(** Modelled from the spec: [Database(config)] (the facade
    [libs.database.Database] is not part of the sources) constructs the
    presence table over the volatile sink. *)
Definition Database (pool : Pool (gset ID)) (r0 : R) : World Memory R unit :=
  mkWorld (__init__ pool) r0 tt [].

(** Modelled from the spec: [Database.clear_socket_addresses] (not part of
    the sources) forwards to the routine of the presence table. *)
Definition Database_clear_socket_addresses : M (World Memory R unit) unit :=
  clear_socket_addresses.

(** [create_database] of [station/shared.py], as far as the presence table
    is concerned: the database is constructed and cleared before it is handed
    to the station ([show_info] only prints, and the two filters only keep a
    reference to the database). *)
Definition create_database (pool : Pool (gset ID)) (r0 : R)
  : Exc unit * World Memory R unit :=
  let db := Database pool r0 in
  Database_clear_socket_addresses db.
End Table.

(** The calls a station makes on the socket dictionary after start-up. *)
Inductive Op : Type :=
  | Add (identifier : ID) (address : SocketAddress)
  | Remove (identifier : ID) (address : SocketAddress).

Definition step {R : Type} (sink : LoginCache.Interface R) (op : Op)
    (w : World Memory R unit) : World Memory R unit :=
  match op with
  | Add i a => snd (add_socket_address sink i a w)
  | Remove i a => snd (remove_socket_address sink i a w)
  end.

Definition run {R : Type} (sink : LoginCache.Interface R) (ops : list Op)
    (w : World Memory R unit) : World Memory R unit :=
  foldl (λ w op, step sink op w) w ops.
End ActiveTable.

(** ** Contacts and command records ([t_user.py]) *)

(** A command is a dictionary; only its keys and its [time] entry matter
    here. *)
Inductive Item : Type :=
| Num (z : Z)
| Str (s : string)
| Arr (l : list string).

Definition Command : Type := list (string * Item).

Fixpoint get (key : string) (c : Command) : option Item :=
  match c with
  | [] => None
  | (k, v) :: c' => if bool_decide (k = key) then Some v else get key c'
  end.

(** [content.time] *)
Definition time (c : Command) : option Z :=
  match get "time" c with
  | Some (Num z) => Some z
  | _ => None
  end.

(** The objects that reach the freshness check of a command. *)
Inductive PyObj : Type :=
| PyNone
| PyStr (s : string)
| PyCommand (c : Command).

Definition of_command (c : option Command) : PyObj :=
  match c with
  | Some c => PyCommand c
  | None => PyNone
  end.

(** [a, b = obj]: [None] is not iterable, a dictionary iterates over its
    keys and a string over its characters; anything but two items raises. *)
Definition unpack2 (obj : PyObj) : Exc (PyObj * PyObj) :=
  match obj with
  | PyNone => Raise TypeError
  | PyStr (String a (String b EmptyString)) =>
      Return (PyStr (String a EmptyString), PyStr (String b EmptyString))
  | PyStr _ => Raise ValueError
  | PyCommand [(k1, _); (k2, _)] => Return (PyStr k1, PyStr k2)
  | PyCommand _ => Raise ValueError
  end.

(** [obj.time] *)
Definition attr_time (obj : PyObj) : Exc (option Z) :=
  match obj with
  | PyCommand c => Return (time c)
  | _ => Raise AttributeError
  end.

Definition is_not_None (obj : PyObj) : bool :=
  match obj with
  | PyNone => false
  | _ => true
  end.

(** Truth value of what a checker returns: [None] (no [return] reached) and
    [False] are both false. *)
Definition truthy (r : option bool) : bool :=
  match r with
  | Some b => b
  | None => false
  end.

Module UserSink.
(** [UserCache] (volatile) and [UserStorage] (durable) expose the same
    methods to the tasks. *)
Record Interface (S : Type) : Type := {
  get_contacts : ID → S → option (list ID) * S;
  save_contacts : list ID → ID → S → bool * S;
  get_contacts_command : ID → S → option Command * S;
  save_contacts_command : Command → ID → S → bool * S;
  get_block_command : ID → S → option Command * S;
  save_block_command : Command → ID → S → bool * S;
  get_mute_command : ID → S → option Command * S;
  save_mute_command : Command → ID → S → bool * S
}.
Arguments get_contacts {S} i.
Arguments save_contacts {S} i.
Arguments get_contacts_command {S} i.
Arguments save_contacts_command {S} i.
Arguments get_block_command {S} i.
Arguments save_block_command {S} i.
Arguments get_mute_command {S} i.
Arguments save_mute_command {S} i.
End UserSink.

Module UserMemory.
(** The four pools of [UserTable.__init__]. *)
Record Memory : Type := mkMemory {
  _cmd_contacts : Pool Command;
  _cmd_block : Pool Command;
  _cmd_mute : Pool Command;
  _cache : Pool (list ID)
}.

Definition set_cmd_contacts (p : Pool Command) (m : Memory) : Memory :=
  mkMemory p (_cmd_block m) (_cmd_mute m) (_cache m).
Definition set_cmd_block (p : Pool Command) (m : Memory) : Memory :=
  mkMemory (_cmd_contacts m) p (_cmd_mute m) (_cache m).
Definition set_cmd_mute (p : Pool Command) (m : Memory) : Memory :=
  mkMemory (_cmd_contacts m) (_cmd_block m) p (_cache m).
Definition set_cache (p : Pool (list ID)) (m : Memory) : Memory :=
  mkMemory (_cmd_contacts m) (_cmd_block m) (_cmd_mute m) p.
End UserMemory.

Module UsrTask.
Import UserMemory.
Section Task.
Context {R D : Type}.
Context (_redis : UserSink.Interface R) (_dos : UserSink.Interface D).
Context (cfg : TaskConfig) (_user : ID).

Definition _read_data : M (World Memory R D) (option (list ID)) :=
  contacts <- call_redis "get_contacts" (UserSink.get_contacts _redis _user) ;;
  match contacts with
  | Some c => ret (Some c)
  | None =>
      contacts <- call_dos "get_contacts" (UserSink.get_contacts _dos _user) ;;
      match contacts with
      | Some c =>
          call_redis "save_contacts" (UserSink.save_contacts _redis c _user) ;;
          ret (Some c)
      | None => ret None
      end
  end.

Definition _write_data (value : list ID) : M (World Memory R D) bool :=
  ok1 <- call_redis "save_contacts" (UserSink.save_contacts _redis value _user) ;;
  ok2 <- call_dos "save_contacts" (UserSink.save_contacts _dos value _user) ;;
  ret (ok1 || ok2).

Definition load (now : Z) : M (World Memory R D) (option (list ID)) :=
  load (λ w, _cache (mem w)) (λ p, with_mem (set_cache p))
       _user (MEM_CACHE_EXPIRES cfg) (MEM_CACHE_REFRESH cfg) _read_data now.

Definition save (now : Z) (value : list ID) : M (World Memory R D) bool :=
  save (λ w, _cache (mem w)) (λ p, with_mem (set_cache p))
       _user (MEM_CACHE_EXPIRES cfg) (MEM_CACHE_REFRESH cfg) _write_data now value.
End Task.
End UsrTask.

Module ConTask.
Import UserMemory.
Section Task.
Context {R D : Type}.
Context (_redis : UserSink.Interface R) (_dos : UserSink.Interface D).
Context (cfg : TaskConfig) (_user : ID).

Definition _read_data : M (World Memory R D) (option Command) :=
  cmd <- call_redis "get_contacts_command" (UserSink.get_contacts_command _redis _user) ;;
  match cmd with
  | Some c => ret (Some c)
  | None =>
      cmd <- call_dos "get_contacts_command" (UserSink.get_contacts_command _dos _user) ;;
      match cmd with
      | Some c =>
          call_redis "save_contacts_command"
            (UserSink.save_contacts_command _redis c _user) ;;
          ret (Some c)
      | None => ret None
      end
  end.

Definition _write_data (value : Command) : M (World Memory R D) bool :=
  ok1 <- call_redis "save_contacts_command"
           (UserSink.save_contacts_command _redis value _user) ;;
  ok2 <- call_dos "save_contacts_command"
           (UserSink.save_contacts_command _dos value _user) ;;
  ret (ok1 || ok2).

Definition load (now : Z) : M (World Memory R D) (option Command) :=
  load (λ w, _cmd_contacts (mem w)) (λ p, with_mem (set_cmd_contacts p))
       _user (MEM_CACHE_EXPIRES cfg) (MEM_CACHE_REFRESH cfg) _read_data now.

Definition save (now : Z) (value : Command) : M (World Memory R D) bool :=
  save (λ w, _cmd_contacts (mem w)) (λ p, with_mem (set_cmd_contacts p))
       _user (MEM_CACHE_EXPIRES cfg) (MEM_CACHE_REFRESH cfg) _write_data now value.
End Task.
End ConTask.

Module BloTask.
Import UserMemory.
Section Task.
Context {R D : Type}.
Context (_redis : UserSink.Interface R) (_dos : UserSink.Interface D).
Context (cfg : TaskConfig) (_user : ID).

Definition _read_data : M (World Memory R D) (option Command) :=
  cmd <- call_redis "get_block_command" (UserSink.get_block_command _redis _user) ;;
  match cmd with
  | Some c => ret (Some c)
  | None =>
      cmd <- call_dos "get_block_command" (UserSink.get_block_command _dos _user) ;;
      match cmd with
      | Some c =>
          call_redis "save_block_command"
            (UserSink.save_block_command _redis c _user) ;;
          ret (Some c)
      | None => ret None
      end
  end.

Definition _write_data (value : Command) : M (World Memory R D) bool :=
  ok1 <- call_redis "save_block_command"
           (UserSink.save_block_command _redis value _user) ;;
  ok2 <- call_dos "save_block_command"
           (UserSink.save_block_command _dos value _user) ;;
  ret (ok1 || ok2).

Definition load (now : Z) : M (World Memory R D) (option Command) :=
  load (λ w, _cmd_block (mem w)) (λ p, with_mem (set_cmd_block p))
       _user (MEM_CACHE_EXPIRES cfg) (MEM_CACHE_REFRESH cfg) _read_data now.

Definition save (now : Z) (value : Command) : M (World Memory R D) bool :=
  save (λ w, _cmd_block (mem w)) (λ p, with_mem (set_cmd_block p))
       _user (MEM_CACHE_EXPIRES cfg) (MEM_CACHE_REFRESH cfg) _write_data now value.
End Task.
End BloTask.

Module MutTask.
Import UserMemory.
Section Task.
Context {R D : Type}.
Context (_redis : UserSink.Interface R) (_dos : UserSink.Interface D).
Context (cfg : TaskConfig) (_user : ID).

Definition _read_data : M (World Memory R D) (option Command) :=
  cmd <- call_redis "get_mute_command" (UserSink.get_mute_command _redis _user) ;;
  match cmd with
  | Some c => ret (Some c)
  | None =>
      cmd <- call_dos "get_mute_command" (UserSink.get_mute_command _dos _user) ;;
      match cmd with
      | Some c =>
          call_redis "save_mute_command"
            (UserSink.save_mute_command _redis c _user) ;;
          ret (Some c)
      | None => ret None
      end
  end.

Definition _write_data (value : Command) : M (World Memory R D) bool :=
  ok1 <- call_redis "save_mute_command"
           (UserSink.save_mute_command _redis value _user) ;;
  ok2 <- call_dos "save_mute_command"
           (UserSink.save_mute_command _dos value _user) ;;
  ret (ok1 || ok2).

Definition load (now : Z) : M (World Memory R D) (option Command) :=
  load (λ w, _cmd_mute (mem w)) (λ p, with_mem (set_cmd_mute p))
       _user (MEM_CACHE_EXPIRES cfg) (MEM_CACHE_REFRESH cfg) _read_data now.

Definition save (now : Z) (value : Command) : M (World Memory R D) bool :=
  save (λ w, _cmd_mute (mem w)) (λ p, with_mem (set_cmd_mute p))
       _user (MEM_CACHE_EXPIRES cfg) (MEM_CACHE_REFRESH cfg) _write_data now value.
End Task.
End MutTask.

Module UserTable.
Import UserMemory.
Section Table.
Context {R D : Type}.
Context (_redis : UserSink.Interface R) (_dos : UserSink.Interface D).
Context (cfg : TaskConfig).

(** [dimples.utils.is_before(old_time, new_time)] is imported from a library
    outside the sources; the table is parameterised by it. *)
Context (is_before : option Z → option Z → bool).

Definition get_contacts (user : ID) (now : Z) : M (World Memory R D) (list ID) :=
  contacts <- UsrTask.load _redis _dos cfg user now ;;
  ret (match contacts with None => [] | Some c => c end).

Definition save_contacts (contacts : list ID) (user : ID) (now : Z)
  : M (World Memory R D) bool :=
  UsrTask.save _redis _dos cfg user now contacts.

Definition get_contacts_command (identifier : ID) (now : Z)
  : M (World Memory R D) (option Command) :=
  ConTask.load _redis _dos cfg identifier now.

(** Written as in the source: the stored command is unpacked into two
    names, and every path that ends the function yields [False] or falls off
    its end ([None]). *)
Definition _is_contacts_expired (user : ID) (content : Command) (now : Z)
  : M (World Memory R D) (option bool) :=
  match time content with
  | None => ret (Some false)
  | Some new_time =>
      if bool_decide (new_time ≤ 0) then ret (Some false)
      else
        stored <- get_contacts_command user now ;;
        pair <- lift (unpack2 (of_command stored)) ;;
        let old := fst pair in
        if is_not_None old then
          old_time <- lift (attr_time old) ;;
          if is_before old_time (Some new_time) then ret (Some false)
          else ret None
        else ret None
  end.

Definition save_contacts_command (content : Command) (identifier : ID) (now : Z)
  : M (World Memory R D) bool :=
  expired <- _is_contacts_expired identifier content now ;;
  if truthy expired then ret false
  else ConTask.save _redis _dos cfg identifier now content.

Definition get_block_command (identifier : ID) (now : Z)
  : M (World Memory R D) (option Command) :=
  BloTask.load _redis _dos cfg identifier now.

Definition _is_blocked_expired (user : ID) (content : Command) (now : Z)
  : M (World Memory R D) (option bool) :=
  match time content with
  | None => ret (Some false)
  | Some new_time =>
      if bool_decide (new_time ≤ 0) then ret (Some false)
      else
        old <- get_block_command user now ;;
        match old with
        | Some o =>
            if is_before (time o) (Some new_time) then ret (Some false)
            else ret None
        | None => ret None
        end
  end.

Definition save_block_command (content : Command) (identifier : ID) (now : Z)
  : M (World Memory R D) bool :=
  expired <- _is_blocked_expired identifier content now ;;
  if truthy expired then ret false
  else BloTask.save _redis _dos cfg identifier now content.

Definition get_mute_command (identifier : ID) (now : Z)
  : M (World Memory R D) (option Command) :=
  MutTask.load _redis _dos cfg identifier now.

Definition _is_muted_expired (user : ID) (content : Command) (now : Z)
  : M (World Memory R D) (option bool) :=
  match time content with
  | None => ret (Some false)
  | Some new_time =>
      if bool_decide (new_time ≤ 0) then ret (Some false)
      else
        old <- get_mute_command user now ;;
        match old with
        | Some o =>
            if is_before (time o) (Some new_time) then ret (Some false)
            else ret None
        | None => ret None
        end
  end.

Definition save_mute_command (content : Command) (identifier : ID) (now : Z)
  : M (World Memory R D) bool :=
  expired <- _is_muted_expired identifier content now ;;
  if truthy expired then ret false
  else MutTask.save _redis _dos cfg identifier now content.
End Table.
End UserTable.

(** ** Devices ([t_device.py]) *)

Module DeviceSink.
(** [DeviceCache] and [DeviceStorage], over an opaque device descriptor. *)
Record Interface (Info S : Type) : Type := {
  get_devices : ID → S → option (list Info) * S;
  save_devices : list Info → ID → S → bool * S
}.
Arguments get_devices {Info S} i.
Arguments save_devices {Info S} i.
End DeviceSink.

Module DevTask.
Section Task.
Context {DeviceInfo R D : Type}.
Context (_redis : DeviceSink.Interface DeviceInfo R).
Context (_dos : DeviceSink.Interface DeviceInfo D).
Context (cfg : TaskConfig) (_identifier : ID).

(** Process memory of [DeviceTable]: the single pool named [devices]. *)
Local Abbreviation Memory := (Pool (list DeviceInfo)).

Definition _read_data : M (World Memory R D) (option (list DeviceInfo)) :=
  devices <- call_redis "get_devices" (DeviceSink.get_devices _redis _identifier) ;;
  match devices with
  | Some (d :: ds) => ret (Some (d :: ds))
  | _ =>
      devices <- call_dos "get_devices" (DeviceSink.get_devices _dos _identifier) ;;
      match devices with
      | Some (d :: ds) =>
          call_redis "save_devices"
            (DeviceSink.save_devices _redis (d :: ds) _identifier) ;;
          ret (Some (d :: ds))
      | _ => ret None
      end
  end.

Definition _write_data (value : list DeviceInfo) : M (World Memory R D) bool :=
  ok1 <- call_redis "save_devices" (DeviceSink.save_devices _redis value _identifier) ;;
  ok2 <- call_dos "save_devices" (DeviceSink.save_devices _dos value _identifier) ;;
  ret (ok1 || ok2).

Definition load (now : Z) : M (World Memory R D) (option (list DeviceInfo)) :=
  load mem (λ p, with_mem (λ _, p))
       _identifier (MEM_CACHE_EXPIRES cfg) (MEM_CACHE_REFRESH cfg) _read_data now.

Definition save (now : Z) (value : list DeviceInfo) : M (World Memory R D) bool :=
  save mem (λ p, with_mem (λ _, p))
       _identifier (MEM_CACHE_EXPIRES cfg) (MEM_CACHE_REFRESH cfg) _write_data now value.
End Task.
End DevTask.

(** ** Documents ([t_document.py]) *)

Module Document.
Record t : Type := mk {
  identifier : ID;
  type : option string;
  time : option Z;
  valid : bool;
  body : string
}.

#[global] Instance eq_dec : EqDecision t.
Proof. solve_decision. Defined.
End Document.

Abbreviation Document := Document.t.

Module DocumentType.
Definition VISA : string := "visa".
End DocumentType.

Module DocumentUtils.
(** The helpers of [dimples.DocumentUtils] that [save_document] calls; they
    live in a library outside the sources and are parameters of the table. *)
Record Interface : Type := {
  get_document_type : Document → option string;
  last_document : list Document → option string → option Document;
  is_expired : Document → Document → bool
}.
End DocumentUtils.

Module DocumentCache.
Record Interface (R : Type) : Type := {
  load_documents : ID → R → option (list Document) * R;
  save_documents : list Document → ID → R → bool * R
}.
Arguments load_documents {R} i.
Arguments save_documents {R} i.
End DocumentCache.

Module DocumentStorage.
Record Interface (D : Type) : Type := {
  load_documents : ID → D → option (list Document) * D;
  save_documents : list Document → ID → D → bool * D;
  scan_documents : D → option (list Document) * D
}.
Arguments load_documents {D} i.
Arguments save_documents {D} i.
Arguments scan_documents {D} i.
End DocumentStorage.

(** [my_documents.remove(old)]: drops the first element equal to [old];
    [None] stands for the [ValueError] of a missing element. *)
Fixpoint list_remove (old : Document) (l : list Document) : option (list Document) :=
  match l with
  | [] => None
  | d :: l' =>
      if bool_decide (d = old) then Some l'
      else match list_remove old l' with
           | Some r => Some (d :: r)
           | None => None
           end
  end.

Module DocTask.
(** Process memory of [DocumentTable]: the single pool named [documents]. *)
Abbreviation Memory := (Pool (list Document)).

Section Task.
Context {R D : Type}.
Context (_redis : DocumentCache.Interface R) (_dos : DocumentStorage.Interface D).
Context (cfg : TaskConfig) (_identifier : ID).

Definition _read_data : M (World Memory R D) (option (list Document)) :=
  docs <- call_redis "load_documents" (DocumentCache.load_documents _redis _identifier) ;;
  match docs with
  | Some (d :: ds) => ret (Some (d :: ds))
  | _ =>
      docs <- call_dos "load_documents"
                (DocumentStorage.load_documents _dos _identifier) ;;
      match docs with
      | Some (d :: ds) =>
          call_redis "save_documents"
            (DocumentCache.save_documents _redis (d :: ds) _identifier) ;;
          ret (Some (d :: ds))
      | _ => ret None
      end
  end.

Definition _write_data (value : list Document) : M (World Memory R D) bool :=
  ok1 <- call_redis "save_documents"
           (DocumentCache.save_documents _redis value _identifier) ;;
  ok2 <- call_dos "save_documents"
           (DocumentStorage.save_documents _dos value _identifier) ;;
  ret (ok1 || ok2).

Definition load (now : Z) : M (World Memory R D) (option (list Document)) :=
  load mem (λ p, with_mem (λ _, p))
       _identifier (MEM_CACHE_EXPIRES cfg) (MEM_CACHE_REFRESH cfg) _read_data now.

Definition save (now : Z) (value : list Document) : M (World Memory R D) bool :=
  save mem (λ p, with_mem (λ _, p))
       _identifier (MEM_CACHE_EXPIRES cfg) (MEM_CACHE_REFRESH cfg) _write_data now value.
End Task.
End DocTask.

Module ScanTask.
Definition ALL_KEY : string := "all_documents".
Definition MEM_CACHE_EXPIRES : Z := 3600.
Definition MEM_CACHE_REFRESH : Z := 600.

Section Task.
Context {R D : Type} (_dos : DocumentStorage.Interface D).

Definition _read_data : M (World DocTask.Memory R D) (option (list Document)) :=
  call_dos "scan_documents" (DocumentStorage.scan_documents _dos).

Definition load (now : Z) : M (World DocTask.Memory R D) (option (list Document)) :=
  load mem (λ p, with_mem (λ _, p))
       ALL_KEY MEM_CACHE_EXPIRES MEM_CACHE_REFRESH _read_data now.
End Task.
End ScanTask.

Module DocumentTable.
Section Table.
Context {R D : Type}.
Context (_redis : DocumentCache.Interface R) (_dos : DocumentStorage.Interface D).
Context (cfg : TaskConfig) (utils : DocumentUtils.Interface).

Definition get_documents (identifier : ID) (now : Z)
  : M (World DocTask.Memory R D) (list Document) :=
  docs <- DocTask.load _redis _dos cfg identifier now ;;
  ret (match docs with None => [] | Some l => l end).

Definition scan_documents (now : Z) : M (World DocTask.Memory R D) (list Document) :=
  docs <- ScanTask.load _dos now ;;
  ret (match docs with None => [] | Some l => l end).

(** The list returned by [get_documents] is the object held by the pool
    (when the pool holds one), so [remove] and [append] change that entry
    in place before the scan entry is fetched; likewise [append] on the
    fetched scan list changes the scan entry in place. *)
Definition save_document (document : Document) (now : Z)
  : M (World DocTask.Memory R D) bool :=
  if negb (Document.valid document) then raise AssertionError
  else
    let identifier := Document.identifier document in
    let doc_type := DocumentUtils.get_document_type utils document in
    my_documents <- get_documents identifier now ;;
    let old := DocumentUtils.last_document utils my_documents doc_type in
    let old :=
      match old with
      | None =>
          if bool_decide (doc_type = Some DocumentType.VISA)
          then DocumentUtils.last_document utils my_documents (Some "profile"%string)
          else None
      | Some o => Some o
      end in
    let append_and_save (my_documents : list Document) :=
      let my_documents := my_documents ++ [document] in
      modify (with_mem (mutate identifier (λ _, my_documents))) ;;
      pool <- gets mem ;;
      match fst (fetch ScanTask.ALL_KEY now pool) with
      | Some _ =>
          modify (with_mem (mutate ScanTask.ALL_KEY (λ all, all ++ [document])))
      | None => ret tt
      end ;;
      DocTask.save _redis _dos cfg identifier now my_documents in
    match old with
    | Some o =>
        if DocumentUtils.is_expired utils document o then ret false
        else match list_remove o my_documents with
             | Some rest => append_and_save rest
             | None => raise ValueError
             end
    | None => append_and_save my_documents
    end.
End Table.
End DocumentTable.

(** ** Address-name registry ([t_ans.py]) *)

(** The pool named [ans] is shared by three kinds of keys (the constant
    [all_records], names, identifiers), all of them strings, and holds three
    kinds of values told apart with [isinstance]. *)
Inductive AnsValue : Type :=
| IdValue (identifier : ID)
| NamesValue (names : gset string)
| RecordsValue (records : gmap string (option ID)).

Module AddressNameCache.
Record Interface (R : Type) : Type := {
  get_record : string → R → option ID * R;
  get_names : ID → R → option (gset string) * R;
  save_record : string → option AnsValue → R → bool * R
}.
Arguments get_record {R} i.
Arguments get_names {R} i.
Arguments save_record {R} i.
End AddressNameCache.

Module AddressNameStorage.
Record Interface (D : Type) : Type := {
  load_records : D → option (gmap string (option ID)) * D;
  save_records : gmap string (option ID) → D → bool * D
}.
Arguments load_records {D} i.
Arguments save_records {D} i.
End AddressNameStorage.

Module AnsTask.
(** Process memory of [AddressNameTable]: the pool named [ans]. *)
Abbreviation Memory := (Pool AnsValue).
End AnsTask.

Module AllTask.
Definition ALL_KEY : string := "all_records".

Section Task.
Context {R D : Type} (_dos : AddressNameStorage.Interface D) (cfg : TaskConfig).

Definition _read_data : M (World AnsTask.Memory R D) (option AnsValue) :=
  records <- call_dos "load_records" (AddressNameStorage.load_records _dos) ;;
  ret (RecordsValue <$> records).

Definition load (now : Z) : M (World AnsTask.Memory R D) (option AnsValue) :=
  load mem (λ p, with_mem (λ _, p))
       ALL_KEY (MEM_CACHE_EXPIRES cfg) (MEM_CACHE_REFRESH cfg) _read_data now.
End Task.
End AllTask.

Module IdTask.
Section Task.
Context {R D : Type} (_redis : AddressNameCache.Interface R) (cfg : TaskConfig).
Context (_name : string).

Definition _read_data : M (World AnsTask.Memory R D) (option AnsValue) :=
  did <- call_redis "get_record" (AddressNameCache.get_record _redis _name) ;;
  ret (IdValue <$> did).

Definition load (now : Z) : M (World AnsTask.Memory R D) (option AnsValue) :=
  load mem (λ p, with_mem (λ _, p))
       _name (MEM_CACHE_EXPIRES cfg) (MEM_CACHE_REFRESH cfg) _read_data now.
End Task.
End IdTask.

Module NameTask.
Section Task.
Context {R D : Type} (_redis : AddressNameCache.Interface R) (cfg : TaskConfig).
Context (_identifier : ID).

Definition _read_data : M (World AnsTask.Memory R D) (option AnsValue) :=
  names <- call_redis "get_names" (AddressNameCache.get_names _redis _identifier) ;;
  ret (NamesValue <$> names).

Definition load (now : Z) : M (World AnsTask.Memory R D) (option AnsValue) :=
  load mem (λ p, with_mem (λ _, p))
       _identifier (MEM_CACHE_EXPIRES cfg) (MEM_CACHE_REFRESH cfg) _read_data now.
End Task.
End NameTask.

(** The module-level [get_names]: the names whose record is the identifier. *)
Definition get_names (records : gmap string (option ID)) (identifier : ID)
  : gset string :=
  dom (filter (λ kv, kv.2 = Some identifier) records).

Module AddressNameTable.
Section Table.
Context {R D : Type}.
Context (_redis : AddressNameCache.Interface R) (_dos : AddressNameStorage.Interface D).
Context (cfg : TaskConfig).

Definition _load_records (now : Z) : M (World AnsTask.Memory R D) AnsValue :=
  records <- AllTask.load _dos cfg now ;;
  ret (match records with None => RecordsValue ∅ | Some r => r end).

(** [all_records[name] = identifier] needs a dictionary: item assignment on
    a string or a set raises [TypeError].  The table calls [cache.update]
    with a life span only; the refresh margin is the class constant. *)
Definition save_record (name : string) (identifier : option ID) (now : Z)
  : M (World AnsTask.Memory R D) bool :=
  match identifier with
  | Some i => modify (with_mem (erase i))
  | None => ret tt
  end ;;
  all_records <- _load_records now ;;
  match all_records with
  | RecordsValue records =>
      let records := <[name := identifier]> records in
      modify (with_mem (update AllTask.ALL_KEY (Some (RecordsValue records))
                          (MEM_CACHE_EXPIRES cfg) (MEM_CACHE_REFRESH cfg) now)) ;;
      call_redis "save_record"
        (AddressNameCache.save_record _redis name (IdValue <$> identifier)) ;;
      call_dos "save_records" (AddressNameStorage.save_records _dos records)
  | _ => raise TypeError
  end.

Definition get_record (name : string) (now : Z)
  : M (World AnsTask.Memory R D) (option AnsValue) :=
  did <- IdTask.load _redis cfg name now ;;
  match did with
  | Some (IdValue i) => ret (Some (IdValue i))
  | _ =>
      all_records <- AllTask.load _dos cfg now ;;
      let did :=
        match all_records with
        | Some (RecordsValue records) =>
            match records !! name with
            | Some (Some i) => Some (IdValue i)
            | _ => None
            end
        | _ => did
        end in
      match did with
      | Some v =>
          call_redis "save_record" (AddressNameCache.save_record _redis name (Some v)) ;;
          ret tt
      | None => ret tt
      end ;;
      modify (with_mem (update name did
                          (MEM_CACHE_EXPIRES cfg) (MEM_CACHE_REFRESH cfg) now)) ;;
      ret did
  end.

Definition get_names (identifier : ID) (now : Z)
  : M (World AnsTask.Memory R D) (gset string) :=
  names <- NameTask.load _redis cfg identifier now ;;
  match names with
  | Some (NamesValue s) => ret s
  | _ =>
      all_records <- AllTask.load _dos cfg now ;;
      let names :=
        match all_records with
        | Some (RecordsValue records) => get_names records identifier
        | _ => ∅
        end in
      modify (with_mem (update identifier (Some (NamesValue names))
                          (MEM_CACHE_EXPIRES cfg) (MEM_CACHE_REFRESH cfg) now)) ;;
      ret names
  end.
End Table.
End AddressNameTable.

(** ** Reference sinks

    Concrete sinks used to run the tables on examples. *)

Module MemoryLoginCache.
(** Modelled from the spec: the presence records of the volatile sink
    ([libs.database.redis.LoginCache] is not part of the sources): the sink
    keeps the socket set mirrored for each identifier, drops an identifier
    whose set is removed, and reports the identifiers it holds as active. *)
Definition sink : LoginCache.Interface (gmap ID (gset SocketAddress)) :=
  {| LoginCache.get_active_users := λ r, (Some (dom r), r);
     LoginCache.clear_socket_addresses := λ _, (tt, ∅);
     LoginCache.save_socket_addresses := λ identifier addresses r,
       (tt, match addresses with
            | Some s => <[identifier := s]> r
            | None => delete identifier r
            end) |}.
End MemoryLoginCache.

Module MemoryUserSink.
Record State : Type := mkState {
  reachable : bool;
  contacts : gmap ID (list ID);
  contacts_command : gmap ID Command;
  block_command : gmap ID Command;
  mute_command : gmap ID Command
}.

Definition reads {A : Type} (field : State → gmap ID A) (identifier : ID) (s : State)
  : option A * State :=
  (if reachable s then field s !! identifier else None, s).

Definition writes (put : State → State) (s : State) : bool * State :=
  if reachable s then (true, put s) else (false, s).

(** Modelled from the spec: a sink of the user table ([UserCache] and
    [UserStorage] are not part of the sources) is a keyed store that answers
    absent, or refuses a write with [False], while it cannot be reached. *)
Definition sink : UserSink.Interface State :=
  {| UserSink.get_contacts := reads contacts;
     UserSink.save_contacts := λ v i, writes (λ s,
       mkState (reachable s) (<[i := v]> (contacts s)) (contacts_command s)
               (block_command s) (mute_command s));
     UserSink.get_contacts_command := reads contacts_command;
     UserSink.save_contacts_command := λ v i, writes (λ s,
       mkState (reachable s) (contacts s) (<[i := v]> (contacts_command s))
               (block_command s) (mute_command s));
     UserSink.get_block_command := reads block_command;
     UserSink.save_block_command := λ v i, writes (λ s,
       mkState (reachable s) (contacts s) (contacts_command s)
               (<[i := v]> (block_command s)) (mute_command s));
     UserSink.get_mute_command := reads mute_command;
     UserSink.save_mute_command := λ v i, writes (λ s,
       mkState (reachable s) (contacts s) (contacts_command s)
               (block_command s) (<[i := v]> (mute_command s))) |}.

Definition empty (up : bool) : State := mkState up ∅ ∅ ∅ ∅.
End MemoryUserSink.

Module MemoryDocumentSink.
Record State : Type := mkState {
  reachable : bool;
  documents : gmap ID (list Document)
}.

Definition load_documents (identifier : ID) (s : State) : option (list Document) * State :=
  (if reachable s then documents s !! identifier else None, s).

Definition save_documents (docs : list Document) (identifier : ID) (s : State)
  : bool * State :=
  if reachable s then (true, mkState true (<[identifier := docs]> (documents s)))
  else (false, s).

(** Modelled from the spec: the document services of the two sinks
    ([DocumentCache] and [DocumentStorage] are not part of the sources) are
    keyed stores that answer absent, or [False], while unreachable; the
    durable one can also list every document it holds. *)
Definition cache : DocumentCache.Interface State :=
  {| DocumentCache.load_documents := load_documents;
     DocumentCache.save_documents := save_documents |}.

Definition storage : DocumentStorage.Interface State :=
  {| DocumentStorage.load_documents := load_documents;
     DocumentStorage.save_documents := save_documents;
     DocumentStorage.scan_documents := λ s,
       (if reachable s then Some (concat (snd <$> map_to_list (documents s))) else None,
        s) |}.

Definition empty (up : bool) : State := mkState up ∅.
End MemoryDocumentSink.

Module MemoryDeviceSink.
(** Modelled from the spec: a device sink ([DeviceCache] and
    [DeviceStorage] are not part of the sources) as a keyed store that is
    always reachable; a device descriptor is kept as its printed form. *)
Definition sink : DeviceSink.Interface string (gmap ID (list string)) :=
  {| DeviceSink.get_devices := λ identifier s, (s !! identifier, s);
     DeviceSink.save_devices := λ devices identifier s,
       (true, <[identifier := devices]> s) |}.
End MemoryDeviceSink.

Module MemoryAnsSink.
(** Modelled from the spec: the name service of the volatile sink
    ([AddressNameCache] is not part of the sources) keeps one identifier per
    name and answers a reverse lookup from those records, absent when no
    name maps to the identifier. *)
Definition cache : AddressNameCache.Interface (gmap string ID) :=
  {| AddressNameCache.get_record := λ name r, (r !! name, r);
     AddressNameCache.get_names := λ identifier r,
       (let names := dom (filter (λ kv, kv.2 = identifier) r) in
        if bool_decide (names = ∅) then None else Some names, r);
     AddressNameCache.save_record := λ name v r,
       (true, match v with
              | Some (IdValue i) => <[name := i]> r
              | Some _ => r
              | None => delete name r
              end) |}.

Record Disk : Type := mkDisk {
  reachable : bool;
  records : option (gmap string (option ID))
}.

(** Modelled from the spec: the durable name registry
    ([AddressNameStorage] is not part of the sources) loads and saves the
    whole name-to-identifier dictionary as one unit, and answers absent, or
    [False], while it cannot be reached. *)
Definition storage : AddressNameStorage.Interface Disk :=
  {| AddressNameStorage.load_records := λ d,
       (if reachable d then records d else None, d);
     AddressNameStorage.save_records := λ r d,
       if reachable d then (true, mkDisk true (Some r)) else (false, d) |}.
End MemoryAnsSink.

Module ReferenceDocumentUtils.
(** An instance of the document helpers for running examples: the type of
    a document is its [type] entry, a document is expired against another
    when its time is strictly earlier, and the last document of a type is
    the latest one among those whose type is missing or equal to it. *)
Definition is_expired (this old : Document) : bool :=
  match Document.time old, Document.time this with
  | Some o, Some n => bool_decide (n < o)
  | _, _ => false
  end.

Definition matches (doc_type : option string) (item : Document) : bool :=
  match doc_type, Document.type item with
  | Some t, Some t' => bool_decide (t = t')
  | _, _ => true
  end.

Definition last_document (documents : list Document) (doc_type : option string)
  : option Document :=
  foldl (λ last item,
           if matches doc_type item then
             match last with
             | Some l => if is_expired item l then Some l else Some item
             | None => Some item
             end
           else last)
        None documents.

Definition utils : DocumentUtils.Interface :=
  {| DocumentUtils.get_document_type := Document.type;
     DocumentUtils.last_document := last_document;
     DocumentUtils.is_expired := is_expired |}.
End ReferenceDocumentUtils.

(** ** Predicates used in the statements *)

(** Every identifier of the socket dictionary has at least one address. *)
Definition sockets_nonempty {R : Type} (w : World ActiveMemory.Memory R unit) : Prop :=
  ∀ i s, ActiveMemory._socket_address (mem w) !! i = Some s → s ≠ ∅.

(** ** Example states *)

Module PresenceExample.
Import ActiveMemory ActiveTable.

Definition alice : ID := "alice".
Definition home : SocketAddress := ("10.0.0.1"%string, 9394).
Definition office : SocketAddress := ("10.0.0.2"%string, 9394).

(** A freshly constructed table over an empty presence sink. *)
Definition w0 : World Memory (gmap ID (gset SocketAddress)) unit :=
  mkWorld (__init__ ∅) ∅ tt [].

(** [alice] connects, the archivist asks for the active users at time 0,
    then [alice] disconnects. *)
Definition w1 := snd (add_socket_address MemoryLoginCache.sink alice home w0).
Definition w2 := snd (get_active_users MemoryLoginCache.sink 0 w1).
Definition w3 := snd (remove_socket_address MemoryLoginCache.sink alice home w2).
End PresenceExample.

(** The write cascade of a task: both sinks are written, the volatile one
    first, and the result is the disjunction of the two results. *)
Definition write_cascade {L R D V : Type} (_write_data : V → M (World L R D) bool)
    (redis_save : V → R → bool * R) (dos_save : V → D → bool * D)
    (method : string) : Prop :=
  ∀ (value : V) (w : World L R D),
    let ok1 := fst (redis_save value (redis w)) in
    let ok2 := fst (dos_save value (dos w)) in
    _write_data value w
    = (Return (ok1 || ok2),
       mkWorld (mem w) (snd (redis_save value (redis w))) (snd (dos_save value (dos w)))
               (trace w ++ [(Redis, method); (Dos, method)])) ∧
    (ok1 || ok2 = true ↔ ok1 = true ∨ ok2 = true).

(** The result of a task's [save] is the result of its write cascade, and
    both sinks have been written when it returns. *)
Definition save_cascade {L R D V : Type} (save : V → M (World L R D) bool)
    (redis_save : V → R → bool * R) (dos_save : V → D → bool * D)
    (method : string) : Prop :=
  ∀ (value : V) (w : World L R D),
    let ok1 := fst (redis_save value (redis w)) in
    let ok2 := fst (dos_save value (dos w)) in
    let w' := snd (save value w) in
    fst (save value w) = Return (ok1 || ok2) ∧
    redis w' = snd (redis_save value (redis w)) ∧
    dos w' = snd (dos_save value (dos w)) ∧
    trace w' = trace w ++ [(Redis, method); (Dos, method)].

(** What a list-valued task takes for absent: [None] or the empty list. *)
Definition no_items {A : Type} (x : option (list A)) : Prop :=
  x = None ∨ x = Some [].

(** What the other tasks take for absent: [None] only. *)
Definition is_None {A : Type} (x : option A) : Prop := x = None.

(** The read cascade of a task when the volatile sink has nothing: the
    durable sink is asked next; what it has is written back to the volatile
    sink and returned; when it has nothing either the result is absent. *)
Definition read_cascade {L R D V : Type} (_read_data : M (World L R D) (option V))
    (absent : option V → Prop)
    (redis_get : R → option V * R) (dos_get : D → option V * D)
    (redis_save : V → R → bool * R) (getter saver : string) : Prop :=
  ∀ w : World L R D,
    absent (fst (redis_get (redis w))) →
    let r1 := snd (redis_get (redis w)) in
    let found := fst (dos_get (dos w)) in
    let d1 := snd (dos_get (dos w)) in
    (∀ v, found = Some v → ¬ absent (Some v) →
       _read_data w
       = (Return (Some v),
          mkWorld (mem w) (snd (redis_save v r1)) d1
                  (trace w ++ [(Redis, getter); (Dos, getter); (Redis, saver)]))) ∧
    (absent found →
       _read_data w
       = (Return None,
          mkWorld (mem w) r1 d1 (trace w ++ [(Redis, getter); (Dos, getter)]))).

Module CascadeExample.
Definition alice : ID := "alice".
Definition bob : ID := "bob".

(** The volatile sink is empty; the durable sink holds the contacts of
    [alice]. *)
Definition contacts_on_disk
  : World UserMemory.Memory MemoryUserSink.State MemoryUserSink.State :=
  mkWorld (UserMemory.mkMemory ∅ ∅ ∅ ∅)
          (MemoryUserSink.empty true)
          (MemoryUserSink.mkState true {[alice := [bob]]} ∅ ∅ ∅)
          [].

Definition visa : Document :=
  Document.mk alice (Some "visa"%string) (Some 100) true "v1".

(** The volatile sink is empty; the durable sink holds a visa of [alice]. *)
Definition visa_on_disk
  : World DocTask.Memory MemoryDocumentSink.State MemoryDocumentSink.State :=
  mkWorld ∅ (MemoryDocumentSink.empty true)
          (MemoryDocumentSink.mkState true {[alice := [visa]]})
          [].
End CascadeExample.

Module CommandExample.
Definition alice : ID := "alice".
Definition bob : ID := "bob".
Definition carol : ID := "carol".

(** Values of the two class constants used when running examples. *)
Definition cfg : TaskConfig := mkTaskConfig 300 32.

(** A contacts (or block-list) command of [alice] sent at the given time. *)
Definition cmd (sent : Z) (list : list ID) : Command :=
  [("type", Str "command"); ("sn", Num 1); ("command", Str "contacts");
   ("time", Num sent); ("contacts", Arr list)]%string.

(** Nothing is stored yet. *)
Definition empty
  : World UserMemory.Memory MemoryUserSink.State MemoryUserSink.State :=
  mkWorld (UserMemory.mkMemory ∅ ∅ ∅ ∅)
          (MemoryUserSink.empty true) (MemoryUserSink.empty true) [].

(** Both sinks hold the command sent at time 100, as contacts command and
    as block command of [alice]; the pools are empty. *)
Definition stored100
  : World UserMemory.Memory MemoryUserSink.State MemoryUserSink.State :=
  let sink_state :=
    MemoryUserSink.mkState true ∅ {[alice := cmd 100 [bob]]}
                           {[alice := cmd 100 [bob]]} ∅ in
  mkWorld (UserMemory.mkMemory ∅ ∅ ∅ ∅) sink_state sink_state [].
End CommandExample.

(** Whether a checker's outcome makes the caller take its [if] branch. *)
Definition truthy_result (r : Exc (option bool)) : bool :=
  match r with
  | Return b => truthy b
  | Raise _ => false
  end.

(** The state in which [save_record] loads the records: the pool entry of
    the identifier written, if there is one, has been erased. *)
Definition erased {R D : Type} (identifier : option ID) (w : World AnsTask.Memory R D)
  : World AnsTask.Memory R D :=
  match identifier with
  | Some i => with_mem (erase i) w
  | None => w
  end.

Module RegistryExample.
Import AddressNameTable.

Definition alice : string := "alice".
Definition idA : ID := "alice@2PpB6iscuBjA15oTjAsiswoX9qis5V3c1Dq".
Definition idB : ID := "alice@4WBSiDzg9cpZGPqFrQ4bHcq4U5z9QAQLHS".
Definition cfg : TaskConfig := mkTaskConfig 300 32.

(** A table with an empty pool over empty sinks; the durable one may be
    out of reach. *)
Definition start (disk_up : bool) : World AnsTask.Memory (gmap string ID) MemoryAnsSink.Disk :=
  mkWorld ∅ ∅ (MemoryAnsSink.mkDisk disk_up None) [].

(** [alice] is registered for [idA] at time 0, both lookups are made at
    time 1, and [alice] is reassigned to [idB] at time 2. *)
Definition w1 := snd (save_record MemoryAnsSink.cache MemoryAnsSink.storage cfg
  alice (Some idA) 0 (start true)).
Definition w2 := snd (get_names MemoryAnsSink.cache MemoryAnsSink.storage cfg idA 1 w1).
Definition w3 := snd (get_record MemoryAnsSink.cache MemoryAnsSink.storage cfg alice 1 w2).
Definition w4 := snd (save_record MemoryAnsSink.cache MemoryAnsSink.storage cfg
  alice (Some idB) 2 w3).
End RegistryExample.

(** The stored document an incoming one is compared with: the last one of
    its type or, for a visa without such a document, the last profile. *)
Definition comparable (utils : DocumentUtils.Interface) (my_documents : list Document)
    (document old : Document) : Prop :=
  let doc_type := DocumentUtils.get_document_type utils document in
  DocumentUtils.last_document utils my_documents doc_type = Some old ∨
  (DocumentUtils.last_document utils my_documents doc_type = None ∧
   doc_type = Some DocumentType.VISA ∧
   DocumentUtils.last_document utils my_documents (Some "profile"%string) = Some old).

(** The pool after the in-place changes of an accepted [save_document]. *)
Definition appended (document : Document) (docs' : list Document) (now : Z)
    (pool : Pool (list Document)) : Pool (list Document) :=
  let pool := mutate (Document.identifier document) (λ _, docs') pool in
  match fst (fetch ScanTask.ALL_KEY now pool) with
  | Some _ => mutate ScanTask.ALL_KEY (λ all, all ++ [document]) pool
  | None => pool
  end.

Module DocumentExample.
Definition alice : ID := "alice@2PpB6iscuBjA15oTjAsiswoX9qis5V3c1Dq".
Definition cfg : TaskConfig := mkTaskConfig 300 32.

Definition visa (sent : Z) (body : string) : Document :=
  Document.mk alice (Some DocumentType.VISA) (Some sent) true body.

(** The durable sink holds the visa of [alice] issued at time 100; the
    search engine has scanned all documents at time 0 and [alice]'s
    documents have been read at time 0. *)
Definition start
  : World DocTask.Memory MemoryDocumentSink.State MemoryDocumentSink.State :=
  mkWorld ∅ (MemoryDocumentSink.empty true)
          (MemoryDocumentSink.mkState true {[alice := [visa 100 "v100"]]}) [].

Definition w1 :=
  snd (DocumentTable.scan_documents MemoryDocumentSink.storage 0 start).
Definition w2 :=
  snd (DocumentTable.get_documents MemoryDocumentSink.cache MemoryDocumentSink.storage
         cfg alice 0 w1).
End DocumentExample.

(** The outcome of a coroutine, mapped through a function. *)
#[global] Instance Exc_fmap : FMap Exc :=
  λ A B f x, match x with
             | Return a => Return (f a)
             | Raise e => Raise e
             end.

(** A write that went through a task's [save] from the state [w]: both
    sinks were written once, in this order, and the result is the
    disjunction of their answers. *)
Definition written_to_sinks {L R D V : Type} (run : Exc bool * World L R D)
    (w : World L R D) (redis_save : V → R → bool * R) (dos_save : V → D → bool * D)
    (method : string) (value : V) : Prop :=
  fst run = Return (fst (redis_save value (redis w)) || fst (dos_save value (dos w))) ∧
  redis (snd run) = snd (redis_save value (redis w)) ∧
  dos (snd run) = snd (dos_save value (dos w)) ∧
  trace (snd run) = trace w ++ [(Redis, method); (Dos, method)].

(** A command without a time, or with a time that is not positive. *)
Definition untimed (content : Command) : Prop :=
  time content = None ∨ ∃ t, time content = Some t ∧ t ≤ 0.

(** The read cascade of a task when the volatile sink has the value: it is
    returned after that single call, and the durable sink is not asked. *)
Definition read_hit {L R D V : Type} (_read_data : M (World L R D) (option V))
    (present : V → Prop) (redis_get : R → option V * R) (getter : string) : Prop :=
  ∀ (w : World L R D) (v : V),
    fst (redis_get (redis w)) = Some v → present v →
    _read_data w
    = (Return (Some v),
       mkWorld (mem w) (snd (redis_get (redis w))) (dos w) (trace w ++ [(Redis, getter)])).

Module LegacyCommandExample.
(** A contacts command of an old client: it carries no time. *)
Definition legacy : Command :=
  [("type", Str "command"); ("command", Str "contacts");
   ("contacts", Arr [CommandExample.bob])]%string.
End LegacyCommandExample.

(** ** Devices: the table ([t_device.py]) *)

Module DeviceTable.
Section Table.
Context {DeviceInfo R D : Type}.
Context (_redis : DeviceSink.Interface DeviceInfo R).
Context (_dos : DeviceSink.Interface DeviceInfo D).
Context (cfg : TaskConfig).

(** [insert_device] of [libs/database/dos/device.py] is not part of the
    sources; the table is parameterised by it, as a function from the device
    and the stored list to the merged list, or [None]. *)
Context (insert_device : DeviceInfo → list DeviceInfo → option (list DeviceInfo)).

Definition get_devices (identifier : ID) (now : Z)
  : M (World (Pool (list DeviceInfo)) R D) (option (list DeviceInfo)) :=
  DevTask.load _redis _dos cfg identifier now.

Definition save_devices (devices : list DeviceInfo) (identifier : ID) (now : Z)
  : M (World (Pool (list DeviceInfo)) R D) bool :=
  DevTask.save _redis _dos cfg identifier now devices.

Definition add_device (device : DeviceInfo) (identifier : ID) (now : Z)
  : M (World (Pool (list DeviceInfo)) R D) bool :=
  array <- get_devices identifier now ;;
  match array with
  | None => save_devices [device] identifier now
  | Some array =>
      match insert_device device array with
      | None => ret false
      | Some array => save_devices array identifier now
      end
  end.
End Table.
End DeviceTable.

(** ** Neighbour stations ([station/shared.py]) *)

Module Neighbors.
(** The stations of the session database and the neighbours of the
    configuration are objects of which [refresh_neighbors] reads the
    attributes [host] and [port] only. *)
Class HasAddress (T : Type) : Type := {
  host : T → string;
  port : T → Z
}.

(** The calls made on the session database. *)
Inductive Call : Type :=
| AllStations
| RemoveStation (host : string) (port : Z)
| AddStation (host : string) (port : Z).

(** The station methods of the session database ([dimples.SessionDBI],
    outside the sources), over an opaque state; the provider is the constant
    [ProviderInfo.GSP] in every call, and [add_station] is called with no
    identifier. *)
Record Interface (S Info : Type) : Type := {
  all_stations : S → list Info * S;
  remove_station : string → Z → S → bool * S;
  add_station : string → Z → S → bool * S
}.
Arguments all_stations {S Info} i.
Arguments remove_station {S Info} i.
Arguments add_station {S Info} i.

(** The inner loops: [found] is set, and the loop left, at the first item
    with the same port and host. *)
Fixpoint found_among {A B : Type} `{HasAddress A, HasAddress B}
    (target : A) (items : list B) : bool :=
  match items with
  | [] => false
  | item :: items =>
      if bool_decide (port item = port target) && bool_decide (host item = host target)
      then true
      else found_among target items
  end.

Section Refresh.
Context {S Info Node : Type} `{HasAddress Info, HasAddress Node}.
Context (database : Interface S Info).

(** The state: the database, and the ghost list of the calls made. *)
Definition State : Type := S * list Call.

Definition await {A : Type} (call : Call) (op : S → A * S) : M State A :=
  λ st, (Return (fst (op (fst st))), (snd (op (fst st)), snd st ++ [call])).

Fixpoint for_each {A : Type} (items : list A) (body : A → M State unit) : M State unit :=
  match items with
  | [] => ret tt
  | item :: items => body item ;; for_each items body
  end.

Definition refresh_neighbors (neighbors : list Node) : M State (list Node) :=
  (if bool_decide (0 < length neighbors)%nat then
     old_stations <- await AllStations (all_stations database) ;;
     for_each old_stations (λ old,
       if negb (found_among old neighbors) then
         await (RemoveStation (host old) (port old))
               (remove_station database (host old) (port old)) ;;
         ret tt
       else ret tt) ;;
     for_each neighbors (λ node,
       if found_among node old_stations then ret tt
       else
         await (AddStation (host node) (port node))
               (add_station database (host node) (port node)) ;;
         ret tt)
   else ret tt) ;;
  ret neighbors.
End Refresh.
End Neighbors.

(** ** Choice of the configuration file ([station/shared.py]) *)

Module CreateConfig.
(** How [create_config] ends: with the loaded configuration, or by calling
    [sys.exit] with a status. *)
Inductive Outcome (A : Type) : Type :=
| Loaded (config : A)
| Exit (status : Z).
Arguments Loaded {A} config.
Arguments Exit {A} status.

(** The loop over the parsed options: [--config] sets the file, any other
    option shows the help and exits with status 0. *)
Fixpoint check_options (opts : list (string * string)) (ini_file : option string)
  : Outcome (option string) :=
  match opts with
  | [] => Loaded ini_file
  | (opt, arg) :: opts =>
      if bool_decide (opt = "--config"%string) then check_options opts (Some arg)
      else Exit 0
  end.

Section CreateConfig.
Context {Config : Type}.

(** [getopt.getopt] (its answer is the parsed options, or [None] for a
    [GetoptError]), [Path.exists] and [Config.load] are outside the sources
    and are taken as given. *)
Context (getopt : list string → option (list (string * string))).
Context (exists_ : string → bool) (load_config : string → Config).

Definition create_config (argv : list string) (default_config : string)
  : Outcome Config :=
  match getopt (tail argv) with
  | None => Exit 1
  | Some opts =>
      match check_options opts None with
      | Exit status => Exit status
      | Loaded ini_file =>
          let ini_file := match ini_file with
                          | None => default_config
                          | Some f => f
                          end in
          if negb (exists_ ini_file) then Exit 0
          else Loaded (load_config ini_file)
      end
  end.
End CreateConfig.
End CreateConfig.

(** ** The storage command processor ([libs/client/cpu/storage.py]) *)

Module StorageCommandProcessor.
(** What [process_content] answers with: a receipt, given by its text and
    its template, or a stored command sent back as it is. *)
Inductive Response : Type :=
| Receipt (text template : string)
| Stored (command : Command).

Section Processor.
Context {R D : Type}.
Context (_redis : UserSink.Interface R) (_dos : UserSink.Interface D).
Context (cfg : TaskConfig) (is_before : option Z → option Z → bool).

(** [StorageCommand] of [libs/common/protocol] is not part of the sources:
    its [title] and [data] properties and its constant [CONTACTS] are taken
    as given. *)
Context (title : Command → string) (data : Command → option string).
Context (CONTACTS : string).

(** Modelled from the spec: the database facade ([libs.database.Database],
    not part of the sources) forwards [get_contacts_command] and
    [save_contacts_command] to the user table. *)
Definition db_get_contacts_command :=
  UserTable.get_contacts_command _redis _dos cfg.
Definition db_save_contacts_command :=
  UserTable.save_contacts_command _redis _dos cfg is_before.

Definition process_content (content : Command) (sender : ID) (now : Z)
  : M (World UserMemory.Memory R D) (list Response) :=
  if bool_decide (title content = CONTACTS) then
    if bool_decide (data content = None) && bool_decide (get "contacts" content = None)
    then
      stored <- db_get_contacts_command sender now ;;
      match stored with
      | None =>
          ret [Receipt "Contacts not found." "Contacts not found: ${did}."]
      | Some stored => ret [Stored stored]
      end
    else
      saved <- db_save_contacts_command content sender now ;;
      if saved then
        ret [Receipt "Contacts received." "Contacts received: ${did}."]
      else
        ret [Receipt "Contacts not changed." "Contacts not changed: ${did}."]
  else
    ret [Receipt "Command not support."
                 "Storage command (title: ${title}) not support yet!"].
End Processor.
End StorageCommandProcessor.

(** ** More predicates used in the statements *)

(** No stored document to compare an incoming one with. *)
Definition no_comparable (utils : DocumentUtils.Interface) (my_documents : list Document)
    (document : Document) : Prop :=
  let doc_type := DocumentUtils.get_document_type utils document in
  DocumentUtils.last_document utils my_documents doc_type = None ∧
  (doc_type = Some DocumentType.VISA →
   DocumentUtils.last_document utils my_documents (Some "profile"%string) = None).

(** The address of a station or of a neighbour, and what it is for an
    address to be among those of a list. *)
Definition address {T : Type} `{Neighbors.HasAddress T} (x : T) : string * Z :=
  (Neighbors.host x, Neighbors.port x).

Definition listed {A B : Type} `{Neighbors.HasAddress A, Neighbors.HasAddress B}
    (target : A) (items : list B) : Prop :=
  address target ∈ address <$> items.

#[global] Instance listed_dec {A B : Type} `{Neighbors.HasAddress A, Neighbors.HasAddress B}
    (target : A) (items : list B) : Decision (listed target items).
Proof. unfold listed. apply _. Defined.

(** A coroutine that awaits no sink method outside a list of allowed ones:
    whatever the state it starts from, the calls it adds to the trace are
    among the allowed ones. *)
Definition only_calls {L R D A : Type} (allowed : list Call) (m : M (World L R D) A)
  : Prop :=
  ∀ w, ∃ calls, trace (snd (m w)) = trace w ++ calls ∧ calls ⊆ allowed.

(** * Verified properties *)

(** ** Cache Pool and Task lemmas *)

#[global] Arguments fetch : simpl never.
#[global] Arguments update : simpl never.
#[global] Arguments erase : simpl never.
#[global] Arguments mutate : simpl never.

(** Unfolds the plumbing of a coroutine so that its steps compute. *)
Ltac py_unfold :=
  unfold store;
  unfold bind, ret, gets, modify, raise, lift, call_redis, call_dos, with_mem;
  cbn.

Section PoolFacts.
Context {V : Type}.
Implicit Types (pool : Pool V) (key : string) (v : option V).

Lemma fetch_update_eq pool key v life_span margin now now' :
  now' ≤ now + (life_span - margin) → 0 ≤ margin →
  fetch key now' (update key v life_span margin now pool) = (v, false).
Proof.
  intros Hfresh Hmargin. unfold fetch, update.
  rewrite lookup_insert_eq. cbn.
  rewrite !bool_decide_eq_false_2 by lia. done.
Qed.

Lemma fetch_update_ne pool key key' v life_span margin now now' :
  key ≠ key' →
  fetch key' now' (update key v life_span margin now pool) = fetch key' now' pool.
Proof. intros Hne. unfold fetch, update. by rewrite lookup_insert_ne. Qed.

Lemma fetch_erase_eq pool key now : fetch key now (erase key pool) = (None, false).
Proof. unfold fetch, erase. by rewrite lookup_delete_eq. Qed.

Lemma fetch_erase_ne pool key key' now :
  key ≠ key' → fetch key' now (erase key pool) = fetch key' now pool.
Proof. intros Hne. unfold fetch, erase. by rewrite lookup_delete_ne. Qed.

Lemma fetch_None pool key now : pool !! key = None → fetch key now pool = (None, false).
Proof. intros H. unfold fetch. by rewrite H. Qed.

Lemma fetch_mutate_eq pool key (f : V → V) now :
  fetch key now (mutate key f pool)
  = (f <$> fst (fetch key now pool), snd (fetch key now pool)).
Proof.
  unfold fetch, mutate. rewrite lookup_alter_eq.
  destruct (pool !! key) as [e|]; cbn; [|done].
  by repeat case_bool_decide.
Qed.

Lemma fetch_mutate_ne pool key key' (f : V → V) now :
  key ≠ key' → fetch key' now (mutate key f pool) = fetch key' now pool.
Proof. intros Hne. unfold fetch, mutate. by rewrite lookup_alter_ne. Qed.
End PoolFacts.

Section TaskFacts.
Context {W V : Type}.
Context (pool_of : W → Pool V) (set_pool : Pool V → W → W).
Context (cache_key : string) (cache_expires cache_refresh : Z).
Context (_read_data : M W (option V)).

Lemma load_fresh now w v :
  fetch cache_key now (pool_of w) = (Some v, false) →
  load pool_of set_pool cache_key cache_expires cache_refresh _read_data now w
  = (Return (Some v), w).
Proof. intros H. unfold load, bind, gets. cbn. by rewrite H. Qed.

Lemma load_miss now w b :
  fetch cache_key now (pool_of w) = (None, b) →
  load pool_of set_pool cache_key cache_expires cache_refresh _read_data now w
  = (found <- _read_data ;;
     store pool_of set_pool cache_key cache_expires cache_refresh now found ;;
     ret found) w.
Proof. intros H. unfold load at 1, bind at 1, gets. cbn. by rewrite H. Qed.
End TaskFacts.

(** ** Presence table *)

Section ActiveFacts.
Import ActiveMemory ActiveTable.
Context {R : Type} (sink : LoginCache.Interface R).
Implicit Types (w : World Memory R unit) (i : ID) (a : SocketAddress).

Lemma add_socket_address_map w i a :
  _socket_address (mem (snd (add_socket_address sink i a w)))
  = <[i := default ∅ (_socket_address (mem w) !! i) ∪ {[a]}]> (_socket_address (mem w)).
Proof.
  unfold add_socket_address. py_unfold.
  by destruct (_socket_address (mem w) !! i).
Qed.

Lemma remove_socket_address_map w i a :
  _socket_address (mem (snd (remove_socket_address sink i a w)))
  = match _socket_address (mem w) !! i with
    | Some s => if bool_decide (size (s ∖ {[a]}) = 0%nat)
                then delete i (_socket_address (mem w))
                else <[i := s ∖ {[a]}]> (_socket_address (mem w))
    | None => _socket_address (mem w)
    end.
Proof.
  unfold remove_socket_address. py_unfold.
  destruct (_socket_address (mem w) !! i) as [s|]; cbn; [|done].
  by destruct (bool_decide (size (s ∖ {[a]}) = 0%nat)).
Qed.

Lemma step_sockets_nonempty op w :
  sockets_nonempty w → sockets_nonempty (step sink op w).
Proof.
  intros Hinv j s. destruct op as [i a|i a]; unfold step.
  - rewrite add_socket_address_map. rewrite lookup_insert.
    case_decide; [|by apply Hinv].
    intros [= <-]. set_solver.
  - rewrite remove_socket_address_map.
    destruct (_socket_address (mem w) !! i) as [s'|] eqn:Hi; [|by apply Hinv].
    case_bool_decide as Hsz.
    + rewrite lookup_delete. case_decide; [done|by apply Hinv].
    + rewrite lookup_insert. case_decide; [|by apply Hinv].
      intros [= <-] Hempty. apply Hsz. rewrite Hempty. apply size_empty.
Qed.

Lemma run_sockets_nonempty ops w :
  sockets_nonempty w → sockets_nonempty (run sink ops w).
Proof.
  revert w. induction ops as [|op ops IH]; intros w Hinv; [done|].
  cbn. apply IH. by apply step_sockets_nonempty.
Qed.

Lemma init_sockets_nonempty pool (r0 : R) :
  sockets_nonempty (mkWorld (__init__ pool) r0 tt []).
Proof. intros i s. cbn. by rewrite lookup_empty. Qed.
End ActiveFacts.

(** C9: in every state reached from a freshly constructed table by
    [add_socket_address] and [remove_socket_address] calls, each identifier
    in the socket dictionary has a non-empty socket set; adding creates the
    set when needed and inserts the address (two distinct addresses give a
    set of size 2), and removing the last address of an identifier removes
    the identifier's entry. *)
Theorem socket_address_map_invariant {R : Type} (sink : LoginCache.Interface R)
    (pool : Pool (gset ID)) (r0 : R) (ops : list ActiveTable.Op) :
  let w := ActiveTable.run sink ops (mkWorld (ActiveTable.__init__ pool) r0 tt []) in
  let sockets_of w' := ActiveMemory._socket_address (mem w') in
  (∀ i s, sockets_of w !! i = Some s → s ≠ ∅) ∧
  (∀ i a, sockets_of (ActiveTable.step sink (ActiveTable.Add i a) w) !! i
          = Some (default ∅ (sockets_of w !! i) ∪ {[a]})) ∧
  (∀ i a1 a2, sockets_of w !! i = None → a1 ≠ a2 →
     ∃ s, sockets_of (ActiveTable.run sink [ActiveTable.Add i a1; ActiveTable.Add i a2] w) !! i
          = Some s ∧ size s = 2%nat) ∧
  (∀ i a, sockets_of w !! i = Some {[a]} →
     sockets_of (ActiveTable.step sink (ActiveTable.Remove i a) w) !! i = None ∧
     fst (ActiveTable.remove_socket_address sink i a w) = Return None).
Proof.
  intros w sockets_of. subst sockets_of. cbn beta.
  split; [|split; [|split]].
  - apply run_sockets_nonempty, init_sockets_nonempty.
  - intros i a. unfold ActiveTable.step.
    rewrite add_socket_address_map. by rewrite lookup_insert_eq.
  - intros i a1 a2 Hnone Hne. unfold ActiveTable.run, ActiveTable.step. cbn [foldl].
    rewrite !add_socket_address_map, !lookup_insert_eq, Hnone. cbn.
    eexists; split; [done|].
    rewrite (left_id_L ∅ (∪)).
    rewrite size_union, !size_singleton; [done|].
    by apply disjoint_singleton_l, not_elem_of_singleton.
  - intros i a Hsome. unfold ActiveTable.step. split.
    + rewrite remove_socket_address_map, Hsome.
      rewrite bool_decide_eq_true_2; [by rewrite lookup_delete_eq|].
      rewrite difference_diag_L. apply size_empty.
    + unfold ActiveTable.remove_socket_address. py_unfold. rewrite Hsome.
      rewrite bool_decide_eq_true_2.
      * done.
      * rewrite difference_diag_L. apply size_empty.
Qed.

(** The invariant on the reference presence sink: two connections of
    [alice], and the removal of her only connection. *)
Lemma socket_address_map_invariant_witness :
  let sink := MemoryLoginCache.sink in
  let w := PresenceExample.w0 in
  let sockets_of w' := ActiveMemory._socket_address (mem w') in
  (∃ s, sockets_of (ActiveTable.run sink
          [ActiveTable.Add PresenceExample.alice PresenceExample.home;
           ActiveTable.Add PresenceExample.alice PresenceExample.office] w)
          !! PresenceExample.alice = Some s ∧ size s = 2%nat) ∧
  sockets_of (ActiveTable.step sink
     (ActiveTable.Remove PresenceExample.alice PresenceExample.home) PresenceExample.w1)
     !! PresenceExample.alice = None.
Proof.
  split.
  - apply (socket_address_map_invariant MemoryLoginCache.sink ∅ ∅ []).
    + reflexivity.
    + discriminate.
  - apply (socket_address_map_invariant MemoryLoginCache.sink ∅ ∅
             [ActiveTable.Add PresenceExample.alice PresenceExample.home]).
    vm_compute. reflexivity.
Defined.

Section ActiveReads.
Import ActiveMemory ActiveTable.
Context {R : Type} (sink : LoginCache.Interface R).
Implicit Types (w : World Memory R unit).

Lemma get_active_users_fresh now w s :
  fetch ActTask.cache_key now (cache (mem w)) = (Some s, false) →
  get_active_users sink now w = (Return s, w).
Proof.
  intros H. unfold get_active_users, bind, ActTask.load.
  by rewrite (load_fresh _ _ _ _ _ _ now w s H).
Qed.

Lemma get_active_users_miss now w b :
  fetch ActTask.cache_key now (cache (mem w)) = (None, b) →
  let answer := LoginCache.get_active_users sink (redis w) in
  let w' := snd (get_active_users sink now w) in
  fst (get_active_users sink now w) = Return (default ∅ (fst answer)) ∧
  redis w' = snd answer ∧
  trace w' = trace w ++ [(Redis, "get_active_users"%string)] ∧
  _socket_address (mem w') = _socket_address (mem w).
Proof.
  intros H. cbn zeta.
  unfold get_active_users, ActTask.load, load, ActTask._read_data. py_unfold.
  rewrite H.
  destruct (LoginCache.get_active_users sink (redis w)) as [[s|] r']; cbn; [|done].
  case_bool_decide as Hsz; cbn; [|done].
  apply size_empty_inv in Hsz. apply leibniz_equiv in Hsz. by subst.
Qed.

Lemma get_active_users_ignores_sockets now w d :
  fst (get_active_users sink now (with_mem (set_socket_address d) w))
  = fst (get_active_users sink now w).
Proof.
  unfold get_active_users, ActTask.load, load, ActTask._read_data. py_unfold.
  destruct (fetch ActTask.cache_key now (cache (mem w))) as [[s|] [|]]; cbn; try done.
  all: destruct (LoginCache.get_active_users sink (redis w)) as [[s'|] r']; cbn; try done.
  all: by case_bool_decide.
Qed.
End ActiveReads.

(** C7, as stated, fails: after [alice] disconnects, the volatile sink holds
    no presence record, yet a call one second after the previous one still
    answers with the cached set. *)
Lemma get_active_users_cached_counterexample :
  let sink := MemoryLoginCache.sink in
  fst (LoginCache.get_active_users sink (redis PresenceExample.w3)) = Some ∅ ∧
  fst (ActiveTable.get_active_users sink 1 PresenceExample.w3)
  = Return {[PresenceExample.alice]} ∧
  fst (ActiveTable.get_active_users sink 1 PresenceExample.w3)
  ≠ Return (default ∅ (fst (LoginCache.get_active_users sink (redis PresenceExample.w3)))).
Proof.
  cbn zeta. split; [|split].
  - vm_compute. reflexivity.
  - vm_compute. reflexivity.
  - vm_compute. intros H. inversion H.
Qed.

(** C7, amended: [get_active_users] never reads the socket dictionary of the
    process; when the pool has no usable [active_users] entry it asks the
    volatile sink once and answers with the sink's current set (absent or
    empty gives the empty set); while an entry is fresh it answers with the
    cached set and makes no sink call. *)
Theorem get_active_users_sources {R : Type} (sink : LoginCache.Interface R)
    (now : Z) (w : World ActiveMemory.Memory R unit) :
  (∀ d, fst (ActiveTable.get_active_users sink now
               (with_mem (ActiveMemory.set_socket_address d) w))
        = fst (ActiveTable.get_active_users sink now w)) ∧
  (∀ b, fetch ActTask.cache_key now (ActiveMemory.cache (mem w)) = (None, b) →
     let answer := LoginCache.get_active_users sink (redis w) in
     let w' := snd (ActiveTable.get_active_users sink now w) in
     fst (ActiveTable.get_active_users sink now w) = Return (default ∅ (fst answer)) ∧
     redis w' = snd answer ∧
     trace w' = trace w ++ [(Redis, "get_active_users"%string)]) ∧
  (∀ s, fetch ActTask.cache_key now (ActiveMemory.cache (mem w)) = (Some s, false) →
     ActiveTable.get_active_users sink now w = (Return s, w)).
Proof.
  split; [|split].
  - intros d. apply get_active_users_ignores_sockets.
  - intros b H. destruct (get_active_users_miss sink now w b H) as (H1 & H2 & H3 & _).
    done.
  - intros s. apply get_active_users_fresh.
Qed.

(** On the reference presence sink: the first call asks the sink, the
    next one is answered from the pool. *)
Lemma get_active_users_sources_witness :
  let sink := MemoryLoginCache.sink in
  fst (ActiveTable.get_active_users sink 0 PresenceExample.w1)
  = Return {[PresenceExample.alice]} ∧
  ActiveTable.get_active_users sink 1 PresenceExample.w2
  = (Return {[PresenceExample.alice]}, PresenceExample.w2).
Proof.
  split.
  - destruct (get_active_users_sources MemoryLoginCache.sink 0 PresenceExample.w1)
      as (_ & Hmiss & _).
    destruct (Hmiss false) as (Hres & _); [vm_compute; reflexivity|].
    rewrite Hres. vm_compute. reflexivity.
  - destruct (get_active_users_sources MemoryLoginCache.sink 1 PresenceExample.w2)
      as (_ & _ & Hfresh).
    apply Hfresh. vm_compute. reflexivity.
Defined.

(** C8: [clear_socket_addresses] erases the cached [active_users] entry
    and has the volatile sink clear its presence records, in one sink call,
    and leaves the socket dictionary of the process as it is.
    [create_database] calls it exactly once, on the freshly constructed
    table, before the database is handed to the station: the socket
    dictionary is empty, the cached entry is gone and the sink has been
    cleared. *)
Theorem clear_socket_addresses_effect {R : Type} (sink : LoginCache.Interface R) :
  (∀ w : World ActiveMemory.Memory R unit,
     ActiveTable.clear_socket_addresses sink w
     = (Return tt,
        mkWorld (ActiveMemory.mkMemory
                   (delete "active_users"%string (ActiveMemory.cache (mem w)))
                   (ActiveMemory._socket_address (mem w)))
                (snd (LoginCache.clear_socket_addresses sink (redis w)))
                (dos w)
                (trace w ++ [(Redis, "clear_socket_addresses"%string)]))) ∧
  (∀ pool r0,
     ActiveTable.create_database sink pool r0
     = (Return tt,
        mkWorld (ActiveMemory.mkMemory (delete "active_users"%string pool) ∅)
                (snd (LoginCache.clear_socket_addresses sink r0))
                tt
                [(Redis, "clear_socket_addresses"%string)])).
Proof.
  assert (Hclear : ∀ w : World ActiveMemory.Memory R unit,
     ActiveTable.clear_socket_addresses sink w
     = (Return tt,
        mkWorld (ActiveMemory.mkMemory
                   (delete "active_users"%string (ActiveMemory.cache (mem w)))
                   (ActiveMemory._socket_address (mem w)))
                (snd (LoginCache.clear_socket_addresses sink (redis w)))
                (dos w)
                (trace w ++ [(Redis, "clear_socket_addresses"%string)]))).
  { intros w. unfold ActiveTable.clear_socket_addresses. py_unfold.
    by destruct (LoginCache.clear_socket_addresses sink (redis w)) as [[] r']. }
  split; [exact Hclear|].
  intros pool r0. unfold ActiveTable.create_database. by rewrite Hclear.
Qed.

(** ** Write and read cascades of the tasks *)

Ltac solve_write_cascade :=
  intros value w; cbn zeta; py_unfold;
  rewrite <- ?app_assoc; split; [done | apply orb_true_iff].

Ltac solve_save_cascade :=
  intros value w; cbn zeta; unfold save; py_unfold;
  rewrite <- ?app_assoc; done.

Section CascadeFacts.
Context {R D : Type}.

Lemma UsrTask_write_cascade (r : UserSink.Interface R) (d : UserSink.Interface D) user :
  write_cascade (UsrTask._write_data r d user)
    (λ v, UserSink.save_contacts r v user) (λ v, UserSink.save_contacts d v user)
    "save_contacts".
Proof. unfold UsrTask._write_data. solve_write_cascade. Qed.

Lemma ConTask_write_cascade (r : UserSink.Interface R) (d : UserSink.Interface D) user :
  write_cascade (ConTask._write_data r d user)
    (λ v, UserSink.save_contacts_command r v user)
    (λ v, UserSink.save_contacts_command d v user)
    "save_contacts_command".
Proof. unfold ConTask._write_data. solve_write_cascade. Qed.

Lemma BloTask_write_cascade (r : UserSink.Interface R) (d : UserSink.Interface D) user :
  write_cascade (BloTask._write_data r d user)
    (λ v, UserSink.save_block_command r v user)
    (λ v, UserSink.save_block_command d v user)
    "save_block_command".
Proof. unfold BloTask._write_data. solve_write_cascade. Qed.

Lemma MutTask_write_cascade (r : UserSink.Interface R) (d : UserSink.Interface D) user :
  write_cascade (MutTask._write_data r d user)
    (λ v, UserSink.save_mute_command r v user)
    (λ v, UserSink.save_mute_command d v user)
    "save_mute_command".
Proof. unfold MutTask._write_data. solve_write_cascade. Qed.

Lemma DocTask_write_cascade (r : DocumentCache.Interface R)
    (d : DocumentStorage.Interface D) identifier :
  write_cascade (DocTask._write_data r d identifier)
    (λ v, DocumentCache.save_documents r v identifier)
    (λ v, DocumentStorage.save_documents d v identifier)
    "save_documents".
Proof. unfold DocTask._write_data. solve_write_cascade. Qed.

Lemma DevTask_write_cascade {Info : Type} (r : DeviceSink.Interface Info R)
    (d : DeviceSink.Interface Info D) identifier :
  write_cascade (DevTask._write_data r d identifier)
    (λ v, DeviceSink.save_devices r v identifier)
    (λ v, DeviceSink.save_devices d v identifier)
    "save_devices".
Proof. unfold DevTask._write_data. solve_write_cascade. Qed.

Lemma UsrTask_save_cascade (r : UserSink.Interface R) (d : UserSink.Interface D)
    cfg user now :
  save_cascade (UsrTask.save r d cfg user now)
    (λ v, UserSink.save_contacts r v user) (λ v, UserSink.save_contacts d v user)
    "save_contacts".
Proof. unfold UsrTask.save, UsrTask._write_data. solve_save_cascade. Qed.

Lemma ConTask_save_cascade (r : UserSink.Interface R) (d : UserSink.Interface D)
    cfg user now :
  save_cascade (ConTask.save r d cfg user now)
    (λ v, UserSink.save_contacts_command r v user)
    (λ v, UserSink.save_contacts_command d v user)
    "save_contacts_command".
Proof. unfold ConTask.save, ConTask._write_data. solve_save_cascade. Qed.

Lemma BloTask_save_cascade (r : UserSink.Interface R) (d : UserSink.Interface D)
    cfg user now :
  save_cascade (BloTask.save r d cfg user now)
    (λ v, UserSink.save_block_command r v user)
    (λ v, UserSink.save_block_command d v user)
    "save_block_command".
Proof. unfold BloTask.save, BloTask._write_data. solve_save_cascade. Qed.

Lemma MutTask_save_cascade (r : UserSink.Interface R) (d : UserSink.Interface D)
    cfg user now :
  save_cascade (MutTask.save r d cfg user now)
    (λ v, UserSink.save_mute_command r v user)
    (λ v, UserSink.save_mute_command d v user)
    "save_mute_command".
Proof. unfold MutTask.save, MutTask._write_data. solve_save_cascade. Qed.

Lemma DocTask_save_cascade (r : DocumentCache.Interface R)
    (d : DocumentStorage.Interface D) cfg identifier now :
  save_cascade (DocTask.save r d cfg identifier now)
    (λ v, DocumentCache.save_documents r v identifier)
    (λ v, DocumentStorage.save_documents d v identifier)
    "save_documents".
Proof. unfold DocTask.save, DocTask._write_data. solve_save_cascade. Qed.

Lemma DevTask_save_cascade {Info : Type} (r : DeviceSink.Interface Info R)
    (d : DeviceSink.Interface Info D) cfg identifier now :
  save_cascade (DevTask.save r d cfg identifier now)
    (λ v, DeviceSink.save_devices r v identifier)
    (λ v, DeviceSink.save_devices d v identifier)
    "save_devices".
Proof. unfold DevTask.save, DevTask._write_data. solve_save_cascade. Qed.
End CascadeFacts.

(** C2: for the contacts, command, document and device tasks, the write
    cascade calls the volatile sink and then the durable sink, whatever the
    first call answered, and [save] reports success exactly when at least
    one of the two writes succeeded. *)
Theorem task_write_cascade {UR UD DR DD VR VD Info : Type}
    (user_redis : UserSink.Interface UR) (user_dos : UserSink.Interface UD)
    (doc_redis : DocumentCache.Interface DR) (doc_dos : DocumentStorage.Interface DD)
    (dev_redis : DeviceSink.Interface Info VR) (dev_dos : DeviceSink.Interface Info VD)
    (cfg : TaskConfig) (identifier : ID) (now : Z) :
  (write_cascade (UsrTask._write_data user_redis user_dos identifier)
     (λ v, UserSink.save_contacts user_redis v identifier)
     (λ v, UserSink.save_contacts user_dos v identifier) "save_contacts" ∧
   write_cascade (ConTask._write_data user_redis user_dos identifier)
     (λ v, UserSink.save_contacts_command user_redis v identifier)
     (λ v, UserSink.save_contacts_command user_dos v identifier) "save_contacts_command" ∧
   write_cascade (BloTask._write_data user_redis user_dos identifier)
     (λ v, UserSink.save_block_command user_redis v identifier)
     (λ v, UserSink.save_block_command user_dos v identifier) "save_block_command" ∧
   write_cascade (MutTask._write_data user_redis user_dos identifier)
     (λ v, UserSink.save_mute_command user_redis v identifier)
     (λ v, UserSink.save_mute_command user_dos v identifier) "save_mute_command" ∧
   write_cascade (DocTask._write_data doc_redis doc_dos identifier)
     (λ v, DocumentCache.save_documents doc_redis v identifier)
     (λ v, DocumentStorage.save_documents doc_dos v identifier) "save_documents" ∧
   write_cascade (DevTask._write_data dev_redis dev_dos identifier)
     (λ v, DeviceSink.save_devices dev_redis v identifier)
     (λ v, DeviceSink.save_devices dev_dos v identifier) "save_devices") ∧
  (save_cascade (UsrTask.save user_redis user_dos cfg identifier now)
     (λ v, UserSink.save_contacts user_redis v identifier)
     (λ v, UserSink.save_contacts user_dos v identifier) "save_contacts" ∧
   save_cascade (ConTask.save user_redis user_dos cfg identifier now)
     (λ v, UserSink.save_contacts_command user_redis v identifier)
     (λ v, UserSink.save_contacts_command user_dos v identifier) "save_contacts_command" ∧
   save_cascade (BloTask.save user_redis user_dos cfg identifier now)
     (λ v, UserSink.save_block_command user_redis v identifier)
     (λ v, UserSink.save_block_command user_dos v identifier) "save_block_command" ∧
   save_cascade (MutTask.save user_redis user_dos cfg identifier now)
     (λ v, UserSink.save_mute_command user_redis v identifier)
     (λ v, UserSink.save_mute_command user_dos v identifier) "save_mute_command" ∧
   save_cascade (DocTask.save doc_redis doc_dos cfg identifier now)
     (λ v, DocumentCache.save_documents doc_redis v identifier)
     (λ v, DocumentStorage.save_documents doc_dos v identifier) "save_documents" ∧
   save_cascade (DevTask.save dev_redis dev_dos cfg identifier now)
     (λ v, DeviceSink.save_devices dev_redis v identifier)
     (λ v, DeviceSink.save_devices dev_dos v identifier) "save_devices").
Proof.
  split.
  - repeat apply conj; auto using UsrTask_write_cascade, ConTask_write_cascade, BloTask_write_cascade,
      MutTask_write_cascade, DocTask_write_cascade, DevTask_write_cascade.
  - repeat apply conj; auto using UsrTask_save_cascade, ConTask_save_cascade, BloTask_save_cascade,
      MutTask_save_cascade, DocTask_save_cascade, DevTask_save_cascade.
Qed.

(** Rewrites with the answers assumed for the sink calls. *)
Ltac rewrite_answers :=
  repeat match goal with
         | H : fst _ = _ |- _ => rewrite H; clear H; cbn
         end.

Ltac solve_read_none :=
  intros w ?; unfold is_None in *; cbn zeta;
  split; [intros v ? _ | intros ?];
  py_unfold; rewrite_answers; rewrite <- ?app_assoc; done.

Ltac solve_read_items :=
  intros w [?|?]; cbn zeta;
  (split; [intros [|x v] ? Hpresent; [exfalso; apply Hpresent; by right|]
          | intros [?|?]]);
  py_unfold; rewrite_answers; rewrite <- ?app_assoc; done.

Section ReadCascadeFacts.
Context {R D : Type}.

Lemma UsrTask_read_cascade (r : UserSink.Interface R) (d : UserSink.Interface D) user :
  read_cascade (UsrTask._read_data r d user) is_None
    (UserSink.get_contacts r user) (UserSink.get_contacts d user)
    (λ v, UserSink.save_contacts r v user) "get_contacts" "save_contacts".
Proof. unfold UsrTask._read_data. solve_read_none. Qed.

Lemma ConTask_read_cascade (r : UserSink.Interface R) (d : UserSink.Interface D) user :
  read_cascade (ConTask._read_data r d user) is_None
    (UserSink.get_contacts_command r user) (UserSink.get_contacts_command d user)
    (λ v, UserSink.save_contacts_command r v user)
    "get_contacts_command" "save_contacts_command".
Proof. unfold ConTask._read_data. solve_read_none. Qed.

Lemma BloTask_read_cascade (r : UserSink.Interface R) (d : UserSink.Interface D) user :
  read_cascade (BloTask._read_data r d user) is_None
    (UserSink.get_block_command r user) (UserSink.get_block_command d user)
    (λ v, UserSink.save_block_command r v user)
    "get_block_command" "save_block_command".
Proof. unfold BloTask._read_data. solve_read_none. Qed.

Lemma MutTask_read_cascade (r : UserSink.Interface R) (d : UserSink.Interface D) user :
  read_cascade (MutTask._read_data r d user) is_None
    (UserSink.get_mute_command r user) (UserSink.get_mute_command d user)
    (λ v, UserSink.save_mute_command r v user)
    "get_mute_command" "save_mute_command".
Proof. unfold MutTask._read_data. solve_read_none. Qed.

Lemma DocTask_read_cascade (r : DocumentCache.Interface R)
    (d : DocumentStorage.Interface D) identifier :
  read_cascade (DocTask._read_data r d identifier) no_items
    (DocumentCache.load_documents r identifier)
    (DocumentStorage.load_documents d identifier)
    (λ v, DocumentCache.save_documents r v identifier)
    "load_documents" "save_documents".
Proof. unfold DocTask._read_data. solve_read_items. Qed.

Lemma DevTask_read_cascade {Info : Type} (r : DeviceSink.Interface Info R)
    (d : DeviceSink.Interface Info D) identifier :
  read_cascade (DevTask._read_data r d identifier) no_items
    (DeviceSink.get_devices r identifier) (DeviceSink.get_devices d identifier)
    (λ v, DeviceSink.save_devices r v identifier)
    "get_devices" "save_devices".
Proof. unfold DevTask._read_data. solve_read_items. Qed.
End ReadCascadeFacts.

(** C3: when the volatile sink has nothing for the key (for documents and
    devices: nothing or an empty list), [_read_data] asks the volatile sink,
    then the durable sink; what the durable sink holds is written back to the
    volatile sink and then returned; when the durable sink has nothing
    either, the result is absent. *)
Theorem task_read_cascade {UR UD DR DD VR VD Info : Type}
    (user_redis : UserSink.Interface UR) (user_dos : UserSink.Interface UD)
    (doc_redis : DocumentCache.Interface DR) (doc_dos : DocumentStorage.Interface DD)
    (dev_redis : DeviceSink.Interface Info VR) (dev_dos : DeviceSink.Interface Info VD)
    (identifier : ID) :
  read_cascade (UsrTask._read_data user_redis user_dos identifier) is_None
    (UserSink.get_contacts user_redis identifier)
    (UserSink.get_contacts user_dos identifier)
    (λ v, UserSink.save_contacts user_redis v identifier)
    "get_contacts" "save_contacts" ∧
  read_cascade (ConTask._read_data user_redis user_dos identifier) is_None
    (UserSink.get_contacts_command user_redis identifier)
    (UserSink.get_contacts_command user_dos identifier)
    (λ v, UserSink.save_contacts_command user_redis v identifier)
    "get_contacts_command" "save_contacts_command" ∧
  read_cascade (BloTask._read_data user_redis user_dos identifier) is_None
    (UserSink.get_block_command user_redis identifier)
    (UserSink.get_block_command user_dos identifier)
    (λ v, UserSink.save_block_command user_redis v identifier)
    "get_block_command" "save_block_command" ∧
  read_cascade (MutTask._read_data user_redis user_dos identifier) is_None
    (UserSink.get_mute_command user_redis identifier)
    (UserSink.get_mute_command user_dos identifier)
    (λ v, UserSink.save_mute_command user_redis v identifier)
    "get_mute_command" "save_mute_command" ∧
  read_cascade (DocTask._read_data doc_redis doc_dos identifier) no_items
    (DocumentCache.load_documents doc_redis identifier)
    (DocumentStorage.load_documents doc_dos identifier)
    (λ v, DocumentCache.save_documents doc_redis v identifier)
    "load_documents" "save_documents" ∧
  read_cascade (DevTask._read_data dev_redis dev_dos identifier) no_items
    (DeviceSink.get_devices dev_redis identifier)
    (DeviceSink.get_devices dev_dos identifier)
    (λ v, DeviceSink.save_devices dev_redis v identifier)
    "get_devices" "save_devices".
Proof.
  repeat apply conj;
    auto using UsrTask_read_cascade, ConTask_read_cascade, BloTask_read_cascade,
      MutTask_read_cascade, DocTask_read_cascade, DevTask_read_cascade.
Qed.

(** On the reference sinks: contacts and documents found on disk only are
    returned and written back to the volatile sink. *)
Lemma task_read_cascade_witness :
  let w := CascadeExample.contacts_on_disk in
  let w' := snd (UsrTask._read_data MemoryUserSink.sink MemoryUserSink.sink
                   CascadeExample.alice w) in
  fst (UsrTask._read_data MemoryUserSink.sink MemoryUserSink.sink CascadeExample.alice w)
  = Return (Some [CascadeExample.bob]) ∧
  MemoryUserSink.contacts (redis w') !! CascadeExample.alice = Some [CascadeExample.bob] ∧
  trace w' = [(Redis, "get_contacts"%string); (Dos, "get_contacts"%string);
              (Redis, "save_contacts"%string)] ∧
  fst (DocTask._read_data MemoryDocumentSink.cache MemoryDocumentSink.storage
         CascadeExample.alice CascadeExample.visa_on_disk)
  = Return (Some [CascadeExample.visa]).
Proof.
  cbn zeta.
  destruct (task_read_cascade
              MemoryUserSink.sink MemoryUserSink.sink
              MemoryDocumentSink.cache MemoryDocumentSink.storage
              MemoryDeviceSink.sink MemoryDeviceSink.sink
              CascadeExample.alice) as (Husr & _ & _ & _ & Hdoc & _).
  destruct (Husr CascadeExample.contacts_on_disk) as [Hfound _]; [reflexivity|].
  rewrite (Hfound [CascadeExample.bob]); [|reflexivity|discriminate].
  destruct (Hdoc CascadeExample.visa_on_disk) as [Hfound' _]; [by left|].
  rewrite (Hfound' [CascadeExample.visa]);
    [|reflexivity|intros [?|?]; discriminate].
  repeat split; vm_compute; reflexivity.
Defined.

(** ** Command records *)

Section CommandFacts.
Import UserMemory UserTable.
Context {R D : Type}.
Context (_redis : UserSink.Interface R) (_dos : UserSink.Interface D).
Context (cfg : TaskConfig) (is_before : option Z → option Z → bool).
Implicit Types (w : World Memory R D) (content : Command).

Lemma unpacked_has_no_time obj old rest :
  unpack2 obj = Return (old, rest) → attr_time old = Raise AttributeError.
Proof.
  destruct obj as [|s|c]; cbn; [done| |].
  - destruct s as [|a [|b [|]]]; try done. by intros [= <- _].
  - destruct c as [|[k1 v1] [|[k2 v2] [|]]]; try done. by intros [= <- _].
Qed.

Lemma unpacked_is_not_None obj old rest :
  unpack2 obj = Return (old, rest) → is_not_None old = true.
Proof.
  destruct obj as [|s|c]; cbn; [done| |].
  - destruct s as [|a [|b [|]]]; try done. by intros [= <- _].
  - destruct c as [|[k1 v1] [|[k2 v2] [|]]]; try done. by intros [= <- _].
Qed.

(** With a positive time the freshness check of a contacts command always
    raises: the stored command cannot be unpacked into two names, and when
    it can the first name is a key, which has no [time]. *)
Lemma _is_contacts_expired_raises user content now w t :
  time content = Some t → 0 < t →
  ∃ e, fst (_is_contacts_expired _redis _dos cfg is_before user content now w) = Raise e.
Proof.
  intros Ht Hpos. unfold _is_contacts_expired. rewrite Ht.
  rewrite bool_decide_eq_false_2 by lia.
  unfold bind at 1.
  destruct (get_contacts_command _redis _dos cfg user now w) as [[stored|e] w1];
    [|by exists e].
  unfold bind, lift.
  destruct (unpack2 (of_command stored)) as [[old rest]|e] eqn:Hunpack; [|by exists e].
  cbn. rewrite (unpacked_is_not_None _ _ _ Hunpack).
  rewrite (unpacked_has_no_time _ _ _ Hunpack). by exists AttributeError.
Qed.

Lemma _is_contacts_expired_never_true user content now w :
  truthy_result (fst (_is_contacts_expired _redis _dos cfg is_before user content now w))
  = false.
Proof.
  unfold _is_contacts_expired.
  destruct (time content) as [t|]; [|done].
  case_bool_decide; [done|].
  unfold bind at 1.
  destruct (get_contacts_command _redis _dos cfg user now w) as [[stored|e] w1]; [|done].
  unfold bind, lift.
  destruct (unpack2 (of_command stored)) as [[old rest]|e] eqn:Hunpack; [|done].
  cbn. rewrite (unpacked_is_not_None _ _ _ Hunpack).
  by rewrite (unpacked_has_no_time _ _ _ Hunpack).
Qed.

Lemma _is_blocked_expired_never_true user content now w :
  truthy_result (fst (_is_blocked_expired _redis _dos cfg is_before user content now w))
  = false.
Proof.
  unfold _is_blocked_expired.
  destruct (time content) as [t|]; [|done].
  case_bool_decide; [done|].
  unfold bind at 1.
  destruct (get_block_command _redis _dos cfg user now w) as [[[o|]|e] w1]; try done.
  by destruct (is_before (time o) (Some t)).
Qed.

Lemma _is_muted_expired_never_true user content now w :
  truthy_result (fst (_is_muted_expired _redis _dos cfg is_before user content now w))
  = false.
Proof.
  unfold _is_muted_expired.
  destruct (time content) as [t|]; [|done].
  case_bool_decide; [done|].
  unfold bind at 1.
  destruct (get_mute_command _redis _dos cfg user now w) as [[[o|]|e] w1]; try done.
  by destruct (is_before (time o) (Some t)).
Qed.
End CommandFacts.

(** C1 at the failing input.  Both sinks hold the command sent at time 100
    and a command sent at time 50 arrives.  [save_contacts_command] does not
    return [False]: the freshness check raises while unpacking the stored
    command (and so does the very first timed write, with nothing stored).
    The sibling [save_block_command] does not reject the older command
    either: it reports success and the command sent at time 50 replaces the
    stored one in the pool and in both sinks. *)
Theorem save_contacts_command_stale (is_before : option Z → option Z → bool) :
  let sink := MemoryUserSink.sink in
  let cfg := CommandExample.cfg in
  let alice := CommandExample.alice in
  let incoming := CommandExample.cmd 50 [CommandExample.carol] in
  let w := CommandExample.stored100 in
  let contacts_run :=
    UserTable.save_contacts_command sink sink cfg is_before incoming alice 0 w in
  let block_run :=
    UserTable.save_block_command sink sink cfg is_before incoming alice 0 w in
  time incoming = Some 50 ∧
  fst (UserTable.save_contacts_command sink sink cfg is_before
         (CommandExample.cmd 100 [CommandExample.bob]) alice 0 CommandExample.empty)
  = Raise TypeError ∧
  fst contacts_run = Raise ValueError ∧
  fst contacts_run ≠ Return false ∧
  fst block_run = Return true ∧
  MemoryUserSink.block_command (redis (snd block_run)) !! alice = Some incoming ∧
  MemoryUserSink.block_command (dos (snd block_run)) !! alice = Some incoming ∧
  fst (UserTable.get_block_command sink sink cfg alice 1 (snd block_run)) = Return (Some incoming).
Proof.
  cbn zeta. split; [reflexivity|]. split; [vm_compute; reflexivity|].
  split; [vm_compute; reflexivity|]. split; [vm_compute; discriminate|].
  assert (Hrun : UserTable.save_block_command MemoryUserSink.sink MemoryUserSink.sink
            CommandExample.cfg is_before (CommandExample.cmd 50 [CommandExample.carol])
            CommandExample.alice 0 CommandExample.stored100
          = BloTask.save MemoryUserSink.sink MemoryUserSink.sink CommandExample.cfg
              CommandExample.alice 0 (CommandExample.cmd 50 [CommandExample.carol])
              (snd (UserTable.get_block_command MemoryUserSink.sink MemoryUserSink.sink
                      CommandExample.cfg CommandExample.alice 0 CommandExample.stored100))).
  { unfold UserTable.save_block_command, UserTable._is_blocked_expired.
    change (time (CommandExample.cmd 50 [CommandExample.carol])) with (Some 50).
    cbv beta iota. rewrite bool_decide_eq_false_2 by lia.
    unfold bind at 1 2.
    destruct (UserTable.get_block_command _ _ _ _ _ _) as [[[o|]|e] w1] eqn:Hget;
      [| |by vm_compute in Hget].
    - cbn. by destruct (is_before (time o) (Some 50)).
    - done. }
  rewrite Hrun. repeat split; vm_compute; reflexivity.
Qed.

(** ** Name registry *)

Section RegistryFacts.
Context {R D : Type}.
Context (_redis : AddressNameCache.Interface R) (_dos : AddressNameStorage.Interface D).
Context (cfg : TaskConfig).
Implicit Types (w : World AnsTask.Memory R D) (name : string) (i : ID).

(** [save_record] step by step, when the records loaded after the erasure
    are a dictionary. *)
Lemma save_record_eq name identifier now w records :
  let w0 := erased identifier w in
  let w1 := snd (AddressNameTable._load_records _dos cfg now w0) in
  let records' := <[name := identifier]> records in
  let mirror := AddressNameCache.save_record _redis name (IdValue <$> identifier) (redis w1) in
  let persist := AddressNameStorage.save_records _dos records' (dos w1) in
  fst (AddressNameTable._load_records _dos cfg now w0) = Return (RecordsValue records) →
  AddressNameTable.save_record _redis _dos cfg name identifier now w
  = (Return (fst persist),
     mkWorld (update AllTask.ALL_KEY (Some (RecordsValue records'))
                (MEM_CACHE_EXPIRES cfg) (MEM_CACHE_REFRESH cfg) now (mem w1))
             (snd mirror) (snd persist)
             (trace w1 ++ [(Redis, "save_record"%string); (Dos, "save_records"%string)])).
Proof.
  cbn zeta. intros Hload. unfold AddressNameTable.save_record.
  unfold bind at 1.
  assert (Hfirst : (match identifier with
                    | Some i => modify (with_mem (erase i))
                    | None => ret tt
                    end) w = (Return tt, erased identifier w)).
  { by destruct identifier. }
  rewrite Hfirst. unfold bind at 1.
  destruct (AddressNameTable._load_records _dos cfg now (erased identifier w)) as [res w1] eqn:Hrun.
  cbn in Hload. subst res. py_unfold. by rewrite <- app_assoc.
Qed.

(** Loading the records leaves the volatile sink alone and changes no pool
    entry other than the one of [all_records]. *)
Lemma AllTask_load_frame now w :
  let w' := snd (AllTask.load _dos cfg now w) in
  redis w' = redis w ∧ ∀ k, k ≠ AllTask.ALL_KEY → mem w' !! k = mem w !! k.
Proof.
  cbn zeta. unfold AllTask.load, load, AllTask._read_data. py_unfold.
  destruct (fetch AllTask.ALL_KEY now (mem w)) as [[v|] [|]] eqn:Hfetch;
    cbn; rewrite ?Hfetch; cbn; try done.
  all: destruct (AddressNameStorage.load_records _dos (dos w)) as [[r|] d']; cbn;
    try done.
  all: split; [done|]; intros k Hk; unfold update; by rewrite lookup_insert_ne.
Qed.

Lemma _load_records_frame now w :
  let w' := snd (AddressNameTable._load_records _dos cfg now w) in
  redis w' = redis w ∧ ∀ k, k ≠ AllTask.ALL_KEY → mem w' !! k = mem w !! k.
Proof.
  cbn zeta. unfold AddressNameTable._load_records, bind.
  pose proof (AllTask_load_frame now w) as Hframe. cbn zeta in Hframe.
  by destruct (AllTask.load _dos cfg now w) as [[res|e] w'].
Qed.

Lemma AllTask_load_fresh now w v :
  fetch AllTask.ALL_KEY now (mem w) = (Some v, false) →
  AllTask.load _dos cfg now w = (Return (Some v), w).
Proof. intros H. unfold AllTask.load. by apply load_fresh. Qed.

(** The pool once [save_record] has returned: the new dictionary is fresh
    under [all_records], and every other key is as the erasure left it. *)
Lemma save_record_pool name identifier t0 w records :
  let w1 := snd (AddressNameTable.save_record _redis _dos cfg name identifier t0 w) in
  fst (AddressNameTable._load_records _dos cfg t0 (erased identifier w)) = Return (RecordsValue records) →
  (∀ t1, 0 ≤ MEM_CACHE_REFRESH cfg →
         t1 ≤ t0 + (MEM_CACHE_EXPIRES cfg - MEM_CACHE_REFRESH cfg) →
         fetch AllTask.ALL_KEY t1 (mem w1)
         = (Some (RecordsValue (<[name := identifier]> records)), false)) ∧
  (∀ k, k ≠ AllTask.ALL_KEY → mem w1 !! k = mem (erased identifier w) !! k).
Proof.
  cbn zeta. intros Hload.
  rewrite (save_record_eq name identifier t0 w records Hload).
  cbn [snd mem]. split.
  - intros t1 Hmargin Ht1. by apply fetch_update_eq.
  - intros k Hk. unfold update. rewrite lookup_insert_ne by done.
    by apply _load_records_frame.
Qed.

Lemma fetch_lookup_eq (p q : Pool AnsValue) key now :
  p !! key = q !! key → fetch key now p = fetch key now q.
Proof. intros H. unfold fetch. by rewrite H. Qed.

(** [get_names] with a fresh reverse-index entry: the cached set. *)
Lemma get_names_cached i now w s :
  fetch i now (mem w) = (Some (NamesValue s), false) →
  AddressNameTable.get_names _redis _dos cfg i now w = (Return s, w).
Proof.
  intros H. unfold AddressNameTable.get_names, NameTask.load. unfold bind at 1.
  by rewrite (load_fresh _ _ _ _ _ _ now w _ H).
Qed.

(** [get_names] without a usable entry, answered by the volatile sink. *)
Lemma get_names_sink i now w b s :
  fetch i now (mem w) = (None, b) →
  fst (AddressNameCache.get_names _redis i (redis w)) = Some s →
  fst (AddressNameTable.get_names _redis _dos cfg i now w) = Return s.
Proof.
  intros Hfetch Hsink. unfold AddressNameTable.get_names, NameTask.load, load, NameTask._read_data.
  py_unfold. rewrite Hfetch. cbn. by rewrite Hsink.
Qed.

(** [get_names] without a usable entry and without an answer of the
    volatile sink: the scan of the fresh [all_records] dictionary. *)
Lemma get_names_scan i now w b records :
  i ≠ AllTask.ALL_KEY →
  fetch i now (mem w) = (None, b) →
  fst (AddressNameCache.get_names _redis i (redis w)) = None →
  fetch AllTask.ALL_KEY now (mem w) = (Some (RecordsValue records), false) →
  fst (AddressNameTable.get_names _redis _dos cfg i now w) = Return (get_names records i).
Proof.
  intros Hi Hfetch Hsink Hall.
  unfold AddressNameTable.get_names, NameTask.load, load, NameTask._read_data, AllTask.load, load.
  py_unfold. rewrite Hfetch. cbn. rewrite Hsink. cbn. by rewrite Hall.
Qed.

Lemma elem_of_get_names records i name :
  name ∈ get_names records i ↔ records !! name = Some (Some i).
Proof.
  unfold get_names. rewrite elem_of_dom. split.
  - intros [v [Hv Hp]%map_lookup_filter_Some]. cbn in Hp. by subst.
  - intros H. exists (Some i). by apply map_lookup_filter_Some.
Qed.

(** [get_record] with a fresh per-name entry holding an identifier. *)
Lemma get_record_cached name now w j :
  fetch name now (mem w) = (Some (IdValue j), false) →
  AddressNameTable.get_record _redis _dos cfg name now w = (Return (Some (IdValue j)), w).
Proof.
  intros H. unfold AddressNameTable.get_record, IdTask.load. unfold bind at 1.
  by rewrite (load_fresh _ _ _ _ _ _ now w _ H).
Qed.

Lemma get_record_sink name now w b j :
  fetch name now (mem w) = (None, b) →
  fst (AddressNameCache.get_record _redis name (redis w)) = Some j →
  fst (AddressNameTable.get_record _redis _dos cfg name now w) = Return (Some (IdValue j)).
Proof.
  intros Hfetch Hsink. unfold AddressNameTable.get_record, IdTask.load, load, IdTask._read_data.
  py_unfold. rewrite Hfetch. cbn. by rewrite Hsink.
Qed.

Lemma get_record_scan name now w b records j :
  name ≠ AllTask.ALL_KEY →
  fetch name now (mem w) = (None, b) →
  fst (AddressNameCache.get_record _redis name (redis w)) = None →
  fetch AllTask.ALL_KEY now (mem w) = (Some (RecordsValue records), false) →
  records !! name = Some (Some j) →
  fst (AddressNameTable.get_record _redis _dos cfg name now w) = Return (Some (IdValue j)).
Proof.
  intros Hname Hfetch Hsink Hall Hrec.
  unfold AddressNameTable.get_record, IdTask.load, load, IdTask._read_data, AllTask.load, load.
  py_unfold. rewrite Hfetch. cbn. rewrite Hsink. cbn. rewrite Hall. cbn.
  by rewrite Hrec.
Qed.
End RegistryFacts.

(** C10: the result of [save_record] is the result of the durable sink's
    [save_records], whatever the volatile sink answered to the mirrored
    write; when it returns, and also when that result is [False], the pool
    holds the new dictionary under [all_records], the pool entry of the
    identifier has been erased and the volatile sink has been written. *)
Theorem save_record_result {R D : Type}
    (_redis : AddressNameCache.Interface R) (_dos : AddressNameStorage.Interface D)
    (cfg : TaskConfig) (name : string) (identifier : option ID) (now : Z)
    (w : World AnsTask.Memory R D) (records : gmap string (option ID)) :
  let loading := AddressNameTable._load_records _dos cfg now (erased identifier w) in
  let records' := <[name := identifier]> records in
  let mirror := AddressNameCache.save_record _redis name (IdValue <$> identifier) (redis w) in
  let persist := AddressNameStorage.save_records _dos records' (dos (snd loading)) in
  let run := AddressNameTable.save_record _redis _dos cfg name identifier now w in
  fst loading = Return (RecordsValue records) →
  fst run = Return (fst persist) ∧
  (fst persist = false → fst run = Return false) ∧
  mem (snd run) !! AllTask.ALL_KEY
  = Some (mkEntry (Some (RecordsValue records'))
            (now + MEM_CACHE_EXPIRES cfg)
            (now + (MEM_CACHE_EXPIRES cfg - MEM_CACHE_REFRESH cfg))) ∧
  (∀ i, identifier = Some i → i ≠ AllTask.ALL_KEY → mem (snd run) !! i = None) ∧
  redis (snd run) = snd mirror ∧
  dos (snd run) = snd persist ∧
  trace (snd run)
  = trace (snd loading) ++ [(Redis, "save_record"%string); (Dos, "save_records"%string)].
Proof.
  cbn zeta. intros Hload.
  rewrite (save_record_eq _redis _dos cfg name identifier now w records Hload).
  destruct (_load_records_frame _dos cfg now (erased identifier w)) as [Hredis Hmem].
  cbn [fst snd mem redis dos trace].
  split; [done|]. split; [by intros ->|]. split.
  { unfold update. by rewrite lookup_insert_eq. }
  split.
  { intros i -> Hi. unfold update. rewrite lookup_insert_ne by done.
    rewrite Hmem by done. cbn. unfold erase. by rewrite lookup_delete_eq. }
  split; [|done].
  rewrite Hredis. by destruct identifier.
Qed.

(** With the durable sink out of reach, [save_record] answers [False] while
    the pool and the volatile sink already hold the new record. *)
Lemma save_record_result_witness :
  let run := AddressNameTable.save_record MemoryAnsSink.cache MemoryAnsSink.storage
               RegistryExample.cfg RegistryExample.alice (Some RegistryExample.idA) 0
               (RegistryExample.start false) in
  fst run = Return false ∧
  mem (snd run) !! AllTask.ALL_KEY
  = Some (mkEntry (Some (RecordsValue {[RegistryExample.alice := Some RegistryExample.idA]}))
            300 268) ∧
  redis (snd run) !! RegistryExample.alice = Some RegistryExample.idA.
Proof.
  cbn zeta.
  destruct (save_record_result MemoryAnsSink.cache MemoryAnsSink.storage
              RegistryExample.cfg RegistryExample.alice (Some RegistryExample.idA) 0
              (RegistryExample.start false) ∅)
    as (Hres & Hfalse & Hall & _ & Hredis & _).
  { vm_compute. reflexivity. }
  split; [apply Hfalse; vm_compute; reflexivity|].
  split; [rewrite Hall; vm_compute; reflexivity|].
  rewrite Hredis. vm_compute. reflexivity.
Defined.

(** C4, as stated, fails: [idA] is asked for its names at time 1 and the
    answer is cached; [alice] is reassigned to [idB] at time 2; at time 3
    the names of [idA] still contain [alice]. *)
Lemma get_names_previous_owner_counterexample :
  let names_of identifier now w :=
    fst (AddressNameTable.get_names MemoryAnsSink.cache MemoryAnsSink.storage
           RegistryExample.cfg identifier now w) in
  names_of RegistryExample.idA 1 RegistryExample.w1
  = Return ({[RegistryExample.alice]} : gset string) ∧
  names_of RegistryExample.idB 3 RegistryExample.w4
  = Return ({[RegistryExample.alice]} : gset string) ∧
  ∃ s, names_of RegistryExample.idA 3 RegistryExample.w4 = Return s ∧
       RegistryExample.alice ∈ s.
Proof.
  cbn zeta. split; [vm_compute; reflexivity|]. split; [vm_compute; reflexivity|].
  exists {[RegistryExample.alice]}. split; [vm_compute; reflexivity|].
  by apply elem_of_singleton.
Qed.

(** C4, amended: [save_record] erases the reverse-index entry of the
    identifier it is given, the new owner, not the one of the previous
    owner.  While the dictionary it stored is fresh: the names of the new
    owner contain the name (when the volatile sink has no answer, or one
    that contains the name); the names of another identifier do not contain
    the name once that identifier has no usable pool entry and no answer of
    the volatile sink; and a fresh cached set of another identifier is
    returned as it is. *)
Theorem get_names_after_save_record {R D : Type}
    (_redis : AddressNameCache.Interface R) (_dos : AddressNameStorage.Interface D)
    (cfg : TaskConfig) (name : string) (i : ID) (t0 t1 : Z)
    (w : World AnsTask.Memory R D) (records : gmap string (option ID)) :
  let w1 := snd (AddressNameTable.save_record _redis _dos cfg name (Some i) t0 w) in
  let names_of j := AddressNameTable.get_names _redis _dos cfg j t1 w1 in
  let sink_names j := fst (AddressNameCache.get_names _redis j (redis w1)) in
  fst (AddressNameTable._load_records _dos cfg t0 (erased (Some i) w))
  = Return (RecordsValue records) →
  0 ≤ MEM_CACHE_REFRESH cfg →
  t1 ≤ t0 + (MEM_CACHE_EXPIRES cfg - MEM_CACHE_REFRESH cfg) →
  i ≠ AllTask.ALL_KEY →
  mem w1 !! i = None ∧
  (sink_names i = None ∨ (∃ s, sink_names i = Some s ∧ name ∈ s) →
   ∃ s, fst (names_of i) = Return s ∧ name ∈ s) ∧
  (∀ j b, j ≠ i → j ≠ AllTask.ALL_KEY →
     fetch j t1 (mem w1) = (None, b) → sink_names j = None →
     ∃ s, fst (names_of j) = Return s ∧ name ∉ s) ∧
  (∀ j s, j ≠ i → j ≠ AllTask.ALL_KEY →
     fetch j t1 (mem w) = (Some (NamesValue s), false) →
     names_of j = (Return s, w1)).
Proof.
  cbn zeta. intros Hload Hmargin Ht1 Hi.
  destruct (save_record_pool _redis _dos cfg name (Some i) t0 w records Hload)
    as [Hall Hother].
  specialize (Hall t1 Hmargin Ht1).
  assert (Herased : mem (snd (AddressNameTable.save_record _redis _dos cfg name
                                (Some i) t0 w)) !! i = None).
  { rewrite Hother by done. cbn. unfold erase. by rewrite lookup_delete_eq. }
  split; [done|]. split; [|split].
  - intros [Hnone | (s & Hsome & Hin)].
    + eexists. split.
      * eapply get_names_scan; [done|by apply fetch_None|done|exact Hall].
      * apply elem_of_get_names. by rewrite lookup_insert_eq.
    + exists s. split; [|done].
      eapply get_names_sink; [by apply fetch_None|done].
  - intros j b Hji Hj Hfetch Hnone. eexists. split.
    + eapply get_names_scan; [done|exact Hfetch|done|exact Hall].
    + rewrite elem_of_get_names, lookup_insert_eq. congruence.
  - intros j s Hji Hj Hfetch. apply get_names_cached.
    rewrite <- Hfetch. apply fetch_lookup_eq.
    rewrite Hother by done. cbn. unfold erase. by rewrite lookup_delete_ne.
Qed.

(** On the reference sinks, after the reassignment of [alice]. *)
Lemma get_names_after_save_record_witness :
  let names_of j :=
    AddressNameTable.get_names MemoryAnsSink.cache MemoryAnsSink.storage
      RegistryExample.cfg j 3 RegistryExample.w4 in
  (∃ s, fst (names_of RegistryExample.idB) = Return s ∧ RegistryExample.alice ∈ s) ∧
  names_of RegistryExample.idA = (Return {[RegistryExample.alice]}, RegistryExample.w4).
Proof.
  cbn zeta.
  destruct (get_names_after_save_record MemoryAnsSink.cache MemoryAnsSink.storage
              RegistryExample.cfg RegistryExample.alice RegistryExample.idB 2 3
              RegistryExample.w3 {[RegistryExample.alice := Some RegistryExample.idA]})
    as (_ & Hnew & _ & Hold).
  - vm_compute. reflexivity.
  - vm_compute. discriminate.
  - vm_compute. discriminate.
  - discriminate.
  - split.
    + apply Hnew. right. exists {[RegistryExample.alice]}.
      split; [vm_compute; reflexivity|by apply elem_of_singleton].
    + apply Hold; [discriminate|discriminate|vm_compute; reflexivity].
Defined.

(** C5, as stated, fails: [alice] is looked up at time 1 and the answer is
    cached under the name; [alice] is reassigned to [idB] at time 2; at
    time 3 the lookup still answers [idA]. *)
Lemma get_record_stale_counterexample :
  let run := AddressNameTable.get_record MemoryAnsSink.cache MemoryAnsSink.storage
               RegistryExample.cfg RegistryExample.alice 3 RegistryExample.w4 in
  fst run = Return (Some (IdValue RegistryExample.idA)) ∧
  fst run ≠ Return (Some (IdValue RegistryExample.idB)).
Proof.
  cbn zeta. split; [vm_compute; reflexivity|]. vm_compute. discriminate.
Qed.

(** C5, amended: after [save_record] has returned, and while the dictionary
    it stored is fresh, [get_record] answers with the identifier written
    when the pool has no usable entry under the name and the volatile sink
    has no answer or answers with that identifier; a fresh entry cached
    under the name by an earlier lookup is not touched by [save_record] and
    is what [get_record] returns. *)
Theorem get_record_after_save_record {R D : Type}
    (_redis : AddressNameCache.Interface R) (_dos : AddressNameStorage.Interface D)
    (cfg : TaskConfig) (name : string) (i : ID) (t0 t1 : Z)
    (w : World AnsTask.Memory R D) (records : gmap string (option ID)) :
  let w1 := snd (AddressNameTable.save_record _redis _dos cfg name (Some i) t0 w) in
  let sink_record := fst (AddressNameCache.get_record _redis name (redis w1)) in
  fst (AddressNameTable._load_records _dos cfg t0 (erased (Some i) w))
  = Return (RecordsValue records) →
  0 ≤ MEM_CACHE_REFRESH cfg →
  t1 ≤ t0 + (MEM_CACHE_EXPIRES cfg - MEM_CACHE_REFRESH cfg) →
  name ≠ AllTask.ALL_KEY →
  (∀ b, fetch name t1 (mem w1) = (None, b) →
     sink_record = None ∨ sink_record = Some i →
     fst (AddressNameTable.get_record _redis _dos cfg name t1 w1)
     = Return (Some (IdValue i))) ∧
  (∀ j, name ≠ i →
     fetch name t1 (mem w) = (Some (IdValue j), false) →
     AddressNameTable.get_record _redis _dos cfg name t1 w1
     = (Return (Some (IdValue j)), w1)).
Proof.
  cbn zeta. intros Hload Hmargin Ht1 Hname.
  destruct (save_record_pool _redis _dos cfg name (Some i) t0 w records Hload)
    as [Hall Hother].
  specialize (Hall t1 Hmargin Ht1). split.
  - intros b Hfetch [Hnone | Hsome].
    + eapply get_record_scan; [done|exact Hfetch|done|exact Hall|].
      by rewrite lookup_insert_eq.
    + eapply get_record_sink; [exact Hfetch|done].
  - intros j Hni Hfetch. apply get_record_cached.
    rewrite <- Hfetch. apply fetch_lookup_eq.
    rewrite Hother by done. cbn. unfold erase. by rewrite lookup_delete_ne.
Qed.

(** On the reference sinks: a first lookup after the registration, and a
    lookup after the reassignment. *)
Lemma get_record_after_save_record_witness :
  fst (AddressNameTable.get_record MemoryAnsSink.cache MemoryAnsSink.storage
         RegistryExample.cfg RegistryExample.alice 1 RegistryExample.w1)
  = Return (Some (IdValue RegistryExample.idA)) ∧
  AddressNameTable.get_record MemoryAnsSink.cache MemoryAnsSink.storage
    RegistryExample.cfg RegistryExample.alice 3 RegistryExample.w4
  = (Return (Some (IdValue RegistryExample.idA)), RegistryExample.w4).
Proof.
  split.
  - destruct (get_record_after_save_record MemoryAnsSink.cache MemoryAnsSink.storage
                RegistryExample.cfg RegistryExample.alice RegistryExample.idA 0 1
                (RegistryExample.start true) ∅) as [Hmiss _].
    + vm_compute. reflexivity.
    + vm_compute. discriminate.
    + vm_compute. discriminate.
    + discriminate.
    + apply (Hmiss false); [vm_compute; reflexivity|].
      right. vm_compute. reflexivity.
  - destruct (get_record_after_save_record MemoryAnsSink.cache MemoryAnsSink.storage
                RegistryExample.cfg RegistryExample.alice RegistryExample.idB 2 3
                RegistryExample.w3 {[RegistryExample.alice := Some RegistryExample.idA]})
      as [_ Hcached].
    + vm_compute. reflexivity.
    + vm_compute. discriminate.
    + vm_compute. discriminate.
    + discriminate.
    + apply Hcached; [discriminate|vm_compute; reflexivity].
Defined.

(** ** Documents *)

Lemma list_remove_elem (old : Document) (l : list Document) :
  old ∈ l →
  ∃ l1 l2, l = l1 ++ (old :: l2) ∧ (old ∉ l1) ∧ list_remove old l = Some (l1 ++ l2).
Proof.
  induction l as [|d l IH]; [by intros ?%elem_of_nil|].
  intros Hin. cbn. case_bool_decide as Hd.
  - subst d. exists [], l. split; [done|]. split; [apply not_elem_of_nil|done].
  - apply elem_of_cons in Hin as [->|Hin]; [done|].
    destruct (IH Hin) as (l1 & l2 & -> & Hnot & ->).
    exists (d :: l1), l2. split; [done|]. split; [|done].
    intros [->|?]%elem_of_cons; done.
Qed.

Section DocumentFacts.
Context {R D : Type}.
Context (_redis : DocumentCache.Interface R) (_dos : DocumentStorage.Interface D).
Context (cfg : TaskConfig) (utils : DocumentUtils.Interface).
Implicit Types (w : World DocTask.Memory R D) (document old : Document).

Lemma save_document_reject document old now w my_documents w1 :
  Document.valid document = true →
  DocumentTable.get_documents _redis _dos cfg (Document.identifier document) now w
  = (Return my_documents, w1) →
  comparable utils my_documents document old →
  DocumentUtils.is_expired utils document old = true →
  DocumentTable.save_document _redis _dos cfg utils document now w = (Return false, w1).
Proof.
  intros Hvalid Hget Hcomp Hexp. unfold DocumentTable.save_document.
  rewrite Hvalid. cbn [negb]. cbn zeta. unfold bind at 1. rewrite Hget.
  destruct Hcomp as [Hlast | (Hlast & Hvisa & Hprofile)].
  - rewrite Hlast. by rewrite Hexp.
  - rewrite Hlast, bool_decide_eq_true_2, Hprofile by done. by rewrite Hexp.
Qed.

Lemma save_document_accept document old now w my_documents w1 rest :
  Document.valid document = true →
  DocumentTable.get_documents _redis _dos cfg (Document.identifier document) now w
  = (Return my_documents, w1) →
  comparable utils my_documents document old →
  DocumentUtils.is_expired utils document old = false →
  list_remove old my_documents = Some rest →
  DocumentTable.save_document _redis _dos cfg utils document now w
  = DocTask.save _redis _dos cfg (Document.identifier document) now (rest ++ [document])
      (with_mem (appended document (rest ++ [document]) now) w1).
Proof.
  intros Hvalid Hget Hcomp Hexp Hremove. unfold DocumentTable.save_document.
  rewrite Hvalid. cbn [negb]. cbn zeta. unfold bind at 1. rewrite Hget.
  assert (Htail : ∀ docs',
    (modify (with_mem (mutate (Document.identifier document) (λ _, docs')));;
     pool <- gets mem;;
     match fst (fetch ScanTask.ALL_KEY now pool) with
     | Some _ => modify (with_mem (mutate ScanTask.ALL_KEY (λ all, all ++ [document])))
     | None => ret tt
     end;;
     DocTask.save _redis _dos cfg (Document.identifier document) now docs')%py w1
    = DocTask.save _redis _dos cfg (Document.identifier document) now docs'
        (with_mem (appended document docs' now) w1)).
  { intros docs'. unfold appended. py_unfold.
    by destruct (fetch ScanTask.ALL_KEY now _) as [[all|] b]. }
  destruct Hcomp as [Hlast | (Hlast & Hvisa & Hprofile)].
  - rewrite Hlast, Hexp, Hremove. apply Htail.
  - rewrite Hlast, bool_decide_eq_true_2, Hprofile, Hexp, Hremove by done. apply Htail.
Qed.

Lemma DocTask_save_mem identifier now value w :
  mem (snd (DocTask.save _redis _dos cfg identifier now value w))
  = update identifier (Some value) (MEM_CACHE_EXPIRES cfg) (MEM_CACHE_REFRESH cfg) now
      (mem w).
Proof. unfold DocTask.save, save, DocTask._write_data. by py_unfold. Qed.

Lemma fetch_appended_scan document docs' now pool :
  Document.identifier document ≠ ScanTask.ALL_KEY →
  fetch ScanTask.ALL_KEY now (appended document docs' now pool)
  = ((λ all, all ++ [document]) <$> fst (fetch ScanTask.ALL_KEY now pool),
     snd (fetch ScanTask.ALL_KEY now pool)).
Proof.
  intros Hne. unfold appended. cbn zeta.
  rewrite (fetch_mutate_ne pool _ _ _ now Hne).
  destruct (fetch ScanTask.ALL_KEY now pool) as [[all|] b] eqn:Hfetch; cbn.
  - by rewrite fetch_mutate_eq, fetch_mutate_ne, Hfetch.
  - by rewrite fetch_mutate_ne, Hfetch.
Qed.

Lemma lookup_appended_scan_miss document docs' now pool b :
  Document.identifier document ≠ ScanTask.ALL_KEY →
  fetch ScanTask.ALL_KEY now pool = (None, b) →
  appended document docs' now pool !! ScanTask.ALL_KEY = pool !! ScanTask.ALL_KEY.
Proof.
  intros Hne Hfetch. unfold appended. cbn zeta.
  rewrite (fetch_mutate_ne pool _ _ _ now Hne), Hfetch. cbn.
  unfold mutate. by rewrite lookup_alter_ne.
Qed.

Lemma scan_documents_fresh now w all :
  fetch ScanTask.ALL_KEY now (mem w) = (Some all, false) →
  DocumentTable.scan_documents _dos now w = (Return all, w).
Proof.
  intros H. unfold DocumentTable.scan_documents, ScanTask.load. unfold bind at 1.
  by rewrite (load_fresh _ _ _ _ _ _ now w _ H).
Qed.
End DocumentFacts.

(** C6: let [old] be the stored document an incoming valid document is
    compared with (the last of its type or, for a visa, the last profile).
    When the incoming document is expired against [old], [save_document]
    returns [False] and does nothing beyond reading the identifier's list.
    Otherwise the first occurrence of [old] is removed from the list, the
    incoming document is appended, the new list is cached and written to
    both sinks, and a usable [all_documents] entry gets the incoming
    document appended in place, so that the next scan answers with it
    without reading the durable sink. *)
Theorem save_document_supersession {R D : Type}
    (_redis : DocumentCache.Interface R) (_dos : DocumentStorage.Interface D)
    (cfg : TaskConfig) (utils : DocumentUtils.Interface)
    (document old : Document) (now : Z) (w w1 : World DocTask.Memory R D)
    (my_documents : list Document) :
  let identifier := Document.identifier document in
  let run := DocumentTable.save_document _redis _dos cfg utils document now w in
  Document.valid document = true →
  DocumentTable.get_documents _redis _dos cfg identifier now w = (Return my_documents, w1) →
  comparable utils my_documents document old →
  old ∈ my_documents →
  identifier ≠ ScanTask.ALL_KEY →
  (DocumentUtils.is_expired utils document old = true → run = (Return false, w1)) ∧
  (DocumentUtils.is_expired utils document old = false →
   ∃ l1 l2,
     my_documents = l1 ++ (old :: l2) ∧ (old ∉ l1) ∧
     let docs' := (l1 ++ l2) ++ [document] in
     let volatile := DocumentCache.save_documents _redis docs' identifier (redis w1) in
     let durable := DocumentStorage.save_documents _dos docs' identifier (dos w1) in
     fst run = Return (fst volatile || fst durable) ∧
     mem (snd run) !! identifier
     = Some (mkEntry (Some docs') (now + MEM_CACHE_EXPIRES cfg)
               (now + (MEM_CACHE_EXPIRES cfg - MEM_CACHE_REFRESH cfg))) ∧
     redis (snd run) = snd volatile ∧
     dos (snd run) = snd durable ∧
     (∀ all b, fetch ScanTask.ALL_KEY now (mem w1) = (Some all, b) →
        fetch ScanTask.ALL_KEY now (mem (snd run)) = (Some (all ++ [document]), b)) ∧
     (∀ b, fetch ScanTask.ALL_KEY now (mem w1) = (None, b) →
        mem (snd run) !! ScanTask.ALL_KEY = mem w1 !! ScanTask.ALL_KEY) ∧
     (∀ all, fetch ScanTask.ALL_KEY now (mem w1) = (Some all, false) →
        DocumentTable.scan_documents _dos now (snd run)
        = (Return (all ++ [document]), snd run))).
Proof.
  cbn zeta. intros Hvalid Hget Hcomp Hin Hne. split.
  - intros Hexp. by eapply save_document_reject.
  - intros Hexp.
    destruct (list_remove_elem old my_documents Hin) as (l1 & l2 & Hsplit & Hnot & Hrm).
    exists l1, l2. split; [done|]. split; [done|].
    rewrite (save_document_accept _redis _dos cfg utils document old now w
               my_documents w1 (l1 ++ l2) Hvalid Hget Hcomp Hexp Hrm).
    set (docs' := (l1 ++ l2) ++ [document]).
    set (w2 := with_mem (appended document docs' now) w1).
    destruct (DocTask_save_cascade _redis _dos cfg (Document.identifier document) now
                docs' w2) as (Hres & Hredis & Hdos & _).
    pose proof (DocTask_save_mem _redis _dos cfg (Document.identifier document) now
                  docs' w2) as Hmem.
    assert (Hscan : ∀ all b, fetch ScanTask.ALL_KEY now (mem w1) = (Some all, b) →
              fetch ScanTask.ALL_KEY now
                (mem (snd (DocTask.save _redis _dos cfg (Document.identifier document)
                             now docs' w2)))
              = (Some (all ++ [document]), b)).
    { intros all b Hfetch. rewrite Hmem, fetch_update_ne by done.
      subst w2. cbn. by rewrite fetch_appended_scan, Hfetch. }
    split; [exact Hres|]. split.
    { rewrite Hmem. unfold update. by rewrite lookup_insert_eq. }
    split; [exact Hredis|]. split; [exact Hdos|]. split; [exact Hscan|]. split.
    + intros b Hfetch. rewrite Hmem. unfold update. rewrite lookup_insert_ne by done.
      subst w2. cbn. by eapply lookup_appended_scan_miss.
    + intros all Hfetch. apply scan_documents_fresh. by apply Hscan.
Qed.

(** On the reference sinks: an older visa is refused, a newer one replaces
    the stored visa and shows up in the next scan. *)
Lemma save_document_supersession_witness :
  let save document :=
    DocumentTable.save_document MemoryDocumentSink.cache MemoryDocumentSink.storage
      DocumentExample.cfg ReferenceDocumentUtils.utils document 1 DocumentExample.w2 in
  save (DocumentExample.visa 50 "v50") = (Return false, DocumentExample.w2) ∧
  fst (save (DocumentExample.visa 150 "v150")) = Return true ∧
  DocumentTable.scan_documents MemoryDocumentSink.storage 1
    (snd (save (DocumentExample.visa 150 "v150")))
  = (Return [DocumentExample.visa 100 "v100"; DocumentExample.visa 150 "v150"],
     snd (save (DocumentExample.visa 150 "v150"))).
Proof.
  cbn zeta. split; [|split].
  - apply (save_document_supersession MemoryDocumentSink.cache MemoryDocumentSink.storage
             DocumentExample.cfg ReferenceDocumentUtils.utils
             (DocumentExample.visa 50 "v50") (DocumentExample.visa 100 "v100")
             1 DocumentExample.w2 DocumentExample.w2 [DocumentExample.visa 100 "v100"]).
    + reflexivity.
    + vm_compute. reflexivity.
    + left. vm_compute. reflexivity.
    + apply list_elem_of_singleton. reflexivity.
    + discriminate.
    + vm_compute. reflexivity.
  - destruct (save_document_supersession MemoryDocumentSink.cache MemoryDocumentSink.storage
             DocumentExample.cfg ReferenceDocumentUtils.utils
             (DocumentExample.visa 150 "v150") (DocumentExample.visa 100 "v100")
             1 DocumentExample.w2 DocumentExample.w2 [DocumentExample.visa 100 "v100"])
      as [_ Haccept].
    + reflexivity.
    + vm_compute. reflexivity.
    + left. vm_compute. reflexivity.
    + apply list_elem_of_singleton. reflexivity.
    + discriminate.
    + destruct Haccept as (l1 & l2 & _ & _ & Hres & _); [vm_compute; reflexivity|].
      vm_compute. reflexivity.
  - destruct (save_document_supersession MemoryDocumentSink.cache MemoryDocumentSink.storage
             DocumentExample.cfg ReferenceDocumentUtils.utils
             (DocumentExample.visa 150 "v150") (DocumentExample.visa 100 "v100")
             1 DocumentExample.w2 DocumentExample.w2 [DocumentExample.visa 100 "v100"])
      as [_ Haccept].
    + reflexivity.
    + vm_compute. reflexivity.
    + left. vm_compute. reflexivity.
    + apply list_elem_of_singleton. reflexivity.
    + discriminate.
    + destruct Haccept as (l1 & l2 & _ & _ & _ & _ & _ & _ & _ & _ & Hscan);
        [vm_compute; reflexivity|].
      apply (Hscan [DocumentExample.visa 100 "v100"]). vm_compute. reflexivity.
Defined.

(** * Further properties *)

#[local] Set Warnings "-clear-no-such-hyp".

(** ** Presence table: how the operations compose *)

Section ActiveMore.
Import ActiveMemory ActiveTable.
Context {R : Type} (sink : LoginCache.Interface R).
Implicit Types (w : World Memory R unit) (i : ID) (a : SocketAddress).

Lemma add_socket_address_run w i a :
  add_socket_address sink i a w
  = (Return (default ∅ (_socket_address (mem w) !! i) ∪ {[a]}),
     mkWorld (set_socket_address
                (<[i := default ∅ (_socket_address (mem w) !! i) ∪ {[a]}]>
                   (_socket_address (mem w))) (mem w))
             (snd (LoginCache.save_socket_addresses sink i
                     (Some (default ∅ (_socket_address (mem w) !! i) ∪ {[a]}))
                     (redis w)))
             (dos w)
             (trace w ++ [(Redis, "save_socket_addresses"%string)])).
Proof.
  unfold add_socket_address. py_unfold.
  by destruct (_socket_address (mem w) !! i).
Qed.

Lemma remove_socket_address_run w i a :
  let w' := snd (remove_socket_address sink i a w) in
  fst (remove_socket_address sink i a w) = Return (_socket_address (mem w') !! i) ∧
  redis w' = snd (LoginCache.save_socket_addresses sink i
                    (_socket_address (mem w') !! i) (redis w)) ∧
  trace w' = trace w ++ [(Redis, "save_socket_addresses"%string)].
Proof.
  cbn zeta. unfold remove_socket_address. py_unfold.
  destruct (_socket_address (mem w) !! i) as [s|] eqn:Hi; cbn.
  - case_bool_decide; cbn.
    + by rewrite lookup_delete_eq.
    + by rewrite lookup_insert_eq.
  - by rewrite Hi.
Qed.
End ActiveMore.

(** X1: when an identifier's sockets are all non-empty sets, adding an
    address the identifier does not have and removing it again leaves the
    socket dictionary exactly as it was. *)
Theorem add_remove_socket_address_round_trip {R : Type}
    (sink : LoginCache.Interface R) (w : World ActiveMemory.Memory R unit)
    (i : ID) (a : SocketAddress) :
  sockets_nonempty w →
  a ∉ default ∅ (ActiveMemory._socket_address (mem w) !! i) →
  ActiveMemory._socket_address
    (mem (snd (ActiveTable.remove_socket_address sink i a
                 (snd (ActiveTable.add_socket_address sink i a w)))))
  = ActiveMemory._socket_address (mem w).
Proof.
  intros Hinv Hnew.
  rewrite remove_socket_address_map, add_socket_address_map, lookup_insert_eq.
  destruct (ActiveMemory._socket_address (mem w) !! i) as [s|] eqn:Hi; cbn in *.
  - assert (Hs : (s ∪ {[a]}) ∖ {[a]} = s) by set_solver.
    rewrite Hs. rewrite bool_decide_eq_false_2.
    + rewrite insert_insert_eq. by apply insert_id.
    + intros Hsz. apply size_empty_inv in Hsz. apply leibniz_equiv in Hsz.
      by apply (Hinv i s).
  - assert (Hs : ((∅ : gset SocketAddress) ∪ {[a]}) ∖ {[a]} = ∅) by set_solver.
    rewrite Hs. rewrite bool_decide_eq_true_2 by apply size_empty.
    rewrite delete_insert_eq. by apply delete_id.
Qed.

(** The round trip on the example table, where [alice] is connected from
    [home] and connects from [office] for a moment. *)
Lemma add_remove_socket_address_round_trip_witness :
  ActiveMemory._socket_address
    (mem (snd (ActiveTable.remove_socket_address MemoryLoginCache.sink
                 PresenceExample.alice PresenceExample.office
                 (snd (ActiveTable.add_socket_address MemoryLoginCache.sink
                         PresenceExample.alice PresenceExample.office
                         PresenceExample.w1)))))
  = ActiveMemory._socket_address (mem PresenceExample.w1).
Proof.
  apply add_remove_socket_address_round_trip.
  - apply (step_sockets_nonempty MemoryLoginCache.sink
             (ActiveTable.Add PresenceExample.alice PresenceExample.home)).
    apply init_sockets_nonempty.
  - change (PresenceExample.office
            ∉ (∅ ∪ {[PresenceExample.home]} : gset SocketAddress)).
    apply not_elem_of_union. split.
    + apply not_elem_of_empty.
    + apply not_elem_of_singleton. discriminate.
Defined.

(** X2: what [add_socket_address] and [remove_socket_address] return, and
    what they hand to the volatile sink in their single sink call, is the
    identifier's entry in the updated socket dictionary: the full set, or
    [None] once the identifier has no entry (also when it never had one). *)
Theorem socket_addresses_mirrored {R : Type} (sink : LoginCache.Interface R)
    (w : World ActiveMemory.Memory R unit) (i : ID) (a : SocketAddress) :
  let sockets_of w' := ActiveMemory._socket_address (mem w') !! i in
  let added := ActiveTable.add_socket_address sink i a w in
  let removed := ActiveTable.remove_socket_address sink i a w in
  (Some <$> fst added = Return (sockets_of (snd added)) ∧
   redis (snd added)
   = snd (LoginCache.save_socket_addresses sink i (sockets_of (snd added)) (redis w)) ∧
   trace (snd added) = trace w ++ [(Redis, "save_socket_addresses"%string)]) ∧
  (fst removed = Return (sockets_of (snd removed)) ∧
   redis (snd removed)
   = snd (LoginCache.save_socket_addresses sink i (sockets_of (snd removed)) (redis w)) ∧
   trace (snd removed) = trace w ++ [(Redis, "save_socket_addresses"%string)]).
Proof.
  cbn zeta. split.
  - rewrite add_socket_address_run. cbn. by rewrite lookup_insert_eq.
  - apply remove_socket_address_run.
Qed.

(** X3: right after [clear_socket_addresses], whatever the pool held
    before, [get_active_users] asks the volatile sink and answers with the
    set the sink reports then (nothing, or an empty set, gives the empty
    set). *)
Theorem get_active_users_after_clear {R : Type} (sink : LoginCache.Interface R)
    (w : World ActiveMemory.Memory R unit) (now : Z) :
  let w1 := snd (ActiveTable.clear_socket_addresses sink w) in
  let run := ActiveTable.get_active_users sink now w1 in
  fst run = Return (default ∅ (fst (LoginCache.get_active_users sink (redis w1)))) ∧
  trace (snd run)
  = trace w ++ [(Redis, "clear_socket_addresses"%string);
                (Redis, "get_active_users"%string)].
Proof.
  cbn zeta.
  assert (Hcache : ActiveMemory.cache
            (mem (snd (ActiveTable.clear_socket_addresses sink w)))
          = erase "active_users" (ActiveMemory.cache (mem w))).
  { unfold ActiveTable.clear_socket_addresses. by py_unfold. }
  assert (Htrace : trace (snd (ActiveTable.clear_socket_addresses sink w))
          = trace w ++ [(Redis, "clear_socket_addresses"%string)]).
  { unfold ActiveTable.clear_socket_addresses. by py_unfold. }
  destruct (get_active_users_miss sink now
              (snd (ActiveTable.clear_socket_addresses sink w)) false)
    as (Hres & _ & Htr & _).
  { rewrite Hcache. apply fetch_erase_eq. }
  split; [exact Hres|]. rewrite Htr, Htrace. by rewrite <- app_assoc.
Qed.

(** X4: calls that leave the socket dictionary as it is: adding an address
    a second time; removing an address of an identifier that has no entry
    (the answer is [None]); removing an address that is not in the
    identifier's non-empty set (the answer is that set). *)
Theorem socket_address_noops {R : Type} (sink : LoginCache.Interface R)
    (w : World ActiveMemory.Memory R unit) (i : ID) (a : SocketAddress) :
  let sockets_of w' := ActiveMemory._socket_address (mem w') in
  let added := snd (ActiveTable.add_socket_address sink i a w) in
  let removed := ActiveTable.remove_socket_address sink i a w in
  sockets_of (snd (ActiveTable.add_socket_address sink i a added)) = sockets_of added ∧
  (sockets_of w !! i = None →
   sockets_of (snd removed) = sockets_of w ∧ fst removed = Return None) ∧
  (∀ s, sockets_of w !! i = Some s → a ∉ s → s ≠ ∅ →
   sockets_of (snd removed) = sockets_of w ∧ fst removed = Return (Some s)).
Proof.
  cbn zeta. split; [|split].
  - rewrite !add_socket_address_map, lookup_insert_eq. cbn.
    rewrite insert_insert_eq. f_equal. set_solver.
  - intros Hnone.
    destruct (remove_socket_address_run sink w i a) as (Hres & _).
    rewrite Hres, remove_socket_address_map, Hnone. by rewrite Hnone.
  - intros s Hsome Hnotin Hne.
    destruct (remove_socket_address_run sink w i a) as (Hres & _).
    rewrite Hres, remove_socket_address_map, Hsome.
    assert (Hs : s ∖ {[a]} = s) by set_solver. rewrite Hs.
    rewrite bool_decide_eq_false_2.
    + rewrite insert_id by done. by rewrite Hsome.
    + intros Hsz. apply size_empty_inv in Hsz. apply leibniz_equiv in Hsz. done.
Qed.

(** The no-ops on the example table: [bob] has no entry, and [alice] is
    not connected from [office]. *)
Lemma socket_address_noops_witness :
  let sockets_of (w' : World ActiveMemory.Memory (gmap ID (gset SocketAddress)) unit) :=
    ActiveMemory._socket_address (mem w') in
  sockets_of (snd (ActiveTable.remove_socket_address MemoryLoginCache.sink "bob"
                     PresenceExample.home PresenceExample.w1))
  = sockets_of PresenceExample.w1 ∧
  fst (ActiveTable.remove_socket_address MemoryLoginCache.sink PresenceExample.alice
         PresenceExample.office PresenceExample.w1)
  = Return (Some (∅ ∪ {[PresenceExample.home]})).
Proof.
  cbn zeta. split.
  - apply (socket_address_noops MemoryLoginCache.sink PresenceExample.w1 "bob"
             PresenceExample.home).
    reflexivity.
  - destruct (socket_address_noops MemoryLoginCache.sink PresenceExample.w1
                PresenceExample.alice PresenceExample.office) as (_ & _ & Hkeep).
    apply (Hkeep (∅ ∪ {[PresenceExample.home]})).
    + reflexivity.
    + apply not_elem_of_union. split.
      * apply not_elem_of_empty.
      * apply not_elem_of_singleton. discriminate.
    + rewrite (left_id_L ∅ (∪)). apply non_empty_singleton_L.
Defined.

(** ** Contacts and command records: write-through and freshness check *)

Ltac solve_written_to_sinks :=
  unfold written_to_sinks; cbn [fst snd];
  unfold save; py_unfold; rewrite <- ?app_assoc;
  repeat apply conj; done.

Section WriteThrough.
Context {R D : Type}.
Context (_redis : UserSink.Interface R) (_dos : UserSink.Interface D).
Context (cfg : TaskConfig).
Implicit Types (w : World UserMemory.Memory R D) (content : Command).

Lemma ConTask_written_to_sinks user now content w :
  written_to_sinks (ConTask.save _redis _dos cfg user now content w) w
    (λ v, UserSink.save_contacts_command _redis v user)
    (λ v, UserSink.save_contacts_command _dos v user)
    "save_contacts_command" content.
Proof. unfold ConTask.save, ConTask._write_data. solve_written_to_sinks. Qed.

Lemma BloTask_written_to_sinks user now content w :
  written_to_sinks (BloTask.save _redis _dos cfg user now content w) w
    (λ v, UserSink.save_block_command _redis v user)
    (λ v, UserSink.save_block_command _dos v user)
    "save_block_command" content.
Proof. unfold BloTask.save, BloTask._write_data. solve_written_to_sinks. Qed.

Lemma MutTask_written_to_sinks user now content w :
  written_to_sinks (MutTask.save _redis _dos cfg user now content w) w
    (λ v, UserSink.save_mute_command _redis v user)
    (λ v, UserSink.save_mute_command _dos v user)
    "save_mute_command" content.
Proof. unfold MutTask.save, MutTask._write_data. solve_written_to_sinks. Qed.
End WriteThrough.

Section CommandWrites.
Context {R D : Type}.
Context (_redis : UserSink.Interface R) (_dos : UserSink.Interface D).
Context (cfg : TaskConfig) (is_before : option Z → option Z → bool).
Implicit Types (w : World UserMemory.Memory R D) (content : Command).

Lemma untimed_check content :
  untimed content →
  match time content with
  | Some t => bool_decide (t ≤ 0) = true
  | None => True
  end.
Proof.
  intros [Hnone | (t & Hsome & Ht)].
  - by rewrite Hnone.
  - rewrite Hsome. by apply bool_decide_eq_true_2.
Qed.

Lemma save_contacts_command_untimed content identifier now w :
  untimed content →
  UserTable.save_contacts_command _redis _dos cfg is_before content identifier now w
  = ConTask.save _redis _dos cfg identifier now content w.
Proof.
  intros Hu%untimed_check.
  unfold UserTable.save_contacts_command, UserTable._is_contacts_expired.
  destruct (time content) as [t|]; [rewrite Hu|]; done.
Qed.

Lemma save_block_command_untimed content identifier now w :
  untimed content →
  UserTable.save_block_command _redis _dos cfg is_before content identifier now w
  = BloTask.save _redis _dos cfg identifier now content w.
Proof.
  intros Hu%untimed_check.
  unfold UserTable.save_block_command, UserTable._is_blocked_expired.
  destruct (time content) as [t|]; [rewrite Hu|]; done.
Qed.

Lemma save_mute_command_untimed content identifier now w :
  untimed content →
  UserTable.save_mute_command _redis _dos cfg is_before content identifier now w
  = MutTask.save _redis _dos cfg identifier now content w.
Proof.
  intros Hu%untimed_check.
  unfold UserTable.save_mute_command, UserTable._is_muted_expired.
  destruct (time content) as [t|]; [rewrite Hu|]; done.
Qed.

Lemma get_block_command_returns identifier now w :
  ∃ v, fst (UserTable.get_block_command _redis _dos cfg identifier now w) = Return v.
Proof.
  unfold UserTable.get_block_command, BloTask.load, load, BloTask._read_data. py_unfold.
  destruct (fetch identifier now _) as [[v|] [|]]; cbn; eauto.
  all: destruct (UserSink.get_block_command _redis identifier (redis w)).1; cbn; eauto.
  all: destruct (UserSink.get_block_command _dos identifier (dos w)).1; cbn; eauto.
Qed.

Lemma get_mute_command_returns identifier now w :
  ∃ v, fst (UserTable.get_mute_command _redis _dos cfg identifier now w) = Return v.
Proof.
  unfold UserTable.get_mute_command, MutTask.load, load, MutTask._read_data. py_unfold.
  destruct (fetch identifier now _) as [[v|] [|]]; cbn; eauto.
  all: destruct (UserSink.get_mute_command _redis identifier (redis w)).1; cbn; eauto.
  all: destruct (UserSink.get_mute_command _dos identifier (dos w)).1; cbn; eauto.
Qed.

Lemma save_block_command_timed content identifier now w t :
  time content = Some t → 0 < t →
  UserTable.save_block_command _redis _dos cfg is_before content identifier now w
  = BloTask.save _redis _dos cfg identifier now content
      (snd (UserTable.get_block_command _redis _dos cfg identifier now w)).
Proof.
  intros Ht Hpos.
  unfold UserTable.save_block_command, UserTable._is_blocked_expired.
  rewrite Ht, bool_decide_eq_false_2 by lia. unfold bind at 1 2.
  destruct (get_block_command_returns identifier now w) as [v Hv].
  destruct (UserTable.get_block_command _redis _dos cfg identifier now w) as [res w1].
  cbn in Hv. subst res. destruct v as [o|]; cbn; [|done].
  by destruct (is_before (time o) (Some t)).
Qed.

Lemma save_mute_command_timed content identifier now w t :
  time content = Some t → 0 < t →
  UserTable.save_mute_command _redis _dos cfg is_before content identifier now w
  = MutTask.save _redis _dos cfg identifier now content
      (snd (UserTable.get_mute_command _redis _dos cfg identifier now w)).
Proof.
  intros Ht Hpos.
  unfold UserTable.save_mute_command, UserTable._is_muted_expired.
  rewrite Ht, bool_decide_eq_false_2 by lia. unfold bind at 1 2.
  destruct (get_mute_command_returns identifier now w) as [v Hv].
  destruct (UserTable.get_mute_command _redis _dos cfg identifier now w) as [res w1].
  cbn in Hv. subst res. destruct v as [o|]; cbn; [|done].
  by destruct (is_before (time o) (Some t)).
Qed.
End CommandWrites.

(** X6: a contacts, block or mute command that carries no time, or a time
    that is not positive, is written without any read of the stored
    command: both sinks are written once, and nothing else is awaited, and
    the result is the disjunction of their answers. *)
Theorem untimed_command_written_through {R D : Type}
    (_redis : UserSink.Interface R) (_dos : UserSink.Interface D)
    (cfg : TaskConfig) (is_before : option Z → option Z → bool)
    (content : Command) (identifier : ID) (now : Z) (w : World UserMemory.Memory R D) :
  untimed content →
  written_to_sinks
    (UserTable.save_contacts_command _redis _dos cfg is_before content identifier now w) w
    (λ v, UserSink.save_contacts_command _redis v identifier)
    (λ v, UserSink.save_contacts_command _dos v identifier)
    "save_contacts_command" content ∧
  written_to_sinks
    (UserTable.save_block_command _redis _dos cfg is_before content identifier now w) w
    (λ v, UserSink.save_block_command _redis v identifier)
    (λ v, UserSink.save_block_command _dos v identifier)
    "save_block_command" content ∧
  written_to_sinks
    (UserTable.save_mute_command _redis _dos cfg is_before content identifier now w) w
    (λ v, UserSink.save_mute_command _redis v identifier)
    (λ v, UserSink.save_mute_command _dos v identifier)
    "save_mute_command" content.
Proof.
  intros Hu. split; [|split].
  - rewrite save_contacts_command_untimed by done. apply ConTask_written_to_sinks.
  - rewrite save_block_command_untimed by done. apply BloTask_written_to_sinks.
  - rewrite save_mute_command_untimed by done. apply MutTask_written_to_sinks.
Qed.

(** A command of an old client is stored over the command sent at time
    100. *)
Lemma untimed_command_written_through_witness :
  let sink := MemoryUserSink.sink in
  let run := UserTable.save_contacts_command sink sink CommandExample.cfg
               (λ _ _, false) LegacyCommandExample.legacy CommandExample.alice 0
               CommandExample.stored100 in
  fst run = Return true ∧
  MemoryUserSink.contacts_command (redis (snd run)) !! CommandExample.alice
  = Some LegacyCommandExample.legacy ∧
  MemoryUserSink.contacts_command (dos (snd run)) !! CommandExample.alice
  = Some LegacyCommandExample.legacy.
Proof.
  cbn zeta.
  destruct (untimed_command_written_through MemoryUserSink.sink MemoryUserSink.sink
              CommandExample.cfg (λ _ _, false) LegacyCommandExample.legacy
              CommandExample.alice 0 CommandExample.stored100)
    as ((Hres & Hredis & Hdos & _) & _).
  - left. reflexivity.
  - split; [rewrite Hres; reflexivity|].
    split; [rewrite Hredis; reflexivity|rewrite Hdos; reflexivity].
Defined.

(** X7: a block or mute command with a positive time is written whatever
    the time of the stored command is: after the stored command has been
    read, both sinks are written once and the result is the disjunction of
    their answers. *)
Theorem timed_block_mute_command_written {R D : Type}
    (_redis : UserSink.Interface R) (_dos : UserSink.Interface D)
    (cfg : TaskConfig) (is_before : option Z → option Z → bool)
    (content : Command) (identifier : ID) (now t : Z)
    (w : World UserMemory.Memory R D) :
  time content = Some t → 0 < t →
  written_to_sinks
    (UserTable.save_block_command _redis _dos cfg is_before content identifier now w)
    (snd (UserTable.get_block_command _redis _dos cfg identifier now w))
    (λ v, UserSink.save_block_command _redis v identifier)
    (λ v, UserSink.save_block_command _dos v identifier)
    "save_block_command" content ∧
  written_to_sinks
    (UserTable.save_mute_command _redis _dos cfg is_before content identifier now w)
    (snd (UserTable.get_mute_command _redis _dos cfg identifier now w))
    (λ v, UserSink.save_mute_command _redis v identifier)
    (λ v, UserSink.save_mute_command _dos v identifier)
    "save_mute_command" content.
Proof.
  intros Ht Hpos. split.
  - rewrite (save_block_command_timed _ _ _ _ _ _ _ _ t) by done.
    apply BloTask_written_to_sinks.
  - rewrite (save_mute_command_timed _ _ _ _ _ _ _ _ t) by done.
    apply MutTask_written_to_sinks.
Qed.

(** The block command sent at time 50 is written over the one sent at time
    100, with a comparison that finds it older. *)
Lemma timed_block_mute_command_written_witness :
  let sink := MemoryUserSink.sink in
  let older (old new : option Z) :=
    match old, new with
    | Some o, Some n => bool_decide (n < o)
    | _, _ => false
    end in
  let incoming := CommandExample.cmd 50 [CommandExample.carol] in
  let run := UserTable.save_block_command sink sink CommandExample.cfg older incoming
               CommandExample.alice 0 CommandExample.stored100 in
  fst run = Return true ∧
  MemoryUserSink.block_command (redis (snd run)) !! CommandExample.alice = Some incoming ∧
  MemoryUserSink.block_command (dos (snd run)) !! CommandExample.alice = Some incoming.
Proof.
  cbn zeta.
  destruct (timed_block_mute_command_written MemoryUserSink.sink MemoryUserSink.sink
              CommandExample.cfg
              (λ old new, match old, new with
                          | Some o, Some n => bool_decide (n < o)
                          | _, _ => false
                          end)
              (CommandExample.cmd 50 [CommandExample.carol]) CommandExample.alice 0 50
              CommandExample.stored100)
    as ((Hres & Hredis & Hdos & _) & _).
  - reflexivity.
  - lia.
  - split; [rewrite Hres; reflexivity|].
    split; [rewrite Hredis; reflexivity|rewrite Hdos; reflexivity].
Defined.

(** ** The four pools of the user table *)

Section PoolFrames.
Context {L R D V X : Type}.
Context (getf : L → Pool V) (setf : Pool V → L → L) (other : L → X).
Context (cache_key : string) (cache_expires cache_refresh : Z).
Context (_read_data : M (World L R D) (option V)).
Context (_write_data : V → M (World L R D) bool).
Hypothesis other_setf : ∀ p m, other (setf p m) = other m.
Hypothesis read_mem : ∀ w, mem (snd (_read_data w)) = mem w.
Hypothesis write_mem : ∀ v w, mem (snd (_write_data v w)) = mem w.

Lemma load_other now w :
  other (mem (snd (load (λ w, getf (mem w)) (λ p, with_mem (setf p))
                     cache_key cache_expires cache_refresh _read_data now w)))
  = other (mem w).
Proof.
  unfold load. py_unfold.
  destruct (fetch cache_key now (getf (mem w))) as [[v|] [|]]; cbn; [|done| |].
  all: pose proof (read_mem w) as Hmem.
  all: destruct (_read_data w) as [[[found|]|e] w1]; cbn in *; rewrite ?other_setf;
    by rewrite ?Hmem.
Qed.

Lemma save_other now v w :
  other (mem (snd (save (λ w, getf (mem w)) (λ p, with_mem (setf p))
                     cache_key cache_expires cache_refresh _write_data now v w)))
  = other (mem w).
Proof.
  unfold save. py_unfold.
  pose proof (write_mem v (with_mem (setf (update cache_key (Some v) cache_expires
                                             cache_refresh now (getf (mem w)))) w))
    as Hmem.
  unfold with_mem in Hmem.
  destruct (_write_data v _) as [[ok|e] w1]; cbn in *; by rewrite Hmem, other_setf.
Qed.
End PoolFrames.

Ltac solve_read_mem :=
  intros w; py_unfold; repeat (case_match; cbn); done.

Section UserFrames.
Context {R D : Type}.
Context (_redis : UserSink.Interface R) (_dos : UserSink.Interface D).
Context (cfg : TaskConfig) (is_before : option Z → option Z → bool).
Implicit Types (w : World UserMemory.Memory R D) (content : Command).

Lemma UsrTask_read_mem user w :
  mem (snd (UsrTask._read_data _redis _dos user w)) = mem w.
Proof. revert w. unfold UsrTask._read_data. solve_read_mem. Qed.

Lemma ConTask_read_mem user w :
  mem (snd (ConTask._read_data _redis _dos user w)) = mem w.
Proof. revert w. unfold ConTask._read_data. solve_read_mem. Qed.

Lemma BloTask_read_mem user w :
  mem (snd (BloTask._read_data _redis _dos user w)) = mem w.
Proof. revert w. unfold BloTask._read_data. solve_read_mem. Qed.

Lemma MutTask_read_mem user w :
  mem (snd (MutTask._read_data _redis _dos user w)) = mem w.
Proof. revert w. unfold MutTask._read_data. solve_read_mem. Qed.

Lemma UsrTask_write_mem user v w :
  mem (snd (UsrTask._write_data _redis _dos user v w)) = mem w.
Proof. unfold UsrTask._write_data. by py_unfold. Qed.

Lemma ConTask_write_mem user v w :
  mem (snd (ConTask._write_data _redis _dos user v w)) = mem w.
Proof. unfold ConTask._write_data. by py_unfold. Qed.

Lemma BloTask_write_mem user v w :
  mem (snd (BloTask._write_data _redis _dos user v w)) = mem w.
Proof. unfold BloTask._write_data. by py_unfold. Qed.

Lemma MutTask_write_mem user v w :
  mem (snd (MutTask._write_data _redis _dos user v w)) = mem w.
Proof. unfold MutTask._write_data. by py_unfold. Qed.

(** A command either skips the freshness check or carries a positive
    time. *)
Lemma untimed_or_timed content : untimed content ∨ ∃ t, time content = Some t ∧ 0 < t.
Proof.
  unfold untimed. destruct (time content) as [t|]; [|by left; left].
  destruct (decide (t ≤ 0)); [left; right; eauto|right; exists t; split; [done|lia]].
Qed.

(** With a positive time the contacts command is never written: the state
    is the one the read of the stored command leaves. *)
Lemma save_contacts_command_timed content identifier now w t :
  time content = Some t → 0 < t →
  snd (UserTable.save_contacts_command _redis _dos cfg is_before content identifier now w)
  = snd (UserTable.get_contacts_command _redis _dos cfg identifier now w).
Proof.
  intros Ht Hpos.
  unfold UserTable.save_contacts_command, UserTable._is_contacts_expired.
  rewrite Ht, bool_decide_eq_false_2 by lia. unfold bind at 1 2.
  destruct (UserTable.get_contacts_command _redis _dos cfg identifier now w)
    as [[stored|e] w1]; [|done].
  unfold bind, lift.
  destruct (unpack2 (of_command stored)) as [[old rest]|e] eqn:Hunpack; [|done].
  cbn. rewrite (unpacked_is_not_None _ _ _ Hunpack).
  by rewrite (unpacked_has_no_time _ _ _ Hunpack).
Qed.
End UserFrames.

(** X8: the four kinds of user data live in four pools: writing the
    contacts, or a contacts, block or mute command, of an identifier leaves
    the three other pools of the table as they were. *)
Theorem user_pools_separate {R D : Type}
    (_redis : UserSink.Interface R) (_dos : UserSink.Interface D)
    (cfg : TaskConfig) (is_before : option Z → option Z → bool)
    (content : Command) (contacts : list ID) (identifier : ID) (now : Z)
    (w : World UserMemory.Memory R D) :
  let after_contacts :=
    mem (snd (UserTable.save_contacts _redis _dos cfg contacts identifier now w)) in
  let after_command :=
    mem (snd (UserTable.save_contacts_command _redis _dos cfg is_before content
                identifier now w)) in
  let after_block :=
    mem (snd (UserTable.save_block_command _redis _dos cfg is_before content
                identifier now w)) in
  let after_mute :=
    mem (snd (UserTable.save_mute_command _redis _dos cfg is_before content
                identifier now w)) in
  (UserMemory._cmd_contacts after_contacts = UserMemory._cmd_contacts (mem w) ∧
   UserMemory._cmd_block after_contacts = UserMemory._cmd_block (mem w) ∧
   UserMemory._cmd_mute after_contacts = UserMemory._cmd_mute (mem w)) ∧
  (UserMemory._cache after_command = UserMemory._cache (mem w) ∧
   UserMemory._cmd_block after_command = UserMemory._cmd_block (mem w) ∧
   UserMemory._cmd_mute after_command = UserMemory._cmd_mute (mem w)) ∧
  (UserMemory._cache after_block = UserMemory._cache (mem w) ∧
   UserMemory._cmd_contacts after_block = UserMemory._cmd_contacts (mem w) ∧
   UserMemory._cmd_mute after_block = UserMemory._cmd_mute (mem w)) ∧
  (UserMemory._cache after_mute = UserMemory._cache (mem w) ∧
   UserMemory._cmd_contacts after_mute = UserMemory._cmd_contacts (mem w) ∧
   UserMemory._cmd_block after_mute = UserMemory._cmd_block (mem w)).
Proof.
  cbn zeta.
  assert (Hcon_load : ∀ {X} (other : UserMemory.Memory → X),
    (∀ p m, other (UserMemory.set_cmd_contacts p m) = other m) → ∀ w',
    other (mem (snd (UserTable.get_contacts_command _redis _dos cfg identifier now w')))
    = other (mem w')).
  { intros X other Hother w'. unfold UserTable.get_contacts_command, ConTask.load.
    apply load_other; [done|apply ConTask_read_mem]. }
  assert (Hcon_save : ∀ {X} (other : UserMemory.Memory → X),
    (∀ p m, other (UserMemory.set_cmd_contacts p m) = other m) → ∀ w',
    other (mem (snd (ConTask.save _redis _dos cfg identifier now content w')))
    = other (mem w')).
  { intros X other Hother w'. unfold ConTask.save.
    apply save_other; [done|apply ConTask_write_mem]. }
  assert (Hblo_load : ∀ {X} (other : UserMemory.Memory → X),
    (∀ p m, other (UserMemory.set_cmd_block p m) = other m) → ∀ w',
    other (mem (snd (UserTable.get_block_command _redis _dos cfg identifier now w')))
    = other (mem w')).
  { intros X other Hother w'. unfold UserTable.get_block_command, BloTask.load.
    apply load_other; [done|apply BloTask_read_mem]. }
  assert (Hblo_save : ∀ {X} (other : UserMemory.Memory → X),
    (∀ p m, other (UserMemory.set_cmd_block p m) = other m) → ∀ w',
    other (mem (snd (BloTask.save _redis _dos cfg identifier now content w')))
    = other (mem w')).
  { intros X other Hother w'. unfold BloTask.save.
    apply save_other; [done|apply BloTask_write_mem]. }
  assert (Hmut_load : ∀ {X} (other : UserMemory.Memory → X),
    (∀ p m, other (UserMemory.set_cmd_mute p m) = other m) → ∀ w',
    other (mem (snd (UserTable.get_mute_command _redis _dos cfg identifier now w')))
    = other (mem w')).
  { intros X other Hother w'. unfold UserTable.get_mute_command, MutTask.load.
    apply load_other; [done|apply MutTask_read_mem]. }
  assert (Hmut_save : ∀ {X} (other : UserMemory.Memory → X),
    (∀ p m, other (UserMemory.set_cmd_mute p m) = other m) → ∀ w',
    other (mem (snd (MutTask.save _redis _dos cfg identifier now content w')))
    = other (mem w')).
  { intros X other Hother w'. unfold MutTask.save.
    apply save_other; [done|apply MutTask_write_mem]. }
  split; [|split; [|split]].
  - unfold UserTable.save_contacts, UsrTask.save.
    repeat split; apply save_other; (done || apply UsrTask_write_mem).
  - destruct (untimed_or_timed content) as [Hu | (t & Ht & Hpos)].
    + rewrite save_contacts_command_untimed by done.
      repeat split; by apply Hcon_save.
    + rewrite (save_contacts_command_timed _ _ _ _ _ _ _ _ t) by done.
      repeat split; by apply Hcon_load.
  - destruct (untimed_or_timed content) as [Hu | (t & Ht & Hpos)].
    + rewrite save_block_command_untimed by done.
      repeat split; by apply Hblo_save.
    + rewrite (save_block_command_timed _ _ _ _ _ _ _ _ t) by done.
      repeat split; (rewrite Hblo_save by done); by apply Hblo_load.
  - destruct (untimed_or_timed content) as [Hu | (t & Ht & Hpos)].
    + rewrite save_mute_command_untimed by done.
      repeat split; by apply Hmut_save.
    + rewrite (save_mute_command_timed _ _ _ _ _ _ _ _ t) by done.
      repeat split; (rewrite Hmut_save by done); by apply Hmut_load.
Qed.

(** ** Reads that stop at the volatile sink *)

Ltac solve_read_hit :=
  intros w v Hanswer Hpresent; py_unfold; rewrite Hanswer; cbn;
  try (destruct v as [|x v]; [done|]); done.

Section ReadHitFacts.
Context {R D : Type}.

Lemma UsrTask_read_hit (r : UserSink.Interface R) (d : UserSink.Interface D) user :
  read_hit (UsrTask._read_data r d user) (λ _, True)
    (UserSink.get_contacts r user) "get_contacts".
Proof. unfold UsrTask._read_data. intros w v Hanswer _. py_unfold. by rewrite Hanswer. Qed.

Lemma ConTask_read_hit (r : UserSink.Interface R) (d : UserSink.Interface D) user :
  read_hit (ConTask._read_data r d user) (λ _, True)
    (UserSink.get_contacts_command r user) "get_contacts_command".
Proof. unfold ConTask._read_data. intros w v Hanswer _. py_unfold. by rewrite Hanswer. Qed.

Lemma BloTask_read_hit (r : UserSink.Interface R) (d : UserSink.Interface D) user :
  read_hit (BloTask._read_data r d user) (λ _, True)
    (UserSink.get_block_command r user) "get_block_command".
Proof. unfold BloTask._read_data. intros w v Hanswer _. py_unfold. by rewrite Hanswer. Qed.

Lemma MutTask_read_hit (r : UserSink.Interface R) (d : UserSink.Interface D) user :
  read_hit (MutTask._read_data r d user) (λ _, True)
    (UserSink.get_mute_command r user) "get_mute_command".
Proof. unfold MutTask._read_data. intros w v Hanswer _. py_unfold. by rewrite Hanswer. Qed.

Lemma DocTask_read_hit (r : DocumentCache.Interface R)
    (d : DocumentStorage.Interface D) identifier :
  read_hit (DocTask._read_data r d identifier) (λ docs, docs ≠ [])
    (DocumentCache.load_documents r identifier) "load_documents".
Proof. unfold DocTask._read_data. solve_read_hit. Qed.

Lemma DevTask_read_hit {Info : Type} (r : DeviceSink.Interface Info R)
    (d : DeviceSink.Interface Info D) identifier :
  read_hit (DevTask._read_data r d identifier) (λ devices, devices ≠ [])
    (DeviceSink.get_devices r identifier) "get_devices".
Proof. unfold DevTask._read_data. solve_read_hit. Qed.
End ReadHitFacts.

(** X9: when the volatile sink has a value for the key, [_read_data]
    returns it after that single call: the durable sink is not asked and
    nothing is written.  For contacts and commands any value counts, also an
    empty contacts list; for documents and devices the list must be
    non-empty. *)
Theorem task_read_hit {UR UD DR DD VR VD Info : Type}
    (user_redis : UserSink.Interface UR) (user_dos : UserSink.Interface UD)
    (doc_redis : DocumentCache.Interface DR) (doc_dos : DocumentStorage.Interface DD)
    (dev_redis : DeviceSink.Interface Info VR) (dev_dos : DeviceSink.Interface Info VD)
    (identifier : ID) :
  read_hit (UsrTask._read_data user_redis user_dos identifier) (λ _, True)
    (UserSink.get_contacts user_redis identifier) "get_contacts" ∧
  read_hit (ConTask._read_data user_redis user_dos identifier) (λ _, True)
    (UserSink.get_contacts_command user_redis identifier) "get_contacts_command" ∧
  read_hit (BloTask._read_data user_redis user_dos identifier) (λ _, True)
    (UserSink.get_block_command user_redis identifier) "get_block_command" ∧
  read_hit (MutTask._read_data user_redis user_dos identifier) (λ _, True)
    (UserSink.get_mute_command user_redis identifier) "get_mute_command" ∧
  read_hit (DocTask._read_data doc_redis doc_dos identifier) (λ docs, docs ≠ [])
    (DocumentCache.load_documents doc_redis identifier) "load_documents" ∧
  read_hit (DevTask._read_data dev_redis dev_dos identifier) (λ devices, devices ≠ [])
    (DeviceSink.get_devices dev_redis identifier) "get_devices".
Proof.
  repeat apply conj;
    auto using UsrTask_read_hit, ConTask_read_hit, BloTask_read_hit,
      MutTask_read_hit, DocTask_read_hit, DevTask_read_hit.
Qed.

(** The volatile sink holds an empty contacts list for [alice] while the
    durable sink holds [bob]: the empty list is the answer. *)
Lemma task_read_hit_witness :
  let w := mkWorld (mem CascadeExample.contacts_on_disk)
             (MemoryUserSink.mkState true {[CascadeExample.alice := []]} ∅ ∅ ∅)
             (dos CascadeExample.contacts_on_disk) [] in
  UsrTask._read_data MemoryUserSink.sink MemoryUserSink.sink CascadeExample.alice w
  = (Return (Some []),
     mkWorld (mem w) (redis w) (dos w) [(Redis, "get_contacts"%string)]).
Proof.
  cbn zeta.
  destruct (task_read_hit MemoryUserSink.sink MemoryUserSink.sink
              MemoryDocumentSink.cache MemoryDocumentSink.storage
              MemoryDeviceSink.sink MemoryDeviceSink.sink CascadeExample.alice)
    as (Husr & _).
  match goal with
  | |- UsrTask._read_data _ _ _ ?w = _ => rewrite (Husr w []); [|reflexivity|done]
  end.
  reflexivity.
Defined.

(** ** Neighbour stations *)

Section NeighborFacts.
Import Neighbors.
Context {S Info Node : Type} `{HasAddress Info, HasAddress Node}.
Context (database : Interface S Info).

(** The inner loop finds an item exactly when the address is listed. *)
Lemma found_among_listed {A B : Type} `{HasAddress A, HasAddress B}
    (target : A) (items : list B) :
  found_among target items = bool_decide (listed target items).
Proof.
  unfold listed. induction items as [|item items IH]; cbn.
  - symmetry. apply bool_decide_eq_false. by intros ?%elem_of_nil.
  - rewrite IH. destruct (decide (address target = address item)) as [Heq|Hne].
    + unfold address in Heq. injection Heq as Hh Hp. rewrite Hh, Hp.
      rewrite !bool_decide_eq_true_2 by done. cbn.
      symmetry. apply bool_decide_eq_true. unfold address. rewrite Hh, Hp.
      apply elem_of_cons. by left.
    + assert (bool_decide (port item = port target) && bool_decide (host item = host target)
              = false) as ->.
      { apply andb_false_iff.
        destruct (decide (port item = port target)) as [Hp|Hp];
          [|left; by apply bool_decide_eq_false].
        destruct (decide (host item = host target)) as [Hh|Hh];
          [|right; by apply bool_decide_eq_false].
        exfalso. apply Hne. unfold address. by rewrite Hh, Hp. }
      apply bool_decide_ext. rewrite elem_of_cons. naive_solver.
Qed.

(** A loop whose body makes one call for the items of a kind, and none for
    the others, makes the calls of the items of that kind, in order. *)
Lemma for_each_calls {A : Type} (items : list A) (body : A → M (State (S := S)) unit)
    (Q : A → Prop) `{∀ x, Decision (Q x)} (call : A → Call) :
  (∀ x st, fst (body x st) = Return tt ∧
           snd (snd (body x st)) = snd st ++ (if decide (Q x) then [call x] else [])) →
  ∀ st, fst (for_each items body st) = Return tt ∧
        snd (snd (for_each items body st)) = snd st ++ (call <$> filter Q items).
Proof.
  intros Hbody. induction items as [|x items IH]; intros st.
  - cbn. by rewrite app_nil_r.
  - cbn [for_each]. unfold bind.
    destruct (Hbody x st) as [Hres Hlog].
    destruct (body x st) as [[[]|e] st'] eqn:Hrun; cbn in Hres, Hlog; [|done].
    destruct (IH st') as [Hres' Hlog']. split; [done|].
    rewrite Hlog', Hlog, filter_cons. destruct (decide (Q x)); cbn.
    + by rewrite <- app_assoc.
    + by rewrite app_nil_r.
Qed.
End NeighborFacts.

(** X11: [refresh_neighbors] returns the configured neighbours.  With no
    neighbour configured it does not touch the session database; otherwise it
    lists the stored stations once, then removes exactly the stored stations
    whose address is not the one of a neighbour, then adds exactly the
    neighbours whose address is not the one of a station of that first
    listing, each in the order of its list. *)
Theorem refresh_neighbors_calls {S Info Node : Type}
    `{Neighbors.HasAddress Info, Neighbors.HasAddress Node}
    (database : Neighbors.Interface S Info)
    (neighbors : list Node) (s : S) (log : list Neighbors.Call) :
  let old_stations := fst (Neighbors.all_stations database s) in
  let run := Neighbors.refresh_neighbors database neighbors (s, log) in
  fst run = Return neighbors ∧
  snd (snd run) =
    log ++
    match neighbors with
    | [] => []
    | _ =>
        Neighbors.AllStations ::
        ((λ old, Neighbors.RemoveStation (Neighbors.host old) (Neighbors.port old))
           <$> filter (λ old, ¬ listed old neighbors) old_stations) ++
        ((λ node, Neighbors.AddStation (Neighbors.host node) (Neighbors.port node))
           <$> filter (λ node, ¬ listed node old_stations) neighbors)
    end.
Proof.
  cbn zeta.
  enough (∃ s', Neighbors.refresh_neighbors database neighbors (s, log)
                = (Return neighbors,
                   (s', log ++
                        match neighbors with
                        | [] => []
                        | _ =>
                            Neighbors.AllStations ::
                            ((λ old, Neighbors.RemoveStation (Neighbors.host old)
                                       (Neighbors.port old))
                               <$> filter (λ old, ¬ listed old neighbors)
                                     (fst (Neighbors.all_stations database s))) ++
                            ((λ node, Neighbors.AddStation (Neighbors.host node)
                                        (Neighbors.port node))
                               <$> filter (λ node, ¬ listed node
                                             (fst (Neighbors.all_stations database s)))
                                     neighbors)
                        end))) as [s' ->]; [done|].
  unfold Neighbors.refresh_neighbors.
  destruct neighbors as [|n neighbors].
  { exists s. cbn. by rewrite app_nil_r. }
  set (ns := n :: neighbors).
  rewrite bool_decide_eq_true_2 by (cbn; lia).
  unfold bind at 1. unfold bind at 1. unfold Neighbors.await at 1. cbn [fst snd].
  set (old_stations := fst (Neighbors.all_stations database s)).
  set (st1 := (snd (Neighbors.all_stations database s), log ++ [Neighbors.AllStations])).
  unfold bind at 1.
  pose proof (for_each_calls (S := S) old_stations
    (λ old, if negb (Neighbors.found_among old ns)
            then (Neighbors.await
                    (Neighbors.RemoveStation (Neighbors.host old) (Neighbors.port old))
                    (Neighbors.remove_station database (Neighbors.host old)
                       (Neighbors.port old)) ;; ret tt)%py
            else ret tt)
    (λ old, ¬ listed old ns)
    (λ old, Neighbors.RemoveStation (Neighbors.host old) (Neighbors.port old))) as Hrm.
  destruct (Hrm) with (st := st1) as [Hres1 Hlog1].
  { intros x st. rewrite found_among_listed.
    destruct (decide (listed x ns)) as [Hl|Hl].
    - rewrite bool_decide_eq_true_2 by done. cbn.
      destruct (decide (¬ listed x ns)); [done|]. by rewrite app_nil_r.
    - rewrite bool_decide_eq_false_2 by done. cbn.
      by destruct (decide (¬ listed x ns)). }
  clear Hrm.
  match goal with
  | |- context [Neighbors.for_each old_stations ?b st1] =>
      destruct (Neighbors.for_each old_stations b st1) as [[[]|e] st2] eqn:Hrun1
  end; cbn [fst snd] in Hres1, Hlog1; [|done].
  pose proof (for_each_calls (S := S) ns
    (λ node, if Neighbors.found_among node old_stations
             then ret tt
             else (Neighbors.await
                     (Neighbors.AddStation (Neighbors.host node) (Neighbors.port node))
                     (Neighbors.add_station database (Neighbors.host node)
                        (Neighbors.port node)) ;; ret tt)%py)
    (λ node, ¬ listed node old_stations)
    (λ node, Neighbors.AddStation (Neighbors.host node) (Neighbors.port node))) as Hadd.
  destruct (Hadd) with (st := st2) as [Hres2 Hlog2].
  { intros x st. rewrite found_among_listed.
    destruct (decide (listed x old_stations)) as [Hl|Hl].
    - rewrite bool_decide_eq_true_2 by done. cbn.
      destruct (decide (¬ listed x old_stations)); [done|]. by rewrite app_nil_r.
    - rewrite bool_decide_eq_false_2 by done. cbn.
      by destruct (decide (¬ listed x old_stations)). }
  clear Hadd.
  match goal with
  | |- context [Neighbors.for_each ns ?b st2] =>
      destruct (Neighbors.for_each ns b st2) as [[[]|e] [s3 log3]] eqn:Hrun2
  end; cbn [fst snd] in Hres2, Hlog2; [|done].
  exists s3. unfold ret. do 2 f_equal.
  rewrite Hlog2, Hlog1. unfold st1. cbn [snd]. by rewrite <- !app_assoc.
Qed.

(** ** Choice of the configuration file *)

Lemma check_options_outcome (opts : list (string * string)) (ini_file : option string) :
  CreateConfig.check_options opts ini_file =
    if bool_decide (Forall (λ o, o.1 = "--config"%string) opts)
    then CreateConfig.Loaded (match last opts with
                              | Some o => Some o.2
                              | None => ini_file
                              end)
    else CreateConfig.Exit 0.
Proof.
  revert ini_file. induction opts as [|[opt arg] opts IH]; intros ini_file; [done|].
  cbn [CreateConfig.check_options].
  destruct (decide (opt = "--config"%string)) as [->|Hopt].
  - rewrite (bool_decide_eq_true_2 ("--config"%string = "--config"%string)) by done.
    rewrite IH.
    destruct (decide (Forall (λ o, o.1 = "--config"%string) opts)) as [Hall|Hall].
    + rewrite !bool_decide_eq_true_2 by (try constructor; done).
      rewrite last_cons. by destruct (last opts).
    + rewrite !bool_decide_eq_false_2; [done|by intros [_ ?]%Forall_cons_1|done].
  - rewrite (bool_decide_eq_false_2 (opt = "--config"%string)) by done.
    rewrite bool_decide_eq_false_2; [done|]. by intros [? _]%Forall_cons_1.
Qed.

(** X12: [create_config] exits with status 1 when the command line does not
    parse, and with status 0 (after the help) as soon as one parsed option
    is not [--config], whatever was given before it.  Otherwise the file is
    the argument of the last [--config], or the default one without any;
    a file that does not exist exits with status 0, and an existing file is
    the one loaded. *)
Theorem create_config_outcome {Config : Type}
    (getopt : list string → option (list (string * string)))
    (exists_ : string → bool) (load_config : string → Config)
    (argv : list string) (default_config : string) :
  CreateConfig.create_config getopt exists_ load_config argv default_config =
    match getopt (tail argv) with
    | None => CreateConfig.Exit 1
    | Some opts =>
        if bool_decide (Forall (λ o, o.1 = "--config"%string) opts) then
          let ini_file := default default_config (last opts.*2) in
          if exists_ ini_file then CreateConfig.Loaded (load_config ini_file)
          else CreateConfig.Exit 0
        else CreateConfig.Exit 0
    end.
Proof.
  unfold CreateConfig.create_config.
  destruct (getopt (tail argv)) as [opts|]; [|done].
  rewrite check_options_outcome. case_bool_decide; [|done].
  rewrite fmap_last. cbn zeta.
  destruct (last opts) as [[opt arg]|]; cbn; by destruct (exists_ _).
Qed.
(** ** Documents: first documents, invalid documents, the scan *)

Section DocumentMore.
Context {R D : Type}.
Context (_redis : DocumentCache.Interface R) (_dos : DocumentStorage.Interface D).
Context (cfg : TaskConfig) (utils : DocumentUtils.Interface).
Implicit Types (w : World DocTask.Memory R D) (document : Document).

Lemma DocTask_written_to_sinks identifier now docs w :
  written_to_sinks (DocTask.save _redis _dos cfg identifier now docs w) w
    (λ v, DocumentCache.save_documents _redis v identifier)
    (λ v, DocumentStorage.save_documents _dos v identifier)
    "save_documents" docs.
Proof. unfold DocTask.save, DocTask._write_data. solve_written_to_sinks. Qed.

(** Without a stored document to compare with, the incoming document is
    appended to the list as it is. *)
Lemma save_document_append document now w my_documents w1 :
  Document.valid document = true →
  DocumentTable.get_documents _redis _dos cfg (Document.identifier document) now w
  = (Return my_documents, w1) →
  no_comparable utils my_documents document →
  DocumentTable.save_document _redis _dos cfg utils document now w
  = DocTask.save _redis _dos cfg (Document.identifier document) now
      (my_documents ++ [document])
      (with_mem (appended document (my_documents ++ [document]) now) w1).
Proof.
  intros Hvalid Hget [Hlast Hprofile]. unfold DocumentTable.save_document.
  rewrite Hvalid. cbn [negb]. cbn zeta. unfold bind at 1. rewrite Hget.
  rewrite Hlast.
  assert (Hold : (if bool_decide (DocumentUtils.get_document_type utils document
                                  = Some DocumentType.VISA)
                  then DocumentUtils.last_document utils my_documents
                         (Some "profile"%string)
                  else None) = None).
  { case_bool_decide as Hvisa; [by apply Hprofile|done]. }
  rewrite Hold. unfold appended. py_unfold.
  by destruct (fetch ScanTask.ALL_KEY now _) as [[all|] b].
Qed.

End DocumentMore.

(** X13: [save_document] refuses an invalid document with an
    [AssertionError] before anything is read.  A valid document with no
    stored document to compare with (none of its type and, for a visa, no
    profile either) is appended to the identifier's list: the new list is
    written to both sinks, once each, the result is the disjunction of
    their answers, and a usable [all_documents] entry gets the document
    appended. *)
Theorem save_document_first {R D : Type}
    (_redis : DocumentCache.Interface R) (_dos : DocumentStorage.Interface D)
    (cfg : TaskConfig) (utils : DocumentUtils.Interface)
    (document : Document) (now : Z) (w w1 : World DocTask.Memory R D)
    (my_documents : list Document) :
  let identifier := Document.identifier document in
  let docs' := my_documents ++ [document] in
  let run := DocumentTable.save_document _redis _dos cfg utils document now w in
  let volatile := DocumentCache.save_documents _redis docs' identifier (redis w1) in
  let durable := DocumentStorage.save_documents _dos docs' identifier (dos w1) in
  (Document.valid document = false → run = (Raise AssertionError, w)) ∧
  (Document.valid document = true →
   DocumentTable.get_documents _redis _dos cfg identifier now w = (Return my_documents, w1) →
   no_comparable utils my_documents document →
   fst run = Return (fst volatile || fst durable) ∧
   redis (snd run) = snd volatile ∧
   dos (snd run) = snd durable ∧
   trace (snd run)
   = trace w1 ++ [(Redis, "save_documents"%string); (Dos, "save_documents"%string)] ∧
   (∀ all b, identifier ≠ ScanTask.ALL_KEY →
      fetch ScanTask.ALL_KEY now (mem w1) = (Some all, b) →
      fetch ScanTask.ALL_KEY now (mem (snd run)) = (Some (all ++ [document]), b))).
Proof.
  cbn zeta. split.
  - intros Hvalid. unfold DocumentTable.save_document. by rewrite Hvalid.
  - intros Hvalid Hget Hno.
    rewrite (save_document_append _redis _dos cfg utils document now w my_documents w1)
      by done.
    destruct (DocTask_written_to_sinks _redis _dos cfg (Document.identifier document) now
                (my_documents ++ [document])
                (with_mem (appended document (my_documents ++ [document]) now) w1))
      as (Hres & Hredis & Hdos & Htrace).
    repeat apply conj; try done.
    intros all b Hne Hfetch. rewrite DocTask_save_mem.
    rewrite fetch_update_ne by done. cbn [mem with_mem].
    rewrite fetch_appended_scan by done. by rewrite Hfetch.
Qed.

(** The first visa of a user nobody has stored a document for. *)
Lemma save_document_first_witness :
  let w := mkWorld (∅ : DocTask.Memory) (MemoryDocumentSink.empty true)
             (MemoryDocumentSink.empty true) [] in
  let save document :=
    DocumentTable.save_document MemoryDocumentSink.cache MemoryDocumentSink.storage
      DocumentExample.cfg ReferenceDocumentUtils.utils document 0 w in
  let visa := DocumentExample.visa 100 "v100" in
  fst (save visa) = Return true ∧
  MemoryDocumentSink.documents (redis (snd (save visa))) !! DocumentExample.alice
  = Some [visa] ∧
  MemoryDocumentSink.documents (dos (snd (save visa))) !! DocumentExample.alice
  = Some [visa].
Proof.
  cbn zeta.
  destruct (save_document_first MemoryDocumentSink.cache MemoryDocumentSink.storage
              DocumentExample.cfg ReferenceDocumentUtils.utils
              (DocumentExample.visa 100 "v100") 0
              (mkWorld (∅ : DocTask.Memory) (MemoryDocumentSink.empty true)
                 (MemoryDocumentSink.empty true) [])
              (mkWorld (∅ : DocTask.Memory) (MemoryDocumentSink.empty true)
                 (MemoryDocumentSink.empty true)
                 [(Redis, "load_documents"%string); (Dos, "load_documents"%string)])
              [])
    as [_ Hfirst].
  destruct Hfirst as (Hres & Hredis & Hdos & _).
  - reflexivity.
  - reflexivity.
  - split; [reflexivity|]. intros _. reflexivity.
  - split; [rewrite Hres; reflexivity|].
    split; [rewrite Hredis; reflexivity|rewrite Hdos; reflexivity].
Defined.

(** ** Devices *)

Section DeviceFacts.
Context {DeviceInfo R D : Type}.
Context (_redis : DeviceSink.Interface DeviceInfo R).
Context (_dos : DeviceSink.Interface DeviceInfo D).
Context (cfg : TaskConfig).
Implicit Types (w : World (Pool (list DeviceInfo)) R D).

Lemma DevTask_written_to_sinks identifier now devices w :
  written_to_sinks (DevTask.save _redis _dos cfg identifier now devices w) w
    (λ v, DeviceSink.save_devices _redis v identifier)
    (λ v, DeviceSink.save_devices _dos v identifier)
    "save_devices" devices.
Proof. unfold DevTask.save, DevTask._write_data. solve_written_to_sinks. Qed.
End DeviceFacts.

(** X15: [add_device] reads the identifier's devices first.  With none
    known the list made of the new device alone is written; when
    [insert_device] refuses the device the answer is [False] and nothing is
    written; otherwise the list [insert_device] made is written.  A list
    that is written goes to both sinks, once each, and the result is the
    disjunction of their answers. *)
Theorem add_device_outcome {DeviceInfo R D : Type}
    (_redis : DeviceSink.Interface DeviceInfo R) (_dos : DeviceSink.Interface DeviceInfo D)
    (cfg : TaskConfig)
    (insert_device : DeviceInfo → list DeviceInfo → option (list DeviceInfo))
    (device : DeviceInfo) (identifier : ID) (now : Z)
    (w w1 : World (Pool (list DeviceInfo)) R D) (stored : option (list DeviceInfo)) :
  let run := DeviceTable.add_device _redis _dos cfg insert_device device identifier now w in
  let written devices :=
    written_to_sinks run w1
      (λ v, DeviceSink.save_devices _redis v identifier)
      (λ v, DeviceSink.save_devices _dos v identifier)
      "save_devices" devices in
  DeviceTable.get_devices _redis _dos cfg identifier now w = (Return stored, w1) →
  match stored with
  | None => written [device]
  | Some array =>
      match insert_device device array with
      | None => run = (Return false, w1)
      | Some array' => written array'
      end
  end.
Proof.
  cbn zeta. intros Hget.
  assert (Hrun : DeviceTable.add_device _redis _dos cfg insert_device device identifier now w
            = match stored with
              | None => DeviceTable.save_devices _redis _dos cfg [device] identifier now w1
              | Some array =>
                  match insert_device device array with
                  | None => (Return false, w1)
                  | Some array' =>
                      DeviceTable.save_devices _redis _dos cfg array' identifier now w1
                  end
              end).
  { unfold DeviceTable.add_device. unfold bind at 1. rewrite Hget.
    destruct stored as [array|]; [|done]. by destruct (insert_device device array). }
  rewrite Hrun. destruct stored as [array|].
  - destruct (insert_device device array) as [array'|]; [|done].
    apply DevTask_written_to_sinks.
  - apply DevTask_written_to_sinks.
Qed.

(** The first device of a user, with a merge that keeps the newest device
    in front. *)
Lemma add_device_outcome_witness :
  let w := mkWorld (∅ : Pool (list string)) (∅ : gmap ID (list string))
             (∅ : gmap ID (list string)) [] in
  let run := DeviceTable.add_device MemoryDeviceSink.sink MemoryDeviceSink.sink
               DocumentExample.cfg (λ device array, Some (device :: array))
               "phone"%string DocumentExample.alice 0 w in
  fst run = Return true ∧
  redis (snd run) !! DocumentExample.alice = Some ["phone"%string] ∧
  dos (snd run) !! DocumentExample.alice = Some ["phone"%string].
Proof.
  cbn zeta.
  pose proof (add_device_outcome MemoryDeviceSink.sink MemoryDeviceSink.sink
                DocumentExample.cfg (λ device array, Some (device :: array))
                "phone"%string DocumentExample.alice 0
                (mkWorld (∅ : Pool (list string)) (∅ : gmap ID (list string))
                   (∅ : gmap ID (list string)) [])
                (mkWorld (∅ : Pool (list string)) (∅ : gmap ID (list string))
                   (∅ : gmap ID (list string))
                   [(Redis, "get_devices"%string); (Dos, "get_devices"%string)])
                None) as Hadd.
  cbn zeta in Hadd.
  destruct Hadd as (Hres & Hredis & Hdos & _).
  - reflexivity.
  - split; [rewrite Hres; reflexivity|].
    split; [rewrite Hredis; reflexivity|rewrite Hdos; reflexivity].
Defined.

(** ** The storage command processor *)

Section ProcessorFacts.
Context {R D : Type}.
Context (_redis : UserSink.Interface R) (_dos : UserSink.Interface D).
Context (cfg : TaskConfig) (is_before : option Z → option Z → bool).
Implicit Types (w : World UserMemory.Memory R D) (content : Command).

(** With a positive time the freshness check ends [save_contacts_command]
    with its exception. *)
Lemma save_contacts_command_raises content identifier now w t :
  time content = Some t → 0 < t →
  ∃ e, fst (UserTable.save_contacts_command _redis _dos cfg is_before content identifier
              now w) = Raise e.
Proof.
  intros Ht Hpos.
  destruct (_is_contacts_expired_raises _redis _dos cfg is_before identifier content now w t
              Ht Hpos) as [e He].
  exists e. unfold UserTable.save_contacts_command, bind.
  destruct (UserTable._is_contacts_expired _redis _dos cfg is_before identifier content
              now w) as [[res|e'] w1]; cbn in He; [done|]. by injection He as ->.
Qed.
End ProcessorFacts.

(** X16: what the storage processor answers to a contacts command.  A
    query (no data and no [contacts] entry) is answered with the stored
    command of the sender as it is, or with the receipt [Contacts not
    found.] when there is none.  An upload that carries no time, or a time
    that is not positive, is written to both sinks and answered with
    [Contacts received.] when one of them accepted it, and with [Contacts
    not changed.] otherwise.  An upload that carries a positive time gets no
    answer: the processor ends with an exception, in the state the read of
    the stored command left. *)
Theorem process_content_contacts {R D : Type}
    (_redis : UserSink.Interface R) (_dos : UserSink.Interface D)
    (cfg : TaskConfig) (is_before : option Z → option Z → bool)
    (title : Command → string) (data : Command → option string) (CONTACTS : string)
    (content : Command) (sender : ID) (now : Z) (w : World UserMemory.Memory R D) :
  let run :=
    StorageCommandProcessor.process_content _redis _dos cfg is_before title data CONTACTS
      content sender now w in
  let query := UserTable.get_contacts_command _redis _dos cfg sender now w in
  let volatile := UserSink.save_contacts_command _redis content sender (redis w) in
  let durable := UserSink.save_contacts_command _dos content sender (dos w) in
  title content = CONTACTS →
  (data content = None → get "contacts" content = None →
   snd run = snd query ∧
   fst run
   = (λ stored,
        match stored with
        | Some stored => [StorageCommandProcessor.Stored stored]
        | None =>
            [StorageCommandProcessor.Receipt "Contacts not found."
               "Contacts not found: ${did}."]
        end) <$> fst query) ∧
  (data content ≠ None ∨ get "contacts" content ≠ None →
   (untimed content →
    fst run
    = Return [if fst volatile || fst durable
              then StorageCommandProcessor.Receipt "Contacts received."
                     "Contacts received: ${did}."
              else StorageCommandProcessor.Receipt "Contacts not changed."
                     "Contacts not changed: ${did}."] ∧
    redis (snd run) = snd volatile ∧
    dos (snd run) = snd durable) ∧
   (∀ t, time content = Some t → 0 < t →
      (∃ e, fst run = Raise e) ∧ snd run = snd query)).
Proof.
  cbn zeta. intros Htitle. unfold StorageCommandProcessor.process_content.
  rewrite (bool_decide_eq_true_2 _ Htitle). split.
  - intros Hdata Hkey. rewrite !bool_decide_eq_true_2 by done. cbn [andb].
    unfold StorageCommandProcessor.db_get_contacts_command, bind.
    by destruct (UserTable.get_contacts_command _redis _dos cfg sender now w)
      as [[[stored|]|e] w1].
  - intros Hupload.
    assert (Hcond : bool_decide (data content = None)
                    && bool_decide (get "contacts" content = None) = false).
    { apply andb_false_iff.
      destruct Hupload; [left|right]; by apply bool_decide_eq_false_2. }
    rewrite Hcond. unfold StorageCommandProcessor.db_save_contacts_command. split.
    + intros Hu. unfold bind.
      rewrite (save_contacts_command_untimed _redis _dos cfg is_before content sender now w Hu).
      unfold ConTask.save, save, ConTask._write_data. py_unfold.
      by destruct (fst (UserSink.save_contacts_command _redis content sender (redis w))
                   || fst (UserSink.save_contacts_command _dos content sender (dos w))).
    + intros t Ht Hpos.
      destruct (save_contacts_command_raises _redis _dos cfg is_before content sender now w t
                  Ht Hpos) as [e He].
      pose proof (save_contacts_command_timed _redis _dos cfg is_before content sender now w t
                    Ht Hpos) as Hstate.
      unfold bind.
      destruct (UserTable.save_contacts_command _redis _dos cfg is_before content sender
                  now w) as [[saved|e'] w1]; cbn in He, Hstate; [done|].
      split; [by exists e'|done].
Qed.

(** An old client uploads its contacts, without a time, then asks for them. *)
Lemma process_content_contacts_witness :
  let process content w :=
    StorageCommandProcessor.process_content MemoryUserSink.sink MemoryUserSink.sink
      CommandExample.cfg (λ _ _, false)
      (λ content, match get "command" content with Some (Str s) => s | _ => "" end)
      (λ _, None) "contacts" content CommandExample.alice 0 w in
  let upload := process LegacyCommandExample.legacy CommandExample.empty in
  fst upload
  = Return [StorageCommandProcessor.Receipt "Contacts received."
              "Contacts received: ${did}."] ∧
  fst (process [("type", Str "command"); ("command", Str "contacts")]%string (snd upload))
  = Return [StorageCommandProcessor.Stored LegacyCommandExample.legacy].
Proof.
  cbn zeta. split.
  - destruct (process_content_contacts MemoryUserSink.sink MemoryUserSink.sink
                CommandExample.cfg (λ _ _, false)
                (λ content, match get "command" content with Some (Str s) => s | _ => "" end)
                (λ _, None) "contacts" LegacyCommandExample.legacy CommandExample.alice 0
                CommandExample.empty) as [_ Hupload]; [reflexivity|].
    destruct Hupload as [Huntimed _]; [right; discriminate|].
    destruct Huntimed as (Hres & _); [left; reflexivity|].
    rewrite Hres. reflexivity.
  - match goal with
    | |- fst (StorageCommandProcessor.process_content _ _ _ _ ?title ?data _ ?content _ _ ?w)
         = _ =>
        destruct (process_content_contacts MemoryUserSink.sink MemoryUserSink.sink
                    CommandExample.cfg (λ _ _, false) title data "contacts" content
                    CommandExample.alice 0 w) as [Hquery _]; [reflexivity|]
    end.
    destruct Hquery as [_ Hres]; [reflexivity|reflexivity|].
    rewrite Hres. reflexivity.
Defined.
Section CallFacts.
Context {L R D : Type}.
Implicit Types (allowed : list Call) (w : World L R D).

Lemma only_calls_ret {A : Type} allowed (a : A) :
  only_calls (L := L) (R := R) (D := D) allowed (ret a).
Proof. intros w. exists []. split; [by rewrite app_nil_r|set_solver]. Qed.

Lemma only_calls_raise {A : Type} allowed e :
  only_calls (L := L) (R := R) (D := D) (A := A) allowed (raise e).
Proof. intros w. exists []. split; [by rewrite app_nil_r|set_solver]. Qed.

Lemma only_calls_gets {A : Type} allowed (f : World L R D → A) :
  only_calls allowed (gets f).
Proof. intros w. exists []. split; [by rewrite app_nil_r|set_solver]. Qed.

Lemma only_calls_modify allowed (f : World L R D → World L R D) :
  (∀ w, trace (f w) = trace w) → only_calls allowed (modify f).
Proof.
  intros Hf w. exists []. split; [|set_solver]. cbn. by rewrite Hf, app_nil_r.
Qed.

Lemma only_calls_bind {A B : Type} allowed (m : M (World L R D) A)
    (k : A → M (World L R D) B) :
  only_calls allowed m → (∀ a, only_calls allowed (k a)) → only_calls allowed (bind m k).
Proof.
  intros Hm Hk w. unfold bind. destruct (Hm w) as (calls & Htrace & Hsub).
  destruct (m w) as [[a|e] w1]; cbn [snd] in Htrace.
  - destruct (Hk a w1) as (calls' & Htrace' & Hsub').
    exists (calls ++ calls'). split; [|set_solver].
    by rewrite Htrace', Htrace, app_assoc.
  - by exists calls.
Qed.

Lemma only_calls_call_redis {A : Type} allowed name (op : R → A * R) :
  (Redis, name) ∈ allowed → only_calls (L := L) (D := D) allowed (call_redis name op).
Proof. intros Hin w. exists [(Redis, name)]. split; [done|set_solver]. Qed.

Lemma only_calls_call_dos {A : Type} allowed name (op : D → A * D) :
  (Dos, name) ∈ allowed → only_calls (L := L) (R := R) allowed (call_dos name op).
Proof. intros Hin w. exists [(Dos, name)]. split; [done|set_solver]. Qed.

(** The load of a task calls what its read cascade calls. *)
Lemma only_calls_load {V : Type} allowed (pool_of : World L R D → Pool V)
    (set_pool : Pool V → World L R D → World L R D) key expires refresh
    (_read_data : M (World L R D) (option V)) now :
  (∀ p w, trace (set_pool p w) = trace w) →
  only_calls allowed _read_data →
  only_calls allowed (load pool_of set_pool key expires refresh _read_data now).
Proof.
  intros Hset Hread.
  assert (Hstore : ∀ found, only_calls allowed
                              (store pool_of set_pool key expires refresh now found)).
  { intros [v|]; [|apply only_calls_ret]. apply only_calls_modify.
    intros w. apply Hset. }
  unfold load. apply only_calls_bind; [apply only_calls_gets|]. intros pool.
  destruct (fetch key now pool) as [[v|] [|]].
  - apply only_calls_bind; [done|]. intros found.
    apply only_calls_bind; [apply Hstore|]. intros _. apply only_calls_ret.
  - apply only_calls_ret.
  - apply only_calls_bind; [done|]. intros found.
    apply only_calls_bind; [apply Hstore|]. intros _. apply only_calls_ret.
  - apply only_calls_bind; [done|]. intros found.
    apply only_calls_bind; [apply Hstore|]. intros _. apply only_calls_ret.
Qed.
End CallFacts.

Ltac solve_only_calls :=
  repeat first
    [ apply only_calls_ret
    | apply only_calls_raise
    | apply only_calls_gets
    | apply only_calls_call_redis; set_solver
    | apply only_calls_call_dos; set_solver
    | apply only_calls_modify; done
    | apply only_calls_load; [done|]
    | apply only_calls_bind; [|intros ?]
    | match goal with
      | |- only_calls _ (match ?x with _ => _ end) => destruct x
      end ].
(** ** Name registry: the dictionary, the lookups, the removal of a name *)

Lemma get_names_insert_owner (records : gmap string (option ID)) name (j : ID) :
  get_names (<[name := Some j]> records) j = {[name]} ∪ get_names records j.
Proof.
  apply set_eq. intros n. rewrite elem_of_union, elem_of_singleton, !elem_of_get_names.
  destruct (decide (n = name)) as [->|Hn].
  - rewrite lookup_insert_eq. naive_solver.
  - rewrite lookup_insert_ne by done. naive_solver.
Qed.

Lemma get_names_insert_other (records : gmap string (option ID)) name
    (identifier : option ID) (j : ID) :
  identifier ≠ Some j →
  get_names (<[name := identifier]> records) j = get_names records j ∖ {[name]}.
Proof.
  intros Hne. apply set_eq. intros n.
  rewrite elem_of_difference, not_elem_of_singleton, !elem_of_get_names.
  destruct (decide (n = name)) as [->|Hn].
  - rewrite lookup_insert_eq. naive_solver.
  - rewrite lookup_insert_ne by done. naive_solver.
Qed.

(** X17: the reverse lookup over the dictionary.  No name is found in an
    empty dictionary; assigning a name to an identifier adds the name to the
    names of that identifier and takes it away from the names of every other
    one (assigning it to nothing takes it away from all); and no name
    belongs to two identifiers. *)
Theorem get_names_assignment (records : gmap string (option ID)) (name : string)
    (identifier : option ID) (i j : ID) :
  get_names ∅ j = ∅ ∧
  get_names (<[name := identifier]> records) j
  = (if decide (identifier = Some j) then {[name]} ∪ get_names records j
     else get_names records j ∖ {[name]}) ∧
  get_names records i ∩ get_names records j
  = (if decide (i = j) then get_names records i else ∅).
Proof.
  split; [|split].
  - apply set_eq. intros n. rewrite elem_of_get_names, lookup_empty.
    split; [done|by intros ?%elem_of_empty].
  - destruct (decide (identifier = Some j)) as [->|Hne].
    + apply get_names_insert_owner.
    + by apply get_names_insert_other.
  - destruct (decide (i = j)) as [->|Hne].
    + apply set_eq. intros n. rewrite elem_of_intersection. naive_solver.
    + apply set_eq. intros n.
      rewrite elem_of_intersection, !elem_of_get_names. split.
      * intros [Hi Hj]. congruence.
      * by intros ?%elem_of_empty.
Qed.

Section RegistryMore.
Context {R D : Type}.
Context (_redis : AddressNameCache.Interface R) (_dos : AddressNameStorage.Interface D).
Context (cfg : TaskConfig).
Implicit Types (w : World AnsTask.Memory R D) (name : string) (i : ID).

(** [get_record] without a usable entry, without an answer of the volatile
    sink, and with a fresh dictionary that has no identifier for the name. *)
Lemma get_record_scan_none name now w b records :
  name ≠ AllTask.ALL_KEY →
  fetch name now (mem w) = (None, b) →
  fst (AddressNameCache.get_record _redis name (redis w)) = None →
  fetch AllTask.ALL_KEY now (mem w) = (Some (RecordsValue records), false) →
  records !! name = Some None ∨ records !! name = None →
  fst (AddressNameTable.get_record _redis _dos cfg name now w) = Return None.
Proof.
  intros Hname Hfetch Hsink Hall Hrec.
  unfold AddressNameTable.get_record, IdTask.load, load, IdTask._read_data, AllTask.load, load.
  py_unfold. rewrite Hfetch. cbn. rewrite Hsink. cbn. rewrite Hall. cbn.
  by destruct Hrec as [-> | ->].
Qed.
End RegistryMore.

(** X18: the lookups of the name registry never write the durable sink.
    [get_record] calls nothing but [get_record] and [save_record] of the
    volatile sink and [load_records] of the durable one; [get_names] calls
    nothing but [get_names] of the volatile sink and [load_records] of the
    durable one, so the names it computes from the dictionary are kept in
    the pool only. *)
Theorem registry_lookup_calls {R D : Type}
    (_redis : AddressNameCache.Interface R) (_dos : AddressNameStorage.Interface D)
    (cfg : TaskConfig) (name : string) (identifier : ID) (now : Z) :
  only_calls [(Redis, "get_record"%string); (Dos, "load_records"%string);
              (Redis, "save_record"%string)]
    (AddressNameTable.get_record _redis _dos cfg name now) ∧
  only_calls [(Redis, "get_names"%string); (Dos, "load_records"%string)]
    (AddressNameTable.get_names _redis _dos cfg identifier now).
Proof.
  split.
  - unfold AddressNameTable.get_record, IdTask.load, IdTask._read_data,
      AllTask.load, AllTask._read_data.
    solve_only_calls.
  - unfold AddressNameTable.get_names, NameTask.load, NameTask._read_data,
      AllTask.load, AllTask._read_data.
    solve_only_calls.
Qed.

(** X19: [save_record] with no identifier takes the name away.  It erases
    no pool entry; while the dictionary it stored is fresh, [get_record]
    answers [None] for the name once the pool has no usable entry under it
    and the volatile sink has no answer, and the names computed for an
    identifier without a usable entry and without an answer of the volatile
    sink do not contain the name; a fresh cached set of names is returned as
    it is. *)
Theorem save_record_removal {R D : Type}
    (_redis : AddressNameCache.Interface R) (_dos : AddressNameStorage.Interface D)
    (cfg : TaskConfig) (name : string) (t0 t1 : Z)
    (w : World AnsTask.Memory R D) (records : gmap string (option ID)) :
  let w1 := snd (AddressNameTable.save_record _redis _dos cfg name None t0 w) in
  fst (AddressNameTable._load_records _dos cfg t0 w) = Return (RecordsValue records) →
  0 ≤ MEM_CACHE_REFRESH cfg →
  t1 ≤ t0 + (MEM_CACHE_EXPIRES cfg - MEM_CACHE_REFRESH cfg) →
  (∀ k, k ≠ AllTask.ALL_KEY → mem w1 !! k = mem w !! k) ∧
  (∀ b, name ≠ AllTask.ALL_KEY →
     fetch name t1 (mem w1) = (None, b) →
     fst (AddressNameCache.get_record _redis name (redis w1)) = None →
     fst (AddressNameTable.get_record _redis _dos cfg name t1 w1) = Return None) ∧
  (∀ j b, j ≠ AllTask.ALL_KEY →
     fetch j t1 (mem w1) = (None, b) →
     fst (AddressNameCache.get_names _redis j (redis w1)) = None →
     ∃ s, fst (AddressNameTable.get_names _redis _dos cfg j t1 w1) = Return s ∧ name ∉ s) ∧
  (∀ j s, j ≠ AllTask.ALL_KEY →
     fetch j t1 (mem w) = (Some (NamesValue s), false) →
     AddressNameTable.get_names _redis _dos cfg j t1 w1 = (Return s, w1)).
Proof.
  cbn zeta. intros Hload Hmargin Ht1.
  destruct (save_record_pool _redis _dos cfg name None t0 w records Hload)
    as [Hall Hother].
  specialize (Hall t1 Hmargin Ht1). cbn [erased] in Hother.
  repeat apply conj.
  - exact Hother.
  - intros b Hname Hfetch Hsink.
    eapply get_record_scan_none; [done|exact Hfetch|done|exact Hall|].
    left. by rewrite lookup_insert_eq.
  - intros j b Hj Hfetch Hsink. eexists. split.
    + eapply get_names_scan; [done|exact Hfetch|done|exact Hall].
    + rewrite elem_of_get_names, lookup_insert_eq. congruence.
  - intros j s Hj Hfetch. apply get_names_cached.
    rewrite <- Hfetch. apply fetch_lookup_eq. by apply Hother.
Qed.

(** [alice], registered for [idA] at time 0, is taken away at time 1 and
    looked up at time 2. *)
Lemma save_record_removal_witness :
  let w1 := snd (AddressNameTable.save_record MemoryAnsSink.cache MemoryAnsSink.storage
                   RegistryExample.cfg RegistryExample.alice None 1 RegistryExample.w1) in
  fst (AddressNameTable.get_record MemoryAnsSink.cache MemoryAnsSink.storage
         RegistryExample.cfg RegistryExample.alice 2 w1) = Return None.
Proof.
  cbn zeta.
  destruct (save_record_removal MemoryAnsSink.cache MemoryAnsSink.storage
              RegistryExample.cfg RegistryExample.alice 1 2 RegistryExample.w1
              {[RegistryExample.alice := Some RegistryExample.idA]})
    as (_ & Hrecord & _).
  - reflexivity.
  - discriminate.
  - discriminate.
  - apply (Hrecord false); [discriminate|reflexivity|reflexivity].
Defined.
(** X20: reading never writes the durable sink.  Whatever the pool holds
    and whatever the sinks answer, a read of the user, document, device or
    presence table awaits nothing but the getters of the two sinks and the
    method that mirrors a value found in the durable sink into the volatile
    one; the scan asks the durable sink only, and the presence table the
    volatile sink only. *)
Theorem table_reads_only_mirror {UR UD DR DD VR VD LR Info : Type}
    (usr_redis : UserSink.Interface UR) (usr_dos : UserSink.Interface UD)
    (doc_redis : DocumentCache.Interface DR) (doc_dos : DocumentStorage.Interface DD)
    (dev_redis : DeviceSink.Interface Info VR) (dev_dos : DeviceSink.Interface Info VD)
    (login : LoginCache.Interface LR)
    (cfg : TaskConfig) (identifier : ID) (now : Z) :
  only_calls [(Redis, "get_contacts"); (Dos, "get_contacts"); (Redis, "save_contacts")]%string
    (UserTable.get_contacts usr_redis usr_dos cfg identifier now) ∧
  only_calls [(Redis, "get_contacts_command"); (Dos, "get_contacts_command");
              (Redis, "save_contacts_command")]%string
    (UserTable.get_contacts_command usr_redis usr_dos cfg identifier now) ∧
  only_calls [(Redis, "get_block_command"); (Dos, "get_block_command");
              (Redis, "save_block_command")]%string
    (UserTable.get_block_command usr_redis usr_dos cfg identifier now) ∧
  only_calls [(Redis, "get_mute_command"); (Dos, "get_mute_command");
              (Redis, "save_mute_command")]%string
    (UserTable.get_mute_command usr_redis usr_dos cfg identifier now) ∧
  only_calls [(Redis, "load_documents"); (Dos, "load_documents");
              (Redis, "save_documents")]%string
    (DocumentTable.get_documents doc_redis doc_dos cfg identifier now) ∧
  only_calls [(Dos, "scan_documents")]%string
    (DocumentTable.scan_documents (R := DR) doc_dos now) ∧
  only_calls [(Redis, "get_devices"); (Dos, "get_devices"); (Redis, "save_devices")]%string
    (DeviceTable.get_devices dev_redis dev_dos cfg identifier now) ∧
  only_calls [(Redis, "get_active_users")]%string
    (ActiveTable.get_active_users login now).
Proof.
  repeat apply conj.
  - unfold UserTable.get_contacts, UsrTask.load, UsrTask._read_data. solve_only_calls.
  - unfold UserTable.get_contacts_command, ConTask.load, ConTask._read_data.
    solve_only_calls.
  - unfold UserTable.get_block_command, BloTask.load, BloTask._read_data.
    solve_only_calls.
  - unfold UserTable.get_mute_command, MutTask.load, MutTask._read_data.
    solve_only_calls.
  - unfold DocumentTable.get_documents, DocTask.load, DocTask._read_data.
    solve_only_calls.
  - unfold DocumentTable.scan_documents, ScanTask.load, ScanTask._read_data.
    solve_only_calls.
  - unfold DeviceTable.get_devices, DevTask.load, DevTask._read_data. solve_only_calls.
  - unfold ActiveTable.get_active_users, ActTask.load, ActTask._read_data.
    solve_only_calls.
Qed.
